(** * The TypeScript service client: request correlation, queueing and restart policy

    A shallow embedding of
    [extensions/typescript-language-features/src/typescriptServiceClient.ts]:
    the two helper classes [CallbackMap] and [RequestQueue], and the parts of
    [TypeScriptServiceClient] that own them (execute, the drain loop, sending,
    cancellation, message dispatch, start and exit of the server process),
    and three methods that change nothing, [parseErrorText],
    [getWorkspaceRootForResource] and [normalizedPath].

    Conventions.
    - A JavaScript [number] that holds a counter or a sequence number is a [Z];
      all of them stay far below 2^53, where JavaScript arithmetic is exact.
    - A [Map<number, V>] is an association list in insertion order with unique
      keys: JavaScript iterates a [Map] in insertion order, and [destroy]
      rejects the callbacks in that order.
    - The client is single threaded. Every method is a function from the client
      state to the client state; calls that leave the client (a callback being
      invoked, a line written to the server, a notice shown to the user) are
      appended to the [effects] of the state, oldest first.
    - A promise continuation runs in a later turn of the event loop, so it is a
      function of its own, applied by the environment (see [step]).
    - [Date.now()] is an argument of the method that reads the clock.
    - Left out: the log file of the server and the version it reports
      ([tsServerLogFile], [_tsserverVersion]), the configuration, the path
      helper [toResource], and what the subscribers of the event emitters
      do.  The logging that [executeImpl] chains on the
      promise it returns runs after the promise has settled and does not touch
      the client. *)

From Stdlib Require Import ZArith List String Bool Lia Sorted.
Import ListNotations.
Open Scope string_scope.
Open Scope list_scope.
Open Scope Z_scope.

(** * Part I: the program *)

(** ** Values that cross the protocol *)

(** Request arguments and response bodies are opaque to the client. *)
Definition Payload := string.

(** Modelled from the spec: [./protocol] is not among the sources.  Section 6
    gives the messages: a request is [{seq, type: "request", command,
    arguments}], an incoming message is a response [{request_seq, success,
    body | error}] or an event [{event, body?}], told apart by its [type]. *)
Module Proto.

Record Request := {
  seq : Z;
  command : string;
  arguments : Payload
}.

Record Response := {
  request_seq : Z;
  success : bool;
  body : option Payload;
  message : option string
}.

(** Of an event the client itself reads the name and, for [requestCompleted],
    the [request_seq] of its body (the body of a [RequestCompletedEvent] is not
    optional); every other event is handed on by name. *)
Inductive Event :=
| RequestCompleted (request_seq : Z)
| Named (event : string) (has_body : bool).

(** A decoded message, by its [type] field; [Unknown ty] is a message whose
    type [ty] is neither ['response'] nor ['event']. *)
Inductive Message :=
| IsResponse (response : Response)
| IsEvent (ev : Event)
| Unknown (type : string).

End Proto.

(** The [Error] objects the client creates, by their message. *)
Inductive Error :=
| ServiceDied
| CancelledRequest (seq : Z)
| CouldNotCreateService
| UnknownMessageType (type : string)
| External (text : string).

(** What is passed to a callback ([any] in the source). *)
Inductive Value :=
| VUndefined
| VPayload (p : Payload)
| VResponse (r : Proto.Response)
| VError (e : Error).

(** [CallbackItem]: the [resolve] and [reject] functions of one promise made by
    [executeImpl], and the time the request was issued.  [promise] names that
    promise; calling [c] or [e] is recorded as [Call_c] or [Call_e]. *)
Record CallbackItem := {
  promise : nat;
  start : Z
}.

Inductive TraceKind :=
| CanceledRequest (seq : Z)
| TryingToCancelOngoing (seq : Z)
| AlreadyDelivered (seq : Z).

Inductive Effect :=
| Call_c (cb : CallbackItem) (value : Value)
| Call_e (cb : CallbackItem) (err : Value)
| ChildWrite (r : Proto.Request)
| ChildKill
| WriteFileSync (pipe : string) (seq : Z)
| ShowErrorMessage (key : string)
| ShowWarningMessage (key : string)
| LogInfo (what : string)
| LogError (what : string) (data : Value)
| LogTelemetry (eventName : string)
| TraceRequest (r : Proto.Request) (expectsResponse : bool) (queueLength : Z)
| TraceResponse (r : Proto.Response) (start : Z)
| TraceEvent (ev : Proto.Event)
| TraceRequestCompleted (seq : Z) (start : Z)
| LogTrace (t : TraceKind)
| Fire (emitter : string)
| RouteEvent (ev : Proto.Event).

(** ** [Map<number, V>] *)

Module JsMap.
Section WithValue.
Context {V : Type}.

Definition t := list (Z * V).

Definition empty : t := [].

Fixpoint get (k : Z) (m : t) : option V :=
  match m with
  | [] => None
  | (k', v) :: m' => if k' =? k then Some v else get k m'
  end.

Definition has (k : Z) (m : t) : bool :=
  match get k m with Some _ => true | None => false end.

Definition overwrite (k : Z) (v : V) (m : t) : t :=
  map (fun e => if fst e =? k then (k, v) else e) m.

(** [set] keeps the position of a key that is already present. *)
Definition set (k : Z) (v : V) (m : t) : t :=
  if has k m then overwrite k v m else m ++ [(k, v)].

(** [delete] reports whether the key was present. *)
Definition delete (k : Z) (m : t) : bool * t :=
  (has k m, filter (fun e => negb (fst e =? k)) m).

Definition values (m : t) : list V := map snd m.

Definition keys (m : t) : list Z := map fst m.

Definition clear (m : t) : t := [].

Definition size (m : t) : nat := List.length m.

End WithValue.
Arguments t : clear implicits.
End JsMap.

(** ** [class CallbackMap] *)

Module CallbackMap.

Record t := {
  callbacks : JsMap.t CallbackItem;
  asyncCallbacks : JsMap.t CallbackItem;
  pendingResponses : Z
}.

Definition new : t :=
  {| callbacks := JsMap.empty; asyncCallbacks := JsMap.empty; pendingResponses := 0 |}.

(** [destroy(e)]: the calls it makes, and the table it leaves. *)
Definition destroy (e : Value) (m : t) : list Effect * t :=
  (map (fun callback => Call_e callback e) (JsMap.values (callbacks m))
   ++ map (fun callback => Call_e callback e) (JsMap.values (asyncCallbacks m)),
   {| callbacks := JsMap.clear (callbacks m);
      asyncCallbacks := asyncCallbacks m;
      pendingResponses := 0 |}).

Definition add (seq : Z) (callback : CallbackItem) (isAsync : bool) (m : t) : t :=
  if isAsync then
    {| callbacks := callbacks m;
       asyncCallbacks := JsMap.set seq callback (asyncCallbacks m);
       pendingResponses := pendingResponses m |}
  else
    {| callbacks := JsMap.set seq callback (callbacks m);
       asyncCallbacks := asyncCallbacks m;
       pendingResponses := pendingResponses m + 1 |}.

Definition delete (seq : Z) (m : t) : t :=
  let (found, rest) := JsMap.delete seq (callbacks m) in
  if found then
    {| callbacks := rest;
       asyncCallbacks := asyncCallbacks m;
       pendingResponses := pendingResponses m - 1 |}
  else
    {| callbacks := rest;
       asyncCallbacks := snd (JsMap.delete seq (asyncCallbacks m));
       pendingResponses := pendingResponses m |}.

Definition fetch (seq : Z) (m : t) : option CallbackItem * t :=
  let callback :=
    match JsMap.get seq (callbacks m) with
    | Some c => Some c
    | None => JsMap.get seq (asyncCallbacks m)
    end in
  (callback, delete seq m).

End CallbackMap.

(** ** [interface RequestItem] and [class RequestQueue] *)

Module RequestItem.

Record t := {
  request : Proto.Request;
  callbacks : option CallbackItem;
  isAsync : bool
}.

End RequestItem.

Module RequestQueue.

Record t := {
  queue : list RequestItem.t;
  sequenceNumber : Z
}.

Definition new : t := {| queue := []; sequenceNumber := 0 |}.

Definition length (q : t) : Z := Z.of_nat (List.length (queue q)).

Definition push (item : RequestItem.t) (q : t) : t :=
  {| queue := queue q ++ [item]; sequenceNumber := sequenceNumber q |}.

Definition shift (q : t) : option RequestItem.t * t :=
  match queue q with
  | [] => (None, q)
  | item :: rest => (Some item, {| queue := rest; sequenceNumber := sequenceNumber q |})
  end.

(** The scan of [tryCancelPendingRequest]: the first entry with this [seq] is
    spliced out. *)
Fixpoint splice_seq (seq : Z) (l : list RequestItem.t) : option (list RequestItem.t) :=
  match l with
  | [] => None
  | item :: rest =>
      if Proto.seq (RequestItem.request item) =? seq then Some rest
      else match splice_seq seq rest with
           | Some rest' => Some (item :: rest')
           | None => None
           end
  end.

Definition tryCancelPendingRequest (seq : Z) (q : t) : bool * t :=
  match splice_seq seq (queue q) with
  | Some l => (true, {| queue := l; sequenceNumber := sequenceNumber q |})
  | None => (false, q)
  end.

Definition createRequest (command : string) (args : Payload) (q : t) : Proto.Request * t :=
  ({| Proto.seq := sequenceNumber q; Proto.command := command; Proto.arguments := args |},
   {| queue := queue q; sequenceNumber := sequenceNumber q + 1 |}).

End RequestQueue.

(** ** Collaborators of the client *)

(** Modelled from the spec: [utils/api] is not among the sources.  A version is
    [major.minor.patch], [gte] compares two versions, and the client reads the
    constants [defaultVersion] (1.0.0), [v206] and [v222]. *)
Module API.

Record t := { major : Z; minor : Z; patch : Z }.

Definition gte (a b : t) : bool :=
  (major b <? major a)
  || ((major a =? major b)
      && ((minor b <? minor a)
          || ((minor a =? minor b) && (patch b <=? patch a)))).

Definition defaultVersion : t := {| major := 1; minor := 0; patch := 0 |}.
Definition v206 : t := {| major := 2; minor := 0; patch := 6 |}.
Definition v222 : t := {| major := 2; minor := 2; patch := 2 |}.

End API.

(** What the collaborators answer when [startService] asks them: whether the
    picked [tsServerPath] exists, the version the picker ends with
    ([versionPicker.currentVersion.version || API.defaultVersion]), and the
    name [electron.getTempFile('tscancellation')] returns. *)
Record Host := {
  tsServerPathExists : bool;
  pickedVersion : API.t;
  tempFile : string
}.

(** ** [class TypeScriptServiceClient] *)

(** The promise held in [servicePromise].  The client only tests it against
    [null] and chains on it; when and how it settles is up to the environment. *)
Inductive Thenable := ServicePromise.

(** What [service()] returns: the current [servicePromise], or a promise that
    is already rejected. *)
Inductive ServiceResult :=
| OnServicePromise
| RejectedWith (err : Value).

(** The continuation [sendRequest] chains on [service()] for one request. *)
Record Reaction := {
  serverRequest : Proto.Request;
  waitsOn : ServiceResult
}.

Record Client := {
  servicePromise : option Thenable;
  lastError : option Value;
  lastStart : Z;
  numberRestarts : Z;
  isRestarting : bool;
  cancellationPipeName : option string;
  requestQueue : RequestQueue.t;
  callbacks : CallbackMap.t;
  _apiVersion : API.t;
  (** promises handed out by [executeImpl] so far; names the next one *)
  promises : nat;
  (** continuations of [sendRequest] that have not run yet, oldest first *)
  reactions : list Reaction;
  effects : list Effect
}.

Definition with_servicePromise (v : option Thenable) (s : Client) : Client :=
  {| servicePromise := v; lastError := lastError s; lastStart := lastStart s;
     numberRestarts := numberRestarts s; isRestarting := isRestarting s;
     cancellationPipeName := cancellationPipeName s; requestQueue := requestQueue s;
     callbacks := callbacks s; _apiVersion := _apiVersion s; promises := promises s;
     reactions := reactions s; effects := effects s |}.

Definition with_lastError (v : option Value) (s : Client) : Client :=
  {| servicePromise := servicePromise s; lastError := v; lastStart := lastStart s;
     numberRestarts := numberRestarts s; isRestarting := isRestarting s;
     cancellationPipeName := cancellationPipeName s; requestQueue := requestQueue s;
     callbacks := callbacks s; _apiVersion := _apiVersion s; promises := promises s;
     reactions := reactions s; effects := effects s |}.

Definition with_lastStart (v : Z) (s : Client) : Client :=
  {| servicePromise := servicePromise s; lastError := lastError s; lastStart := v;
     numberRestarts := numberRestarts s; isRestarting := isRestarting s;
     cancellationPipeName := cancellationPipeName s; requestQueue := requestQueue s;
     callbacks := callbacks s; _apiVersion := _apiVersion s; promises := promises s;
     reactions := reactions s; effects := effects s |}.

Definition with_numberRestarts (v : Z) (s : Client) : Client :=
  {| servicePromise := servicePromise s; lastError := lastError s; lastStart := lastStart s;
     numberRestarts := v; isRestarting := isRestarting s;
     cancellationPipeName := cancellationPipeName s; requestQueue := requestQueue s;
     callbacks := callbacks s; _apiVersion := _apiVersion s; promises := promises s;
     reactions := reactions s; effects := effects s |}.

Definition with_isRestarting (v : bool) (s : Client) : Client :=
  {| servicePromise := servicePromise s; lastError := lastError s; lastStart := lastStart s;
     numberRestarts := numberRestarts s; isRestarting := v;
     cancellationPipeName := cancellationPipeName s; requestQueue := requestQueue s;
     callbacks := callbacks s; _apiVersion := _apiVersion s; promises := promises s;
     reactions := reactions s; effects := effects s |}.

Definition with_cancellationPipeName (v : option string) (s : Client) : Client :=
  {| servicePromise := servicePromise s; lastError := lastError s; lastStart := lastStart s;
     numberRestarts := numberRestarts s; isRestarting := isRestarting s;
     cancellationPipeName := v; requestQueue := requestQueue s;
     callbacks := callbacks s; _apiVersion := _apiVersion s; promises := promises s;
     reactions := reactions s; effects := effects s |}.

Definition with_requestQueue (v : RequestQueue.t) (s : Client) : Client :=
  {| servicePromise := servicePromise s; lastError := lastError s; lastStart := lastStart s;
     numberRestarts := numberRestarts s; isRestarting := isRestarting s;
     cancellationPipeName := cancellationPipeName s; requestQueue := v;
     callbacks := callbacks s; _apiVersion := _apiVersion s; promises := promises s;
     reactions := reactions s; effects := effects s |}.

Definition with_callbacks (v : CallbackMap.t) (s : Client) : Client :=
  {| servicePromise := servicePromise s; lastError := lastError s; lastStart := lastStart s;
     numberRestarts := numberRestarts s; isRestarting := isRestarting s;
     cancellationPipeName := cancellationPipeName s; requestQueue := requestQueue s;
     callbacks := v; _apiVersion := _apiVersion s; promises := promises s;
     reactions := reactions s; effects := effects s |}.

Definition with_apiVersion (v : API.t) (s : Client) : Client :=
  {| servicePromise := servicePromise s; lastError := lastError s; lastStart := lastStart s;
     numberRestarts := numberRestarts s; isRestarting := isRestarting s;
     cancellationPipeName := cancellationPipeName s; requestQueue := requestQueue s;
     callbacks := callbacks s; _apiVersion := v; promises := promises s;
     reactions := reactions s; effects := effects s |}.

Definition with_promises (v : nat) (s : Client) : Client :=
  {| servicePromise := servicePromise s; lastError := lastError s; lastStart := lastStart s;
     numberRestarts := numberRestarts s; isRestarting := isRestarting s;
     cancellationPipeName := cancellationPipeName s; requestQueue := requestQueue s;
     callbacks := callbacks s; _apiVersion := _apiVersion s; promises := v;
     reactions := reactions s; effects := effects s |}.

Definition with_reactions (v : list Reaction) (s : Client) : Client :=
  {| servicePromise := servicePromise s; lastError := lastError s; lastStart := lastStart s;
     numberRestarts := numberRestarts s; isRestarting := isRestarting s;
     cancellationPipeName := cancellationPipeName s; requestQueue := requestQueue s;
     callbacks := callbacks s; _apiVersion := _apiVersion s; promises := promises s;
     reactions := v; effects := effects s |}.

(** [emit l s]: the calls [l] leave the client, in this order. *)
Definition emit (l : list Effect) (s : Client) : Client :=
  {| servicePromise := servicePromise s; lastError := lastError s; lastStart := lastStart s;
     numberRestarts := numberRestarts s; isRestarting := isRestarting s;
     cancellationPipeName := cancellationPipeName s; requestQueue := requestQueue s;
     callbacks := callbacks s; _apiVersion := _apiVersion s; promises := promises s;
     reactions := reactions s; effects := effects s ++ l |}.

(** The constructor. *)
Definition new (now : Z) : Client :=
  {| servicePromise := None; lastError := None; lastStart := now;
     numberRestarts := 0; isRestarting := false;
     cancellationPipeName := None; requestQueue := RequestQueue.new;
     callbacks := CallbackMap.new; _apiVersion := API.defaultVersion; promises := 0%nat;
     reactions := []; effects := [] |}.

Definition resetClientVersion (s : Client) : Client :=
  with_apiVersion API.defaultVersion s.

(** The part of [getTsServerArgs] that runs before its first [await]: the
    argument list itself goes to the forked process and is not kept. *)
Definition getTsServerArgs (host : Host) (s : Client) : Client :=
  if API.gte (_apiVersion s) API.v222
  then with_cancellationPipeName (Some (tempFile host)) s
  else s.

(** [startService], up to the point where the promise is stored; the fork
    happens in a later turn and answers through [fork_callback], which is where
    the argument [resendModels] is used. *)
Definition startService (host : Host) (s : Client) : Client :=
  let s := emit [LogInfo "Using tsserver from"] s in
  let s := if tsServerPathExists host then s
           else emit [ShowWarningMessage "noServerFound"] s in
  let s := with_apiVersion (pickedVersion host) s in
  let s := emit [Fire "onDidChangeTypeScriptVersion"] s in
  let s := with_requestQueue RequestQueue.new s in
  let s := with_callbacks CallbackMap.new s in
  let s := with_lastError None s in
  let s := getTsServerArgs host s in
  with_servicePromise (Some ServicePromise) s.

Definition service (host : Host) (s : Client) : ServiceResult * Client :=
  match servicePromise s with
  | Some _ => (OnServicePromise, s)
  | None =>
      match lastError s with
      | Some err => (RejectedWith err, s)
      | None =>
          let s := startService host s in
          match servicePromise s with
          | Some _ => (OnServicePromise, s)
          | None => (RejectedWith (VError CouldNotCreateService), s)
          end
      end
  end.

Definition ensureServiceStarted (host : Host) (s : Client) : Client :=
  match servicePromise s with
  | Some _ => s
  | None => startService host s
  end.

(** [sendRequest]: the synchronous part; the two continuations follow. *)
Definition sendRequest (host : Host) (requestItem : RequestItem.t) (s : Client) : Client :=
  let serverRequest := RequestItem.request requestItem in
  let s := emit [TraceRequest serverRequest
                   (match RequestItem.callbacks requestItem with Some _ => true | None => false end)
                   (RequestQueue.length (requestQueue s))] s in
  let s := match RequestItem.callbacks requestItem with
           | Some cb =>
               with_callbacks
                 (CallbackMap.add (Proto.seq serverRequest) cb (RequestItem.isAsync requestItem)
                    (callbacks s)) s
           | None => s
           end in
  let (promise, s) := service host s in
  with_reactions (reactions s ++ [{| serverRequest := serverRequest; waitsOn := promise |}]) s.

(** [(childProcess) => { childProcess.write(serverRequest); }] *)
Definition sendRequest_onFulfilled (serverRequest : Proto.Request) (s : Client) : Client :=
  emit [ChildWrite serverRequest] s.

(** [err => { const callback = this.callbacks.fetch(serverRequest.seq); ... }] *)
Definition sendRequest_onRejected (serverRequest : Proto.Request) (err : Value) (s : Client)
  : Client :=
  let (callback, table) := CallbackMap.fetch (Proto.seq serverRequest) (callbacks s) in
  let s := with_callbacks table s in
  match callback with
  | Some callback => emit [Call_e callback err] s
  | None => s
  end.

(** The [while] loop of [sendNextRequests]; every round takes one entry off the
    queue, so the length of the queue is fuel enough (see
    [sendNextRequests_loop_enough]). *)
Fixpoint sendNextRequests_loop (host : Host) (fuel : nat) (s : Client) : Client :=
  match fuel with
  | O => s
  | S fuel =>
      if (CallbackMap.pendingResponses (callbacks s) =? 0)
         && (RequestQueue.length (requestQueue s) >? 0)
      then
        let (item, q) := RequestQueue.shift (requestQueue s) in
        let s := with_requestQueue q s in
        match item with
        | Some item => sendNextRequests_loop host fuel (sendRequest host item s)
        | None => sendNextRequests_loop host fuel s
        end
      else s
  end.

Definition sendNextRequests (host : Host) (s : Client) : Client :=
  sendNextRequests_loop host (List.length (RequestQueue.queue (requestQueue s))) s.

(** [executeImpl].  [now] is read only when [expectsResult] holds.  The
    listener put on the cancellation token is [tryCancelRequest request.seq]. *)
Definition executeImpl (host : Host) (command : string) (args : Payload)
  (isAsync expectsResult : bool) (now : Z) (s : Client) : Client :=
  let (request, q) := RequestQueue.createRequest command args (requestQueue s) in
  let s := with_requestQueue q s in
  let (callbacks, s) :=
    if expectsResult
    then (Some {| promise := promises s; start := now |}, with_promises (S (promises s)) s)
    else (None, s) in
  let requestInfo :=
    {| RequestItem.request := request;
       RequestItem.callbacks := callbacks;
       RequestItem.isAsync := isAsync |} in
  let s := with_requestQueue (RequestQueue.push requestInfo (requestQueue s)) s in
  sendNextRequests host s.

Definition execute (host : Host) (command : string) (args : Payload) (now : Z) (s : Client)
  : Client :=
  executeImpl host command args false true now s.

Definition executeWithoutWaitingForResponse (host : Host) (command : string) (args : Payload)
  (s : Client) : Client :=
  executeImpl host command args false false 0 s.

Definition executeAsync (host : Host) (command : string) (args : Payload) (now : Z)
  (s : Client) : Client :=
  executeImpl host command args true true now s.

Definition truthy (text : string) : bool := negb (text =? "")%string.

(** [tryCancelRequest]: the [try] block gives the result, the [finally] block
    runs on each of its three ways out. *)
Definition tryCancelRequest (seq : Z) (s : Client) : bool * Client :=
  let (cancelled, q) := RequestQueue.tryCancelPendingRequest seq (requestQueue s) in
  let (result, s) :=
    if cancelled then
      (true, emit [LogTrace (CanceledRequest seq)] (with_requestQueue q s))
    else
      match cancellationPipeName s with
      | Some pipe =>
          if API.gte (_apiVersion s) API.v222 && truthy pipe then
            (true, emit [LogTrace (TryingToCancelOngoing seq); WriteFileSync pipe seq] s)
          else (false, emit [LogTrace (AlreadyDelivered seq)] s)
      | None => (false, emit [LogTrace (AlreadyDelivered seq)] s)
      end in
  let (p, table) := CallbackMap.fetch seq (callbacks s) in
  let s := with_callbacks table s in
  (result,
   match p with
   | Some p => emit [Call_e p (VError (CancelledRequest seq))] s
   | None => s
   end).

(** [dispatchEvent].  [requestCompleted] completes the request it names; the
    fan-out of the other events to their emitters, to telemetry and to the
    buffer synchronisation is one [RouteEvent]. *)
Definition dispatchEvent (ev : Proto.Event) (s : Client) : Client :=
  match ev with
  | Proto.RequestCompleted seq =>
      let (p, table) := CallbackMap.fetch seq (callbacks s) in
      let s := with_callbacks table s in
      match p with
      | Some p => emit [TraceRequestCompleted seq (start p); Call_c p VUndefined] s
      | None => s
      end
  | Proto.Named _ _ => emit [RouteEvent ev] s
  end.

(** How a method ends: it returns, or it throws. *)
Inductive Completion :=
| Returned
| Threw (err : Error).

Definition dispatchMessage (host : Host) (message : Proto.Message) (s : Client)
  : Completion * Client :=
  let (completion, s) :=
    match message with
    | Proto.IsResponse response =>
        let (p, table) := CallbackMap.fetch (Proto.request_seq response) (callbacks s) in
        let s := with_callbacks table s in
        (Returned,
         match p with
         | Some p =>
             emit [TraceResponse response (start p);
                   if Proto.success response
                   then Call_c p (VResponse response)
                   else Call_e p (VResponse response)] s
         | None => s
         end)
    | Proto.IsEvent ev =>
        (Returned, dispatchEvent ev (emit [TraceEvent ev] s))
    | Proto.Unknown type =>
        (Threw (UnknownMessageType type), s)
    end in
  (completion, sendNextRequests host s).

Definition setCompilerOptionsForInferredProjects (host : Host) (s : Client) : Client :=
  if negb (API.gte (_apiVersion s) API.v206) then s
  else executeWithoutWaitingForResponse host "compilerOptionsForInferredProjects" "options" s.

Definition serviceStarted (host : Host) (resendModels : bool) (s : Client) : Client :=
  let s := executeWithoutWaitingForResponse host "configure" "hostInfo: vscode" s in
  let s := setCompilerOptionsForInferredProjects host s in
  if resendModels then emit [Fire "onResendModelsRequested"] s else s.

(** [serviceExited].  Both readings of the clock happen in the same turn and
    are the one [now]; it is read only when [restart] holds. *)
Definition serviceExited (host : Host) (restart : bool) (now : Z) (s : Client) : Client :=
  let s := with_servicePromise None s in
  let (calls, _) := CallbackMap.destroy (VError ServiceDied) (callbacks s) in
  let s := emit calls s in
  let s := with_callbacks CallbackMap.new s in
  if negb restart then resetClientVersion s
  else
    let diff := now - lastStart s in
    let s := with_numberRestarts (numberRestarts s + 1) s in
    if numberRestarts s >? 5 then
      let s := with_numberRestarts 0 s in
      if diff <? 10 * 1000 then
        let s := with_lastStart now s in
        let s := emit [ShowErrorMessage "serverDiedAfterStart"; LogTelemetry "serviceExited"] s in
        resetClientVersion s
      else if diff <? 60 * 1000 then
        let s := with_lastStart now s in
        let s := emit [ShowWarningMessage "serverDied"] s in
        startService host s
      else startService host s
    else startService host s.

(** The callback handed to [electron.fork]: [err = None] is a process that
    started. *)
Definition fork_callback (host : Host) (err : option Value) (resendModels : bool) (now : Z)
  (s : Client) : Client :=
  match err with
  | Some err =>
      let s := with_lastError (Some err) s in
      let s := emit [LogError "Starting TSServer failed with error." err;
                     ShowErrorMessage "serverCouldNotBeStarted";
                     LogTelemetry "error"] s in
      resetClientVersion s
  | None =>
      let s := emit [LogInfo "Started TSServer"] s in
      let s := with_lastStart now s in
      let s := emit [Fire "onTsServerStarted"] s in
      serviceStarted host resendModels s
  end.

(** [handle.onError((err) => ...)] *)
Definition handle_onError (host : Host) (err : Value) (s : Client) : Client :=
  let s := with_lastError (Some err) s in
  let s := emit [LogError "TSServer errored with error." err; LogTelemetry "tsserver.error"] s in
  serviceExited host false 0 s.

(** [handle.onExit((code) => ...)] *)
Definition handle_onExit (host : Host) (code : option Z) (now : Z) (s : Client) : Client :=
  let s := match code with
           | None => emit [LogInfo "TSServer exited"] s
           | Some _ => emit [LogError "TSServer exited with code" VUndefined;
                            LogTelemetry "tsserver.exitWithCode"] s
           end in
  let s := serviceExited host (negb (isRestarting s)) now s in
  with_isRestarting false s.

(** The two callbacks handed to [createReader]. *)
Definition reader_onMessage (host : Host) (msg : Proto.Message) (s : Client)
  : Completion * Client :=
  dispatchMessage host msg s.

Definition reader_onError (error : Value) (s : Client) : Client :=
  emit [LogError "ReaderError" error] s.

(** Modelled from the spec: the [Reader] of [utils/wireProtocol] is not among
    the sources.  It calls the first callback once for each decoded message, in
    stream order, and the second one on a failure; a failure of one message is
    surfaced there and the client goes on. *)
Definition Reader_deliver (host : Host) (msg : Proto.Message) (s : Client) : Client :=
  match reader_onMessage host msg s with
  | (Returned, s) => s
  | (Threw err, s) => reader_onError (VError err) s
  end.

(** [restartTsServer]: without a [servicePromise] it starts at once; with one,
    the two steps are chained on it and run when it has resolved. *)
Definition restartTsServer_kill (s : Client) : Client :=
  let s := emit [LogInfo "Killing TS Server"] s in
  let s := with_isRestarting true s in
  let s := emit [ChildKill] s in
  resetClientVersion s.

Definition restartTsServer_start (host : Host) (s : Client) : Client :=
  startService host s.

Definition restartTsServer (host : Host) (s : Client) : Client :=
  match servicePromise s with
  | Some _ => s
  | None => restartTsServer_start host s
  end.

(** ** Telemetry of a failed request: [parseErrorText] *)

(** The string methods [parseErrorText] calls, on the code units of a string. *)
Module JsString.

(** [s.substr(start)] and [s.substring(start)]: what follows the first
    [start] code units. *)
Fixpoint substr (start : nat) (s : string) : string :=
  match start, s with
  | O, _ => s
  | S n, String _ s' => substr n s'
  | S _, EmptyString => EmptyString
  end.

(** [s.substring(0, stop)] *)
Fixpoint take (stop : nat) (s : string) : string :=
  match stop, s with
  | O, _ => EmptyString
  | S n, String c s' => String c (take n s')
  | S _, EmptyString => EmptyString
  end.

(** [s.substring(start, stop)] for [start <= stop] *)
Definition substring (start stop : nat) (s : string) : string :=
  take (stop - start) (substr start s).

Definition startsWith (s searchString : string) : bool := String.prefix searchString s.

(** [s.indexOf(c)] for a one-character [c]: the first position, or [-1]. *)
Fixpoint indexOf (s : string) (c : Ascii.ascii) : Z :=
  match s with
  | EmptyString => -1
  | String a s' =>
      if Ascii.eqb a c then 0
      else let i := indexOf s' c in if i <? 0 then -1 else i + 1
  end.

(** The code unit [c] occurs in [s]. *)
Fixpoint includes (s : string) (c : Ascii.ascii) : bool :=
  match s with
  | EmptyString => false
  | String a s' => Ascii.eqb a c || includes s' c
  end.

End JsString.

(** [ObjectMap<string>]: the properties of an object, in the order in which
    they were first set. *)
Module ObjectMap.

Definition t := list (string * string).

Definition create : t := [].

Fixpoint get (key : string) (o : t) : option string :=
  match o with
  | [] => None
  | (k, v) :: o' => if (k =? key)%string then Some v else get key o'
  end.

Fixpoint set (key value : string) (o : t) : t :=
  match o with
  | [] => [(key, value)]
  | (k, v) :: o' => if (k =? key)%string then (k, value) :: o' else (k, v) :: set key value o'
  end.

End ObjectMap.

Definition newline : Ascii.ascii := Ascii.ascii_of_nat 10.

Definition errorPrefix : string := "Error processing request. ".

(** [parseErrorText].  [errorText] is [err && err.message]: [None] stands for
    a value that is not a string; the empty string is as falsy as that. *)
Definition parseErrorText (errorText : option string) (command : string) : ObjectMap.t :=
  let properties := ObjectMap.create in
  let properties := ObjectMap.set "command" command properties in
  match errorText with
  | None => properties
  | Some errorText =>
      if negb (truthy errorText) then properties
      else
        let properties := ObjectMap.set "errorText" errorText properties in
        if JsString.startsWith errorText errorPrefix then
          let prefixFreeErrorText := JsString.substr (String.length errorPrefix) errorText in
          let newlineIndex := JsString.indexOf prefixFreeErrorText newline in
          if newlineIndex >=? 0 then
            let properties :=
              ObjectMap.set "message"
                (JsString.substring 0 (Z.to_nat newlineIndex) prefixFreeErrorText) properties in
            ObjectMap.set "stack"
              (JsString.substr (Z.to_nat (newlineIndex + 1)) prefixFreeErrorText) properties
          else properties
        else properties
  end.

(** ** The workspace root of a resource: [getWorkspaceRootForResource] *)

(** Of a [vscode.Uri] the method reads the scheme and the file system path. *)
Record Uri := {
  scheme : string;
  fsPath : string
}.

(** Not among the sources: the two schemes of [utils/fileSchemes] the method
    names, each the string its name spells. *)
Module fileSchemes.
Definition file : string := "file".
Definition untitled : string := "untitled".
End fileSchemes.

(** [getWorkspaceRootForResource].  [roots] is
    [vscode.workspace.workspaceFolders], each folder by its [uri.fsPath];
    [sort] is [roots.sort((a, b) => a.uri.fsPath.length - b.uri.fsPath.length)],
    which sorts the array in place, so that [roots[0]] after the loop is the
    first folder of the sorted array; [sep] is [path.sep]. *)
Definition getWorkspaceRootForResource (sort : list string -> list string) (sep : string)
  (roots : option (list string)) (resource : Uri) : option string :=
  match roots with
  | None => None
  | Some roots =>
      if (List.length roots =? 0)%nat then None
      else if (scheme resource =? fileSchemes.file)%string
              || (scheme resource =? fileSchemes.untitled)%string
      then
        let roots := sort roots in
        match find (fun root => JsString.startsWith (fsPath resource) (root ++ sep)) roots with
        | Some root => Some root
        | None => hd_error roots
        end
      else None
  end.

(** ** The path the server knows a resource by: [normalizedPath] *)

(** [path.sep], which the constructor stores in [pathSeparator]: one
    character, [/] or [\]. *)
Inductive PathSep := Slash | Backslash.

Definition sepChar (sep : PathSep) : Ascii.ascii :=
  match sep with
  | Slash => Ascii.ascii_of_nat 47
  | Backslash => Ascii.ascii_of_nat 92
  end.

(** [s.replace(new RegExp('\\' + c, 'g'), replacement)] for a [c] that is [/]
    or [\]: the pattern is that character, escaped, and every occurrence of it
    is replaced. *)
Fixpoint replaceAll (c replacement : Ascii.ascii) (s : string) : string :=
  match s with
  | EmptyString => EmptyString
  | String a s' =>
      String (if Ascii.eqb a c then replacement else a) (replaceAll c replacement s')
  end.

(** Not among the sources: the third scheme of [utils/fileSchemes], and two
    further constants of [utils/api], each the version its name spells. *)
Definition walkThroughSnippet : string := "walkThroughSnippet".

Definition v213 : API.t := {| API.major := 2; API.minor := 1; API.patch := 3 |}.
Definition v270 : API.t := {| API.major := 2; API.minor := 7; API.patch := 0 |}.

Definition inMemoryResourcePrefix (s : Client) : string :=
  if API.gte (_apiVersion s) v270 then "^" else "".

(** [normalizedPath].  For a resource that lives in memory the result is a
    URI made by [vscode.Uri] and [path] from the resource and the prefix;
    [inMemoryUri] stands for that computation. *)
Definition normalizedPath (inMemoryUri : string -> Uri -> string) (pathSeparator : PathSep)
  (resource : Uri) (s : Client) : option string :=
  if API.gte (_apiVersion s) v213
     && ((scheme resource =? walkThroughSnippet)%string
         || (scheme resource =? fileSchemes.untitled)%string)
  then Some (inMemoryUri (inMemoryResourcePrefix s) resource)
  else if negb (scheme resource =? fileSchemes.file)%string then None
  else
    let result := fsPath resource in
    if negb (truthy result) then None
    else Some (replaceAll (sepChar pathSeparator) (Ascii.ascii_of_nat 47) result).

Definition toPath (inMemoryUri : string -> Uri -> string) (pathSeparator : PathSep)
  (resource : Uri) (s : Client) : option string :=
  normalizedPath inMemoryUri pathSeparator resource s.

(** ** The event loop around the client *)

(** How the environment settles the promise a continuation waits on. *)
Inductive Settlement :=
| Fulfilled
| Rejected (err : Value).

Definition remove_nth {A : Type} (i : nat) (l : list A) : list A :=
  firstn i l ++ skipn (S i) l.

(** Run the [i]-th waiting continuation of [sendRequest].  A promise that
    [service()] returned already rejected can only reject; a write that throws
    lands in the rejection handler like a rejected [servicePromise]. *)
Definition runReaction (i : nat) (o : Settlement) (s : Client) : Client :=
  match nth_error (reactions s) i with
  | None => s
  | Some r =>
      let s := with_reactions (remove_nth i (reactions s)) s in
      match waitsOn r, o with
      | RejectedWith err, _ => sendRequest_onRejected (serverRequest r) err s
      | OnServicePromise, Fulfilled => sendRequest_onFulfilled (serverRequest r) s
      | OnServicePromise, Rejected err => sendRequest_onRejected (serverRequest r) err s
      end
  end.

(** One turn of the event loop: a call of the owner, a cancellation token that
    fires, a callback of the server process or of its reader, or a promise
    continuation. *)
Inductive Turn :=
| Execute (command : string) (args : Payload) (now : Z)
| ExecuteAsync (command : string) (args : Payload) (now : Z)
| ExecuteWithoutWaitingForResponse (command : string) (args : Payload)
| TokenCancelled (seq : Z)
| EnsureServiceStarted
| RestartTsServer
| RestartKill
| RestartStart
| ForkCallback (err : option Value) (resendModels : bool) (now : Z)
| ChildError (err : Value)
| ChildExit (code : option Z) (now : Z)
| ReaderMessage (msg : Proto.Message)
| Continue (i : nat) (o : Settlement).

Definition turn (host : Host) (t : Turn) (s : Client) : Client :=
  match t with
  | Execute command args now => execute host command args now s
  | ExecuteAsync command args now => executeAsync host command args now s
  | ExecuteWithoutWaitingForResponse command args =>
      executeWithoutWaitingForResponse host command args s
  | TokenCancelled seq => snd (tryCancelRequest seq s)
  | EnsureServiceStarted => ensureServiceStarted host s
  | RestartTsServer => restartTsServer host s
  | RestartKill => restartTsServer_kill s
  | RestartStart => restartTsServer_start host s
  | ForkCallback err resendModels now => fork_callback host err resendModels now s
  | ChildError err => handle_onError host err s
  | ChildExit code now => handle_onExit host code now s
  | ReaderMessage msg => Reader_deliver host msg s
  | Continue i o => runReaction i o s
  end.

(** The collaborators may answer differently at every turn. *)
Fixpoint run (turns : list (Host * Turn)) (s : Client) : Client :=
  match turns with
  | [] => s
  | (host, t) :: rest => run rest (turn host t s)
  end.

Definition reachable (s : Client) : Prop :=
  exists now turns, s = run turns (new now).

(** ** Notions used by the statements *)

(** The synchronous requests in flight: those with a callback in [callbacks]. *)
Definition syncInFlight (s : Client) : list Z :=
  JsMap.keys (CallbackMap.callbacks (callbacks s)).

Definition asyncInFlight (s : Client) : list Z :=
  JsMap.keys (CallbackMap.asyncCallbacks (callbacks s)).

Definition seqOf (item : RequestItem.t) : Z := Proto.seq (RequestItem.request item).

Definition queuedSeqs (s : Client) : list Z :=
  map seqOf (RequestQueue.queue (requestQueue s)).

(** The counter is the number of synchronous requests in flight, and there is
    at most one. *)
Definition gate_table (m : CallbackMap.t) : Prop :=
  CallbackMap.pendingResponses m = Z.of_nat (List.length (CallbackMap.callbacks m))
  /\ (List.length (CallbackMap.callbacks m) <= 1)%nat.

Definition gate_inv (s : Client) : Prop := gate_table (callbacks s).

(** Sequence numbers are used once: the queue holds increasing numbers below
    the counter, every number in flight is below every queued one, and no
    number is in flight twice. *)
Definition seq_ok (q : RequestQueue.t) (m : CallbackMap.t) : Prop :=
  let queued := map seqOf (RequestQueue.queue q) in
  let sync := JsMap.keys (CallbackMap.callbacks m) in
  let async := JsMap.keys (CallbackMap.asyncCallbacks m) in
  StronglySorted Z.lt queued
  /\ (forall k, In k queued -> k < RequestQueue.sequenceNumber q)
  /\ (forall k, In k sync \/ In k async ->
        k < RequestQueue.sequenceNumber q /\ forall k', In k' queued -> k < k')
  /\ (forall k, In k sync -> In k async -> False)
  /\ NoDup sync /\ NoDup async.

Definition seq_inv (s : Client) : Prop := seq_ok (requestQueue s) (callbacks s).

(** Calls on one [RequestQueue], and the sequence numbers [createRequest]
    hands out during them. *)
Inductive QueueCall :=
| QPush (item : RequestItem.t)
| QShift
| QCancel (seq : Z)
| QCreate (command : string) (args : Payload).

Fixpoint allocated (calls : list QueueCall) (q : RequestQueue.t) : list Z :=
  match calls with
  | [] => []
  | QPush item :: rest => allocated rest (RequestQueue.push item q)
  | QShift :: rest => allocated rest (snd (RequestQueue.shift q))
  | QCancel seq :: rest => allocated rest (snd (RequestQueue.tryCancelPendingRequest seq q))
  | QCreate command args :: rest =>
      let (r, q) := RequestQueue.createRequest command args q in
      Proto.seq r :: allocated rest q
  end.

Fixpoint creations (calls : list QueueCall) : nat :=
  match calls with
  | [] => 0
  | QCreate _ _ :: rest => S (creations rest)
  | _ :: rest => creations rest
  end.

(** The notices of the restart policy among some effects. *)
Definition isRestartNotice (e : Effect) : bool :=
  match e with
  | ShowErrorMessage key => (key =? "serverDiedAfterStart")%string
  | ShowWarningMessage key => (key =? "serverDied")%string
  | _ => false
  end.

Definition restartNotices (s : Client) : list Effect :=
  filter isRestartNotice (effects s).

(** A run of crashes: each session starts at its first time and its process
    exits, unasked, at the second. *)
Fixpoint crashes (host : Host) (sessions : list (Z * Z)) (s : Client) : Client :=
  match sessions with
  | [] => s
  | (started, exited) :: rest =>
      crashes host rest
        (handle_onExit host (Some 1) exited (fork_callback host None true started s))
  end.

Definition isCallback (e : Effect) : bool :=
  match e with
  | Call_c _ _ | Call_e _ _ => true
  | _ => false
  end.

(** What the drain loop itself lets out: the trace of each request it sends
    and, when [service()] has to start the server, the calls of
    [startService]. *)
Definition isDrainEffect (e : Effect) : bool :=
  match e with
  | TraceRequest _ _ _ => true
  | LogInfo what => (what =? "Using tsserver from")%string
  | ShowWarningMessage key => (key =? "noServerFound")%string
  | Fire emitter => (emitter =? "onDidChangeTypeScriptVersion")%string
  | _ => false
  end.

(** The state the loop is in after taking the head [item] off the queue and
    sending it. *)
Definition sendHead (host : Host) (item : RequestItem.t) (rest : list RequestItem.t)
  (s : Client) : Client :=
  sendRequest host item
    (with_requestQueue
       {| RequestQueue.queue := rest;
          RequestQueue.sequenceNumber := RequestQueue.sequenceNumber (requestQueue s) |} s).

(** The out-of-band cancellation that [tryCancelRequest] can use: the pipe
    name, when the server is 2.2.2 or later and a pipe name is set. *)
Definition sideChannel (s : Client) : option string :=
  match cancellationPipeName s with
  | Some pipe => if API.gte (_apiVersion s) API.v222 && truthy pipe then Some pipe else None
  | None => None
  end.

(** The trace and the marker file of the [try] block of [tryCancelRequest]. *)
Definition cancelCalls (seq : Z) (s : Client) : list Effect :=
  if fst (RequestQueue.tryCancelPendingRequest seq (requestQueue s))
  then [LogTrace (CanceledRequest seq)]
  else match sideChannel s with
       | Some pipe => [LogTrace (TryingToCancelOngoing seq); WriteFileSync pipe seq]
       | None => [LogTrace (AlreadyDelivered seq)]
       end.


Definition host291 : Host :=
  {| tsServerPathExists := true;
     pickedVersion := {| API.major := 2; API.minor := 9; API.patch := 1 |};
     tempFile := "tscancellation" |}.

(** The fields of the restart policy, which sending requests never writes. *)
Definition sameSupervision (s s' : Client) : Prop :=
  lastStart s' = lastStart s
  /\ numberRestarts s' = numberRestarts s
  /\ isRestarting s' = isRestarting s.

(** The promises whose callback the client still holds, in the table or in
    the queue. *)
Definition tablePromises (m : CallbackMap.t) : list nat :=
  map promise (JsMap.values (CallbackMap.callbacks m))
  ++ map promise (JsMap.values (CallbackMap.asyncCallbacks m)).

Definition itemPromises (item : RequestItem.t) : list nat :=
  match RequestItem.callbacks item with
  | Some cb => [promise cb]
  | None => []
  end.

Definition heldPromises (s : Client) : list nat :=
  tablePromises (callbacks s) ++ flat_map itemPromises (RequestQueue.queue (requestQueue s)).

(** The calls made to the callback of a promise. *)
Definition callsPromise (p : nat) (e : Effect) : bool :=
  match e with
  | Call_c cb _ | Call_e cb _ => Nat.eqb (promise cb) p
  | _ => false
  end.

(** A promise that [executeImpl] has handed out and whose callback the client
    no longer holds. *)
Definition abandoned (p : nat) (s : Client) : Prop :=
  (p < promises s)%nat /\ ~ In p (heldPromises s).

(** From [s] to [s']: the callbacks held in [s'] were held in [s] or belong to
    promises made since, and so do the callbacks called on the way. *)
Definition accounted (s s' : Client) : Prop :=
  (promises s <= promises s')%nat
  /\ (forall q, In q (heldPromises s') -> In q (heldPromises s) \/ (promises s <= q)%nat)
  /\ exists l,
      effects s' = effects s ++ l
      /\ forall e, In e l -> isCallback e = true ->
                   exists q, callsPromise q e = true
                             /\ (In q (heldPromises s) \/ (promises s <= q)%nat).

(** The calls [startService] lets out. *)
Definition startService_calls (host : Host) : list Effect :=
  [LogInfo "Using tsserver from"]
  ++ (if tsServerPathExists host then [] else [ShowWarningMessage "noServerFound"])
  ++ [Fire "onDidChangeTypeScriptVersion"].

(** [service()] has to start the server: there is no [servicePromise] and no
    [lastError]. *)
Definition startsLazily (s : Client) : bool :=
  match servicePromise s, lastError s with
  | None, None => true
  | _, _ => false
  end.

(** The registration [sendRequest] makes for an entry of the queue. *)
Definition register (item : RequestItem.t) (m : CallbackMap.t) : CallbackMap.t :=
  match RequestItem.callbacks item with
  | Some cb => CallbackMap.add (seqOf item) cb (RequestItem.isAsync item) m
  | None => m
  end.

(** The guard of the drain loop. *)
Definition gateOpen (s : Client) : bool :=
  (CallbackMap.pendingResponses (callbacks s) =? 0)
  && (RequestQueue.length (requestQueue s) >? 0).

(** What concerns a server process: a start of one, a process that has
    started, what is written to it, and its being killed. *)
Definition isServerTraffic (e : Effect) : bool :=
  match e with
  | ChildWrite _ | ChildKill => true
  | LogInfo what => (what =? "Using tsserver from")%string || (what =? "Started TSServer")%string
  | _ => false
  end.

(** ** Notions used by the further properties *)

(** [n] calls of [shift]: what they return, in order, and the queue left. *)
Fixpoint shifts (n : nat) (q : RequestQueue.t) : list (option RequestItem.t) * RequestQueue.t :=
  match n with
  | O => ([], q)
  | S n =>
      let (item, q) := RequestQueue.shift q in
      let (items, q) := shifts n q in
      (item :: items, q)
  end.

Definition pushAll (items : list RequestItem.t) (q : RequestQueue.t) : RequestQueue.t :=
  fold_left (fun q item => RequestQueue.push item q) items q.

(** An entry that closes the gate when it is sent: it registers a callback in
    the synchronous map. *)
Definition blocks (item : RequestItem.t) : bool :=
  match RequestItem.callbacks item with
  | Some _ => negb (RequestItem.isAsync item)
  | None => false
  end.

(** The entries of a queue up to and including the first one that closes the
    gate, and the entries behind it. *)
Fixpoint drained (queue : list RequestItem.t) : list RequestItem.t * list RequestItem.t :=
  match queue with
  | [] => ([], [])
  | item :: rest =>
      if blocks item then ([item], rest)
      else let (sent, left) := drained rest in (item :: sent, left)
  end.

(** The continuation [sendRequest] leaves for an entry when the server need
    not be started. *)
Definition reactionFor (s : Client) (item : RequestItem.t) : Reaction :=
  {| serverRequest := RequestItem.request item;
     waitsOn := match servicePromise s, lastError s with
                | None, Some err => RejectedWith err
                | _, _ => OnServicePromise
                end |}.

Definition registerAll (items : list RequestItem.t) (m : CallbackMap.t) : CallbackMap.t :=
  fold_left (fun m item => register item m) items m.

(** The entry [executeImpl] puts on the queue. *)
Definition requestItemFor (command : string) (args : Payload) (isAsync expectsResult : bool)
  (now : Z) (s : Client) : RequestItem.t :=
  {| RequestItem.request :=
       {| Proto.seq := RequestQueue.sequenceNumber (requestQueue s);
          Proto.command := command;
          Proto.arguments := args |};
     RequestItem.callbacks :=
       if expectsResult then Some {| promise := promises s; start := now |} else None;
     RequestItem.isAsync := isAsync |}.

(** The client after [executeImpl] has put its entry on the queue, before it
    calls [sendNextRequests]. *)
Definition enqueued (command : string) (args : Payload) (isAsync expectsResult : bool)
  (now : Z) (s : Client) : Client :=
  {| servicePromise := servicePromise s;
     lastError := lastError s;
     lastStart := lastStart s;
     numberRestarts := numberRestarts s;
     isRestarting := isRestarting s;
     cancellationPipeName := cancellationPipeName s;
     requestQueue :=
       {| RequestQueue.queue :=
            RequestQueue.queue (requestQueue s)
            ++ [requestItemFor command args isAsync expectsResult now s];
          RequestQueue.sequenceNumber := RequestQueue.sequenceNumber (requestQueue s) + 1 |};
     callbacks := callbacks s;
     _apiVersion := _apiVersion s;
     promises := if expectsResult then S (promises s) else promises s;
     reactions := reactions s;
     effects := effects s |}.

(** How often the callback of promise [p] is called among some effects, and
    how often a list of held promises names it. *)
Definition callCount (p : nat) (l : list Effect) : nat :=
  List.length (filter (callsPromise p) l).

Definition holdCount (p : nat) (l : list nat) : nat :=
  List.length (filter (fun q => Nat.eqb q p) l).

(** The calls made to the callback of [p] so far, and the places where the
    client still holds it. *)
Definition weight (p : nat) (s : Client) : nat :=
  (callCount p (effects s) + holdCount p (heldPromises s))%nat.

(** Every promise handed out has its callback either held in one place and
    not called yet, or held nowhere and called at most once; no other promise
    has a callback. *)
Definition once_inv (s : Client) : Prop :=
  forall p, (weight p s <= if (p <? promises s)%nat then 1 else 0)%nat.

(** From [s] to [s']: no callback gains weight, except that each promise made
    on the way may have its callback held or called once. *)
Definition conserves (s s' : Client) : Prop :=
  (promises s <= promises s')%nat
  /\ forall p,
      (weight p s'
       <= weight p s
          + (if (promises s <=? p)%nat && (p <? promises s')%nat then 1 else 0))%nat.

Definition once_step (s s' : Client) : Prop :=
  seq_inv s -> seq_inv s' /\ conserves s s'.

(** The folder [root] contains the resource. *)
Definition encloses (sep : string) (resource : Uri) (root : string) : bool :=
  JsString.startsWith (fsPath resource) (root ++ sep).

Definition shorter (a b : string) : Prop := (String.length a <= String.length b)%nat.

(** A sort by length, for the examples: insertion from the right, which keeps
    folders of equal length in their order. *)
Fixpoint insertByLength (x : string) (l : list string) : list string :=
  match l with
  | [] => [x]
  | y :: l' =>
      if (String.length x <=? String.length y)%nat then x :: l
      else y :: insertByLength x l'
  end.

Definition sortByLength (l : list string) : list string :=
  fold_right insertByLength [] l.

(** * Part II: properties *)

(** ** Facts about [Map<number, V>] *)

Section JsMapFacts.
Context {V : Type}.
Implicit Types (m : JsMap.t V) (k : Z) (v : V).

Lemma JsMap_get_keys m k : JsMap.get k m <> None <-> In k (JsMap.keys m).
Proof.
  induction m as [|[k' v'] m IH]; simpl.
  - split; [congruence | tauto].
  - destruct (Z.eqb_spec k' k) as [->|Hne].
    + split; [auto | discriminate].
    + rewrite IH. split; [auto | intros [H|H]; [contradiction | exact H]].
Qed.

Lemma JsMap_has_keys m k : JsMap.has k m = true <-> In k (JsMap.keys m).
Proof.
  rewrite <- JsMap_get_keys. unfold JsMap.has.
  destruct (JsMap.get k m); split; congruence.
Qed.

Lemma JsMap_has_false m k : JsMap.has k m = false <-> ~ In k (JsMap.keys m).
Proof.
  rewrite <- JsMap_has_keys. destruct (JsMap.has k m); split; congruence.
Qed.

Lemma JsMap_get_None m k : JsMap.get k m = None <-> ~ In k (JsMap.keys m).
Proof.
  rewrite <- JsMap_get_keys. destruct (JsMap.get k m); split; try congruence.
  intros H. exfalso. apply H. discriminate.
Qed.

Lemma JsMap_get_delete_same m k : JsMap.get k (snd (JsMap.delete k m)) = None.
Proof.
  simpl. induction m as [|[k' v'] m IH]; simpl; [reflexivity|].
  destruct (Z.eqb_spec k' k) as [->|Hne]; simpl; [exact IH|].
  destruct (Z.eqb_spec k' k); [contradiction | exact IH].
Qed.

Lemma JsMap_get_delete_other m k k' :
  k' <> k -> JsMap.get k' (snd (JsMap.delete k m)) = JsMap.get k' m.
Proof.
  intros Hne. simpl. induction m as [|[k0 v0] m IH]; simpl; [reflexivity|].
  destruct (Z.eqb_spec k0 k) as [->|Hk]; simpl.
  - destruct (Z.eqb_spec k k'); [congruence | exact IH].
  - destruct (Z.eqb_spec k0 k'); [reflexivity | exact IH].
Qed.

Lemma JsMap_keys_delete m k k' :
  In k' (JsMap.keys (snd (JsMap.delete k m))) <-> k' <> k /\ In k' (JsMap.keys m).
Proof.
  rewrite <- !JsMap_get_keys. destruct (Z.eq_dec k' k) as [->|Hne].
  - rewrite JsMap_get_delete_same. split; [congruence | tauto].
  - rewrite JsMap_get_delete_other by assumption. tauto.
Qed.

Lemma JsMap_delete_absent m k : JsMap.has k m = false -> snd (JsMap.delete k m) = m.
Proof.
  rewrite JsMap_has_false. simpl.
  induction m as [|[k' v'] m IH]; simpl; intros H; [reflexivity|].
  destruct (Z.eqb_spec k' k) as [->|Hne]; simpl.
  - exfalso. apply H. now left.
  - f_equal. apply IH. intros Hin. apply H. now right.
Qed.

Lemma JsMap_delete_sublist m k :
  (List.length (snd (JsMap.delete k m)) <= List.length m)%nat.
Proof. simpl. apply filter_length_le. Qed.

Lemma JsMap_delete_present_shrinks m k :
  JsMap.has k m = true ->
  (List.length (snd (JsMap.delete k m)) < List.length m)%nat.
Proof.
  rewrite JsMap_has_keys. simpl.
  induction m as [|[k' v'] m IH]; simpl; intros H; [contradiction|].
  destruct (Z.eqb_spec k' k) as [->|Hne]; simpl.
  - pose proof (filter_length_le (fun e : Z * V => negb (fst e =? k)) m). lia.
  - destruct H as [H|H]; [contradiction|]. specialize (IH H). lia.
Qed.

Lemma JsMap_keys_overwrite m k v : JsMap.keys (JsMap.overwrite k v m) = JsMap.keys m.
Proof.
  unfold JsMap.keys, JsMap.overwrite. rewrite map_map. apply map_ext_in.
  intros [k' v'] _. simpl. destruct (Z.eqb_spec k' k); simpl; congruence.
Qed.

Lemma JsMap_keys_set_fresh m k v :
  ~ In k (JsMap.keys m) -> JsMap.keys (JsMap.set k v m) = JsMap.keys m ++ [k].
Proof.
  intros H. unfold JsMap.set. apply JsMap_has_false in H. rewrite H.
  unfold JsMap.keys. now rewrite map_app.
Qed.

Lemma JsMap_keys_set m k v k' :
  In k' (JsMap.keys (JsMap.set k v m)) <-> k' = k \/ In k' (JsMap.keys m).
Proof.
  unfold JsMap.set. destruct (JsMap.has k m) eqn:Hhas.
  - rewrite JsMap_keys_overwrite. apply JsMap_has_keys in Hhas.
    split; [auto | intros [->|H]; assumption].
  - unfold JsMap.keys. rewrite map_app, in_app_iff. simpl. intuition congruence.
Qed.

Lemma JsMap_get_app_fresh m k v : JsMap.get k m = None -> JsMap.get k (m ++ [(k, v)]) = Some v.
Proof.
  induction m as [|[k' v'] m IH]; simpl; intros H.
  - now rewrite Z.eqb_refl.
  - destruct (k' =? k); [discriminate | auto].
Qed.

Lemma JsMap_get_set_same m k v : JsMap.get k (JsMap.set k v m) = Some v.
Proof.
  unfold JsMap.set, JsMap.has. destruct (JsMap.get k m) eqn:Hget.
  - induction m as [|[k' v'] m IH]; simpl in *; [discriminate|].
    destruct (Z.eqb_spec k' k) as [->|Hne]; simpl.
    + now rewrite Z.eqb_refl.
    + destruct (Z.eqb_spec k' k); [contradiction | auto].
  - now apply JsMap_get_app_fresh.
Qed.

Lemma JsMap_get_set_other m k v k' :
  k' <> k -> JsMap.get k' (JsMap.set k v m) = JsMap.get k' m.
Proof.
  intros Hne. unfold JsMap.set. destruct (JsMap.has k m).
  - induction m as [|[k0 v0] m IH]; simpl; [reflexivity|].
    destruct (Z.eqb_spec k0 k) as [->|Hk]; simpl.
    + destruct (Z.eqb_spec k k'); [congruence | exact IH].
    + destruct (Z.eqb_spec k0 k'); [reflexivity | exact IH].
  - induction m as [|[k0 v0] m IH]; simpl.
    + destruct (Z.eqb_spec k k'); [congruence | reflexivity].
    + destruct (k0 =? k'); [reflexivity | exact IH].
Qed.

Lemma JsMap_NoDup_delete m k :
  NoDup (JsMap.keys m) -> NoDup (JsMap.keys (snd (JsMap.delete k m))).
Proof.
  simpl. induction m as [|[k' v'] m IH]; simpl; intros H; [constructor|].
  inversion H as [|? ? Hnotin Hnodup]; subst.
  destruct (k' =? k); simpl; [auto|].
  constructor; [|auto].
  intros Hin. apply Hnotin.
  pose proof (JsMap_keys_delete m k k') as Hk. simpl in Hk. now apply Hk in Hin.
Qed.

Lemma JsMap_NoDup_set_fresh m k v :
  ~ In k (JsMap.keys m) -> NoDup (JsMap.keys m) -> NoDup (JsMap.keys (JsMap.set k v m)).
Proof.
  intros Hfresh Hnodup. rewrite JsMap_keys_set_fresh by assumption.
  apply NoDup_app; [assumption | repeat constructor; simpl; tauto |].
  intros x Hx [->|[]]. contradiction.
Qed.

End JsMapFacts.

(** ** [CallbackMap] *)

(** [destroy] rejects every callback that is registered, the synchronous ones
    first, each as often as it is registered, and all with the reason given;
    it empties the synchronous map and zeroes the counter. *)
Lemma destroy_spec (e : Value) (m : CallbackMap.t) :
  fst (CallbackMap.destroy e m)
  = map (fun callback => Call_e callback e)
      (JsMap.values (CallbackMap.callbacks m) ++ JsMap.values (CallbackMap.asyncCallbacks m))
  /\ CallbackMap.callbacks (snd (CallbackMap.destroy e m)) = []
  /\ CallbackMap.asyncCallbacks (snd (CallbackMap.destroy e m)) = CallbackMap.asyncCallbacks m
  /\ CallbackMap.pendingResponses (snd (CallbackMap.destroy e m)) = 0.
Proof. simpl. rewrite map_app. auto. Qed.

(** C3, where the code departs from it: after [destroy] the asynchronous map
    still holds its callbacks, so a callback that was just rejected can be
    fetched, and rejected, again. *)
Theorem destroy_keeps_asyncCallbacks :
  let cb := {| promise := 0; start := 0 |} in
  let m := CallbackMap.add 7 cb true CallbackMap.new in
  CallbackMap.destroy (VError ServiceDied) m
  = ([Call_e cb (VError ServiceDied)],
     {| CallbackMap.callbacks := [];
        CallbackMap.asyncCallbacks := [(7, cb)];
        CallbackMap.pendingResponses := 0 |})
  /\ fst (CallbackMap.fetch 7 (snd (CallbackMap.destroy (VError ServiceDied) m))) = Some cb.
Proof. split; reflexivity. Qed.

Lemma fetch_counter (seq : Z) (m : CallbackMap.t) :
  CallbackMap.pendingResponses (snd (CallbackMap.fetch seq m))
  = if JsMap.has seq (CallbackMap.callbacks m)
    then CallbackMap.pendingResponses m - 1
    else CallbackMap.pendingResponses m.
Proof.
  unfold CallbackMap.fetch, CallbackMap.delete. simpl.
  destruct (JsMap.has seq (CallbackMap.callbacks m)); reflexivity.
Qed.

Lemma fetch_callbacks (seq : Z) (m : CallbackMap.t) :
  CallbackMap.callbacks (snd (CallbackMap.fetch seq m))
  = snd (JsMap.delete seq (CallbackMap.callbacks m)).
Proof.
  unfold CallbackMap.fetch, CallbackMap.delete. simpl.
  destruct (JsMap.has seq (CallbackMap.callbacks m)); reflexivity.
Qed.

Lemma fetch_asyncCallbacks (seq : Z) (m : CallbackMap.t) :
  CallbackMap.asyncCallbacks (snd (CallbackMap.fetch seq m))
  = if JsMap.has seq (CallbackMap.callbacks m)
    then CallbackMap.asyncCallbacks m
    else snd (JsMap.delete seq (CallbackMap.asyncCallbacks m)).
Proof.
  unfold CallbackMap.fetch, CallbackMap.delete. simpl.
  destruct (JsMap.has seq (CallbackMap.callbacks m)); reflexivity.
Qed.

Lemma fetch_absent (seq : Z) (m : CallbackMap.t) :
  fst (CallbackMap.fetch seq m) = None -> snd (CallbackMap.fetch seq m) = m.
Proof.
  unfold CallbackMap.fetch, CallbackMap.delete. simpl.
  destruct (JsMap.get seq (CallbackMap.callbacks m)) eqn:Hs; [discriminate|].
  intros Ha.
  assert (Hs' : JsMap.has seq (CallbackMap.callbacks m) = false)
    by (unfold JsMap.has; now rewrite Hs).
  assert (Ha' : JsMap.has seq (CallbackMap.asyncCallbacks m) = false)
    by (unfold JsMap.has; now rewrite Ha).
  rewrite Hs'.
  pose proof (JsMap_delete_absent _ _ Hs') as Es.
  pose proof (JsMap_delete_absent _ _ Ha') as Ea. simpl in Es, Ea.
  rewrite Es, Ea. now destruct m.
Qed.

(** C7: [fetch] returns the callback registered for [seq] and removes it, a
    second [fetch] of the same [seq] returns nothing, no other registration is
    touched, and the counter goes down by one exactly when the entry removed
    was in the synchronous map.  A [seq] has at most one callback (the
    invariant of the data model, kept by the client: [reachable_seq_inv]). *)
Theorem fetch_removes_once (m : CallbackMap.t) (seq : Z)
  (Honce : ~ (In seq (JsMap.keys (CallbackMap.callbacks m))
              /\ In seq (JsMap.keys (CallbackMap.asyncCallbacks m)))) :
  let callback := fst (CallbackMap.fetch seq m) in
  let m' := snd (CallbackMap.fetch seq m) in
  (forall c, JsMap.get seq (CallbackMap.callbacks m) = Some c
             \/ JsMap.get seq (CallbackMap.asyncCallbacks m) = Some c ->
             callback = Some c)
  /\ (JsMap.get seq (CallbackMap.callbacks m) = None ->
      JsMap.get seq (CallbackMap.asyncCallbacks m) = None ->
      callback = None /\ m' = m)
  /\ JsMap.get seq (CallbackMap.callbacks m') = None
  /\ JsMap.get seq (CallbackMap.asyncCallbacks m') = None
  /\ fst (CallbackMap.fetch seq m') = None
  /\ (forall k, k <> seq ->
        JsMap.get k (CallbackMap.callbacks m') = JsMap.get k (CallbackMap.callbacks m)
        /\ JsMap.get k (CallbackMap.asyncCallbacks m')
           = JsMap.get k (CallbackMap.asyncCallbacks m))
  /\ (In seq (JsMap.keys (CallbackMap.callbacks m)) ->
      CallbackMap.pendingResponses m' = CallbackMap.pendingResponses m - 1)
  /\ (~ In seq (JsMap.keys (CallbackMap.callbacks m)) ->
      CallbackMap.pendingResponses m' = CallbackMap.pendingResponses m).
Proof.
  intros callback m'.
  assert (Hsync : JsMap.get seq (CallbackMap.callbacks m') = None).
  { unfold m'. rewrite fetch_callbacks. apply JsMap_get_delete_same. }
  assert (Hasync : JsMap.get seq (CallbackMap.asyncCallbacks m') = None).
  { unfold m'. rewrite fetch_asyncCallbacks.
    destruct (JsMap.has seq (CallbackMap.callbacks m)) eqn:Hhas.
    - apply JsMap_get_None. intros Hin. apply Honce. split; [|exact Hin].
      now apply JsMap_has_keys.
    - apply JsMap_get_delete_same. }
  split; [|split; [|split; [|split; [|split; [|split; [|split]]]]]].
  - intros c [Hc|Hc]; unfold callback; simpl.
    + now rewrite Hc.
    + destruct (JsMap.get seq (CallbackMap.callbacks m)) as [c'|] eqn:Hc'; [|exact Hc].
      exfalso. apply Honce. split; apply JsMap_get_keys; congruence.
  - intros Hs Ha. unfold callback, m'. split.
    + simpl. now rewrite Hs, Ha.
    + apply fetch_absent. simpl. now rewrite Hs, Ha.
  - exact Hsync.
  - exact Hasync.
  - simpl. now rewrite Hsync, Hasync.
  - intros k Hk. unfold m'. rewrite fetch_callbacks, fetch_asyncCallbacks. split.
    + now apply JsMap_get_delete_other.
    + destruct (JsMap.has seq (CallbackMap.callbacks m)); [reflexivity|].
      now apply JsMap_get_delete_other.
  - intros Hin. unfold m'. rewrite fetch_counter.
    apply JsMap_has_keys in Hin. now rewrite Hin.
  - intros Hnin. unfold m'. rewrite fetch_counter.
    apply JsMap_has_false in Hnin. now rewrite Hnin.
Qed.

Lemma fetch_removes_once_witness :
  let cb := {| promise := 0; start := 0 |} in
  let m := CallbackMap.add 3 cb false CallbackMap.new in
  fst (CallbackMap.fetch 3 m) = Some cb
  /\ fst (CallbackMap.fetch 3 (snd (CallbackMap.fetch 3 m))) = None
  /\ CallbackMap.pendingResponses (snd (CallbackMap.fetch 3 m)) = 0.
Proof.
  intros cb m.
  assert (Honce : ~ (In 3 (JsMap.keys (CallbackMap.callbacks m))
                     /\ In 3 (JsMap.keys (CallbackMap.asyncCallbacks m)))).
  { simpl. tauto. }
  pose proof (fetch_removes_once m 3 Honce) as H. cbv zeta in H.
  destruct H as (Hreg & _ & _ & _ & Hagain & _ & Hdec & _).
  split; [|split].
  - apply Hreg. left. reflexivity.
  - exact Hagain.
  - rewrite Hdec; [reflexivity | simpl; auto].
Defined.

(** ** [RequestQueue] *)

(** The scan removes the first entry with the given [seq], and only that one. *)
Lemma splice_seq_app (seq : Z) (before after : list RequestItem.t) (item : RequestItem.t) :
  seqOf item = seq ->
  (forall x, In x before -> seqOf x <> seq) ->
  RequestQueue.splice_seq seq (before ++ item :: after) = Some (before ++ after).
Proof.
  intros Hitem. induction before as [|b before IH]; intros Hbefore; simpl.
  - fold (seqOf item). rewrite Hitem, Z.eqb_refl. reflexivity.
  - fold (seqOf b). destruct (Z.eqb_spec (seqOf b) seq) as [Heq|Hne].
    + exfalso. apply (Hbefore b); [now left | exact Heq].
    + rewrite IH; [reflexivity|]. intros x Hx. apply Hbefore. now right.
Qed.

Lemma splice_seq_inv (seq : Z) (l l' : list RequestItem.t) :
  RequestQueue.splice_seq seq l = Some l' ->
  exists before item after,
    l = before ++ item :: after
    /\ seqOf item = seq
    /\ (forall x, In x before -> seqOf x <> seq)
    /\ l' = before ++ after.
Proof.
  revert l'. induction l as [|x l IH]; intros l'; simpl; [discriminate|].
  fold (seqOf x). destruct (Z.eqb_spec (seqOf x) seq) as [Heq|Hne].
  - intros [= <-]. exists [], x, l. simpl.
    split; [reflexivity | split; [exact Heq | split; [intros ? [] | reflexivity]]].
  - destruct (RequestQueue.splice_seq seq l) as [rest|]; [|discriminate].
    intros [= <-]. destruct (IH rest eq_refl) as (before & item & after & -> & Hseq & Hbefore & ->).
    exists (x :: before), item, after. simpl.
    split; [reflexivity | split; [exact Hseq | split; [|reflexivity]]].
    intros y [<-|Hy]; auto.
Qed.

Lemma splice_seq_None (seq : Z) (l : list RequestItem.t) :
  RequestQueue.splice_seq seq l = None <-> ~ In seq (map seqOf l).
Proof.
  induction l as [|x l IH]; simpl.
  - tauto.
  - fold (seqOf x). destruct (Z.eqb_spec (seqOf x) seq) as [Heq|Hne].
    + split; [discriminate | intros H; exfalso; apply H; now left].
    + destruct (RequestQueue.splice_seq seq l).
      * split; [discriminate|]. intros H. exfalso.
        assert (Hn : ~ In seq (map seqOf l)) by tauto.
        apply IH in Hn. discriminate.
      * split; [|reflexivity]. intros _ [H|H]; [contradiction|].
        now apply (proj1 IH).
Qed.

(** [tryCancelPendingRequest] reports whether an entry was found, and never
    touches the counter. *)
Lemma tryCancelPendingRequest_found (seq : Z) (q : RequestQueue.t) :
  fst (RequestQueue.tryCancelPendingRequest seq q) = true
  <-> In seq (map seqOf (RequestQueue.queue q)).
Proof.
  unfold RequestQueue.tryCancelPendingRequest.
  destruct (RequestQueue.splice_seq seq (RequestQueue.queue q)) eqn:H; simpl.
  - split; [|reflexivity]. intros _.
    destruct (in_dec Z.eq_dec seq (map seqOf (RequestQueue.queue q))) as [Hin|Hnin]; [exact Hin|].
    apply splice_seq_None in Hnin. congruence.
  - apply splice_seq_None in H. split; [discriminate | contradiction].
Qed.

Lemma queue_calls_keep_counter (q : RequestQueue.t) :
  (forall item, RequestQueue.sequenceNumber (RequestQueue.push item q)
                = RequestQueue.sequenceNumber q)
  /\ RequestQueue.sequenceNumber (snd (RequestQueue.shift q)) = RequestQueue.sequenceNumber q
  /\ (forall seq, RequestQueue.sequenceNumber (snd (RequestQueue.tryCancelPendingRequest seq q))
                  = RequestQueue.sequenceNumber q).
Proof.
  repeat split.
  - unfold RequestQueue.shift. now destruct (RequestQueue.queue q).
  - intros seq. unfold RequestQueue.tryCancelPendingRequest.
    now destruct (RequestQueue.splice_seq seq (RequestQueue.queue q)).
Qed.

Lemma allocated_consecutive (calls : list QueueCall) (q : RequestQueue.t) :
  allocated calls q
  = map (fun i => RequestQueue.sequenceNumber q + Z.of_nat i) (seq 0 (creations calls)).
Proof.
  revert q. induction calls as [|c calls IH]; intros q; [reflexivity|].
  destruct (queue_calls_keep_counter q) as (Hpush & Hshift & Hcancel).
  destruct c as [item| |k|command args]; simpl.
  - now rewrite IH, Hpush.
  - now rewrite IH, Hshift.
  - now rewrite IH, Hcancel.
  - rewrite IH. simpl. f_equal; [lia|].
    rewrite <- seq_shift, map_map. apply map_ext. intros i. lia.
Qed.

Lemma consecutive_sorted (base : Z) (n start : nat) :
  StronglySorted Z.lt (map (fun i => base + Z.of_nat i) (seq start n)).
Proof.
  revert start. induction n as [|n IH]; intros start; simpl; constructor; [apply IH|].
  apply Forall_forall. intros x Hx. apply in_map_iff in Hx.
  destruct Hx as (i & <- & Hi). apply in_seq in Hi. lia.
Qed.

Lemma sorted_NoDup (l : list Z) : StronglySorted Z.lt l -> NoDup l.
Proof.
  induction 1 as [|x l Hs IH Hall]; constructor; [|exact IH].
  intros Hin. rewrite Forall_forall in Hall. specialize (Hall x Hin). lia.
Qed.

(** What holds of one [RequestQueue]: [createRequest] returns the counter and
    advances it by one; over any calls on one queue the numbers handed out are
    consecutive, hence strictly increasing and distinct, and start at 0 on a
    new queue; [startService] installs a new queue, so the next request made
    after it has [seq] 0. *)
Lemma createRequest_sequence :
  (forall q command args,
      Proto.seq (fst (RequestQueue.createRequest command args q))
      = RequestQueue.sequenceNumber q
      /\ RequestQueue.sequenceNumber (snd (RequestQueue.createRequest command args q))
         = RequestQueue.sequenceNumber q + 1)
  /\ (forall calls q,
         allocated calls q
         = map (fun i => RequestQueue.sequenceNumber q + Z.of_nat i) (seq 0 (creations calls))
         /\ StronglySorted Z.lt (allocated calls q)
         /\ NoDup (allocated calls q))
  /\ (forall calls,
         allocated calls RequestQueue.new = map Z.of_nat (seq 0 (creations calls)))
  /\ (forall host s, requestQueue (startService host s) = RequestQueue.new)
  /\ (forall host s command args,
         Proto.seq (fst (RequestQueue.createRequest command args
                           (requestQueue (startService host s)))) = 0).
Proof.
  assert (Hstart : forall host s, requestQueue (startService host s) = RequestQueue.new).
  { intros host s. unfold startService, getTsServerArgs.
    destruct (tsServerPathExists host); simpl;
      match goal with |- context [if ?b then _ else _] => destruct b end; reflexivity. }
  repeat split.
  - apply allocated_consecutive.
  - rewrite allocated_consecutive. apply consecutive_sorted.
  - apply sorted_NoDup. rewrite allocated_consecutive. apply consecutive_sorted.
  - intros calls. rewrite allocated_consecutive. apply map_ext. intros i. simpl. lia.
  - exact Hstart.
  - intros host s command args. now rewrite Hstart.
Qed.

(** ** The client: what each method changes *)

(** The methods are unfolded where a proof says so, not by [simpl]. *)
Arguments CallbackMap.fetch : simpl never.
Arguments CallbackMap.destroy : simpl never.
Arguments RequestQueue.tryCancelPendingRequest : simpl never.
Arguments startService : simpl never.
Arguments sendRequest : simpl never.
Arguments sendNextRequests : simpl never.
Arguments executeImpl : simpl never.
Arguments serviceExited : simpl never.

Ltac destruct_if :=
  match goal with
  | |- context [if ?b then _ else _] => destruct b eqn:?
  end.

(** Reduce the field updates of a client that is given by its fields. *)
Ltac updates :=
  cbv beta iota zeta delta
    [with_servicePromise with_lastError with_lastStart with_numberRestarts
     with_isRestarting with_cancellationPipeName with_requestQueue with_callbacks
     with_apiVersion with_promises with_reactions emit resetClientVersion
     servicePromise lastError lastStart numberRestarts isRestarting
     cancellationPipeName requestQueue callbacks _apiVersion promises reactions
     effects fst snd].

Lemma startService_state (host : Host) (s : Client) :
  startService host s
  = {| servicePromise := Some ServicePromise;
       lastError := None;
       lastStart := lastStart s;
       numberRestarts := numberRestarts s;
       isRestarting := isRestarting s;
       cancellationPipeName :=
         (if API.gte (pickedVersion host) API.v222
          then Some (tempFile host) else cancellationPipeName s);
       requestQueue := RequestQueue.new;
       callbacks := CallbackMap.new;
       _apiVersion := pickedVersion host;
       promises := promises s;
       reactions := reactions s;
       effects := effects s ++ startService_calls host |}.
Proof.
  destruct s as [sp le ls nr ir cpn rq cbs av pr re ef].
  unfold startService, getTsServerArgs, startService_calls.
  destruct (tsServerPathExists host); updates;
    destruct (API.gte (pickedVersion host) API.v222); updates;
    rewrite <- ?app_assoc; reflexivity.
Qed.

Lemma startService_calls_drain (host : Host) :
  forallb isDrainEffect (startService_calls host) = true.
Proof. unfold startService_calls. destruct (tsServerPathExists host); reflexivity. Qed.

Lemma sendRequest_state (host : Host) (item : RequestItem.t) (s : Client) :
  sendRequest host item s
  = {| servicePromise :=
         (if startsLazily s then Some ServicePromise else servicePromise s);
       lastError := lastError s;
       lastStart := lastStart s;
       numberRestarts := numberRestarts s;
       isRestarting := isRestarting s;
       cancellationPipeName :=
         (if startsLazily s && API.gte (pickedVersion host) API.v222
          then Some (tempFile host) else cancellationPipeName s);
       requestQueue := (if startsLazily s then RequestQueue.new else requestQueue s);
       callbacks :=
         (if startsLazily s then CallbackMap.new else register item (callbacks s));
       _apiVersion := (if startsLazily s then pickedVersion host else _apiVersion s);
       promises := promises s;
       reactions :=
         reactions s
         ++ [{| serverRequest := RequestItem.request item;
                waitsOn := match servicePromise s, lastError s with
                           | None, Some err => RejectedWith err
                           | _, _ => OnServicePromise
                           end |}];
       effects :=
         effects s
         ++ [TraceRequest (RequestItem.request item)
               (match RequestItem.callbacks item with Some _ => true | None => false end)
               (RequestQueue.length (requestQueue s))]
         ++ (if startsLazily s then startService_calls host else []) |}.
Proof.
  unfold sendRequest, service, startsLazily, register, seqOf.
  destruct s as [sp le ls nr ir cpn rq cbs av pr re ef].
  destruct sp as [[]|], le as [err|]; updates;
    destruct (RequestItem.callbacks item) as [cb|]; updates;
    rewrite ?startService_state; updates;
    rewrite <- ?app_assoc, ?app_nil_r; try reflexivity.
Qed.

(** *** The drain loop *)

Lemma gateOpen_queue (s : Client) :
  gateOpen s = true ->
  CallbackMap.pendingResponses (callbacks s) = 0
  /\ exists item rest, RequestQueue.queue (requestQueue s) = item :: rest.
Proof.
  unfold gateOpen, RequestQueue.length. intros H.
  apply andb_prop in H. destruct H as [Hp Hq]. split; [lia|].
  destruct (RequestQueue.queue (requestQueue s)) as [|item rest]; [discriminate|eauto].
Qed.

Lemma loop_step (host : Host) (fuel : nat) (s : Client) :
  sendNextRequests_loop host (S fuel) s
  = if gateOpen s
    then match RequestQueue.queue (requestQueue s) with
         | item :: rest => sendNextRequests_loop host fuel (sendHead host item rest s)
         | [] => s
         end
    else s.
Proof.
  simpl. fold (gateOpen s). destruct (gateOpen s) eqn:Hopen; [|reflexivity].
  destruct (gateOpen_queue s Hopen) as (_ & item & rest & Hq).
  unfold RequestQueue.shift, sendHead. rewrite Hq. reflexivity.
Qed.

Lemma sendHead_queue_length (host : Host) (item : RequestItem.t) (rest : list RequestItem.t)
  (s : Client) :
  (List.length (RequestQueue.queue (requestQueue (sendHead host item rest s)))
   <= List.length rest)%nat.
Proof.
  unfold sendHead. rewrite sendRequest_state. simpl.
  destruct (startsLazily _); simpl; lia.
Qed.

(** Any fuel that covers the queue gives the same result. *)
Lemma sendNextRequests_loop_enough (host : Host) (fuel1 fuel2 : nat) (s : Client) :
  (List.length (RequestQueue.queue (requestQueue s)) <= fuel1)%nat ->
  (List.length (RequestQueue.queue (requestQueue s)) <= fuel2)%nat ->
  sendNextRequests_loop host fuel1 s = sendNextRequests_loop host fuel2 s.
Proof.
  revert fuel2 s. induction fuel1 as [|fuel1 IH]; intros fuel2 s H1 H2.
  - destruct fuel2 as [|fuel2]; [reflexivity|]. rewrite loop_step. simpl.
    destruct (RequestQueue.queue (requestQueue s)); [|simpl in H1; lia].
    now destruct (gateOpen s).
  - destruct fuel2 as [|fuel2].
    + rewrite loop_step. simpl.
      destruct (RequestQueue.queue (requestQueue s)); [|simpl in H2; lia].
      now destruct (gateOpen s).
    + rewrite !loop_step. destruct (gateOpen s); [|reflexivity].
      destruct (RequestQueue.queue (requestQueue s)) as [|item rest] eqn:Hq; [reflexivity|].
      pose proof (sendHead_queue_length host item rest s). simpl in H1, H2.
      apply IH; lia.
Qed.

(** The [while] loop, unfolded once. *)
Lemma sendNextRequests_unfold (host : Host) (s : Client) :
  sendNextRequests host s
  = if gateOpen s
    then match RequestQueue.queue (requestQueue s) with
         | item :: rest => sendNextRequests host (sendHead host item rest s)
         | [] => s
         end
    else s.
Proof.
  unfold sendNextRequests at 1.
  destruct (RequestQueue.queue (requestQueue s)) as [|item rest] eqn:Hq.
  - simpl. now destruct (gateOpen s).
  - simpl List.length. rewrite loop_step, Hq. destruct (gateOpen s); [|reflexivity].
    unfold sendNextRequests. apply sendNextRequests_loop_enough; [|lia].
    apply sendHead_queue_length.
Qed.

(** The loop ends, and it ends with the gate closed. *)
Lemma sendNextRequests_closes (host : Host) (s : Client) :
  gateOpen (sendNextRequests host s) = false.
Proof.
  unfold sendNextRequests.
  remember (List.length (RequestQueue.queue (requestQueue s))) as fuel eqn:Hfuel.
  assert (Hle : (List.length (RequestQueue.queue (requestQueue s)) <= fuel)%nat) by lia.
  clear Hfuel. revert s Hle. induction fuel as [|fuel IH]; intros s Hle.
  - simpl. unfold gateOpen, RequestQueue.length.
    destruct (RequestQueue.queue (requestQueue s)); [|simpl in Hle; lia].
    simpl. apply andb_false_r.
  - rewrite loop_step. destruct (gateOpen s) eqn:Hopen; [|exact Hopen].
    destruct (gateOpen_queue s Hopen) as (_ & item & rest & Hq). rewrite Hq.
    apply IH. pose proof (sendHead_queue_length host item rest s).
    rewrite Hq in Hle. simpl in Hle. lia.
Qed.

(** An invariant of the loop body is an invariant of the loop. *)
Lemma sendNextRequests_ind (host : Host) (P : Client -> Prop) :
  (forall s item rest,
      gateOpen s = true ->
      RequestQueue.queue (requestQueue s) = item :: rest ->
      P s -> P (sendHead host item rest s)) ->
  forall s, P s -> P (sendNextRequests host s).
Proof.
  intros Hbody s. unfold sendNextRequests.
  generalize (List.length (RequestQueue.queue (requestQueue s))) as fuel.
  intros fuel. revert s. induction fuel as [|fuel IH]; intros s HP; [exact HP|].
  rewrite loop_step. destruct (gateOpen s) eqn:Hopen; [|exact HP].
  destruct (RequestQueue.queue (requestQueue s)) as [|item rest] eqn:Hq; [exact HP|].
  apply IH. now apply Hbody.
Qed.

(** ** The gate: at most one synchronous request in flight *)

Lemma gate_table_new : gate_table CallbackMap.new.
Proof. split; simpl; lia. Qed.

Lemma gate_table_fetch (seq : Z) (m : CallbackMap.t) :
  gate_table m -> gate_table (snd (CallbackMap.fetch seq m)).
Proof.
  unfold gate_table. intros [Hcount Hone].
  rewrite fetch_counter, fetch_callbacks.
  destruct (JsMap.has seq (CallbackMap.callbacks m)) eqn:Hhas.
  - pose proof (JsMap_delete_present_shrinks _ _ Hhas). lia.
  - rewrite (JsMap_delete_absent _ _ Hhas). auto.
Qed.

Lemma gate_table_register (item : RequestItem.t) (m : CallbackMap.t) :
  gate_table m -> CallbackMap.pendingResponses m = 0 -> gate_table (register item m).
Proof.
  unfold gate_table, register, CallbackMap.add. intros [Hcount Hone] Hzero.
  destruct (RequestItem.callbacks item) as [cb|]; [|auto].
  destruct (RequestItem.isAsync item); simpl; [auto|].
  destruct (CallbackMap.callbacks m) as [|e l]; simpl in *; [lia|lia].
Qed.

(** What [register] does to the counter: only a synchronous entry with a
    callback moves it. *)
Lemma register_counter (item : RequestItem.t) (m : CallbackMap.t) :
  CallbackMap.pendingResponses (register item m)
  = match RequestItem.callbacks item, RequestItem.isAsync item with
    | Some _, false => CallbackMap.pendingResponses m + 1
    | _, _ => CallbackMap.pendingResponses m
    end.
Proof.
  unfold register, CallbackMap.add.
  destruct (RequestItem.callbacks item), (RequestItem.isAsync item); reflexivity.
Qed.

Lemma gate_sendHead (host : Host) (item : RequestItem.t) (rest : list RequestItem.t)
  (s : Client) :
  gateOpen s = true -> gate_inv s -> gate_inv (sendHead host item rest s).
Proof.
  intros Hopen Hinv. destruct (gateOpen_queue s Hopen) as (Hzero & _).
  unfold gate_inv, sendHead. rewrite sendRequest_state. simpl.
  destruct (startsLazily _); [apply gate_table_new|].
  now apply gate_table_register.
Qed.

Lemma gate_sendNextRequests (host : Host) (s : Client) :
  gate_inv s -> gate_inv (sendNextRequests host s).
Proof.
  apply sendNextRequests_ind. intros s' item rest Hopen _. now apply gate_sendHead.
Qed.

Lemma gate_executeImpl (host : Host) (command : string) (args : Payload)
  (isAsync expectsResult : bool) (now : Z) (s : Client) :
  gate_inv s -> gate_inv (executeImpl host command args isAsync expectsResult now s).
Proof.
  intros Hinv. unfold executeImpl. simpl.
  destruct expectsResult; apply gate_sendNextRequests; exact Hinv.
Qed.

Lemma emit_nil (s : Client) : emit [] s = s.
Proof. destruct s. unfold emit. simpl. now rewrite app_nil_r. Qed.

Lemma tryCancelPendingRequest_not_found (seq : Z) (q : RequestQueue.t) :
  fst (RequestQueue.tryCancelPendingRequest seq q) = false ->
  snd (RequestQueue.tryCancelPendingRequest seq q) = q.
Proof.
  unfold RequestQueue.tryCancelPendingRequest.
  destruct (RequestQueue.splice_seq seq (RequestQueue.queue q)); [discriminate | reflexivity].
Qed.

Lemma with_requestQueue_same (s : Client) : with_requestQueue (requestQueue s) s = s.
Proof. now destruct s. Qed.

Lemma tryCancelRequest_state (seq : Z) (s : Client) :
  tryCancelRequest seq s
  = (fst (RequestQueue.tryCancelPendingRequest seq (requestQueue s))
     || (match sideChannel s with Some _ => true | None => false end),
     emit (match fst (CallbackMap.fetch seq (callbacks s)) with
           | Some p => [Call_e p (VError (CancelledRequest seq))]
           | None => []
           end)
       (with_callbacks (snd (CallbackMap.fetch seq (callbacks s)))
          (emit (cancelCalls seq s)
             (with_requestQueue
                (snd (RequestQueue.tryCancelPendingRequest seq (requestQueue s))) s)))).
Proof.
  unfold tryCancelRequest, cancelCalls, sideChannel.
  pose proof (tryCancelPendingRequest_not_found seq (requestQueue s)) as Hsame.
  destruct (RequestQueue.tryCancelPendingRequest seq (requestQueue s)) as [cancelled q].
  cbn [fst snd] in *.
  destruct cancelled; cbn [orb].
  - cbn [callbacks emit with_requestQueue].
    destruct (CallbackMap.fetch seq (callbacks s)) as [[p|] table]; cbn [fst snd].
    + reflexivity.
    + now rewrite emit_nil.
  - rewrite (Hsame eq_refl), with_requestQueue_same.
    destruct (cancellationPipeName s) as [pipe|];
      [destruct (API.gte (_apiVersion s) API.v222 && truthy pipe)|];
      cbn [callbacks emit];
      destruct (CallbackMap.fetch seq (callbacks s)) as [[p|] table];
      cbn [fst snd]; rewrite ?emit_nil; reflexivity.
Qed.

Lemma tryCancelRequest_callbacks (seq : Z) (s : Client) :
  callbacks (snd (tryCancelRequest seq s)) = snd (CallbackMap.fetch seq (callbacks s)).
Proof. rewrite tryCancelRequest_state. reflexivity. Qed.

Lemma gate_tryCancelRequest (seq : Z) (s : Client) :
  gate_inv s -> gate_inv (snd (tryCancelRequest seq s)).
Proof.
  unfold gate_inv. rewrite tryCancelRequest_callbacks. apply gate_table_fetch.
Qed.

Lemma dispatchEvent_callbacks (ev : Proto.Event) (s : Client) :
  callbacks (dispatchEvent ev s)
  = match ev with
    | Proto.RequestCompleted seq => snd (CallbackMap.fetch seq (callbacks s))
    | Proto.Named _ _ => callbacks s
    end.
Proof.
  destruct ev as [seq|name has_body]; [|reflexivity].
  unfold dispatchEvent.
  destruct (CallbackMap.fetch seq (callbacks s)) as [[p|] table]; reflexivity.
Qed.

Lemma gate_dispatchMessage (host : Host) (msg : Proto.Message) (s : Client) :
  gate_inv s -> gate_inv (snd (dispatchMessage host msg s)).
Proof.
  intros Hinv. unfold dispatchMessage.
  destruct msg as [response|ev|type]; cbn [snd].
  - destruct (CallbackMap.fetch (Proto.request_seq response) (callbacks s))
      as [p table] eqn:Hfetch.
    cbn [snd]. apply gate_sendNextRequests. unfold gate_inv.
    assert (Htable : table = snd (CallbackMap.fetch (Proto.request_seq response) (callbacks s)))
      by now rewrite Hfetch.
    destruct p; cbn [callbacks emit with_callbacks]; rewrite Htable;
      apply gate_table_fetch; exact Hinv.
  - apply gate_sendNextRequests. unfold gate_inv. rewrite dispatchEvent_callbacks.
    destruct ev; [apply gate_table_fetch|]; exact Hinv.
  - now apply gate_sendNextRequests.
Qed.

Lemma serviceExited_callbacks (host : Host) (restart : bool) (now : Z) (s : Client) :
  callbacks (serviceExited host restart now s) = CallbackMap.new.
Proof.
  unfold serviceExited.
  destruct (CallbackMap.destroy (VError ServiceDied) (callbacks (with_servicePromise None s)))
    as [calls table].
  destruct restart; cbn [negb]; [|reflexivity].
  repeat destruct_if; rewrite ?startService_state; reflexivity.
Qed.

Lemma gate_serviceStarted (host : Host) (resendModels : bool) (s : Client) :
  gate_inv s -> gate_inv (serviceStarted host resendModels s).
Proof.
  intros Hinv. unfold serviceStarted, setCompilerOptionsForInferredProjects,
    executeWithoutWaitingForResponse.
  assert (H1 : gate_inv (executeImpl host "configure" "hostInfo: vscode" false false 0 s))
    by now apply gate_executeImpl.
  destruct (negb (API.gte _ API.v206)), resendModels; try exact H1;
    try (apply gate_executeImpl; exact H1);
    unfold gate_inv; cbn [callbacks emit]; try exact H1; apply gate_executeImpl; exact H1.
Qed.

Lemma gate_runReaction (i : nat) (o : Settlement) (s : Client) :
  gate_inv s -> gate_inv (runReaction i o s).
Proof.
  intros Hinv. unfold runReaction. destruct (nth_error (reactions s) i) as [r|]; [|exact Hinv].
  assert (Hrej : forall rq err s', gate_inv s' -> gate_inv (sendRequest_onRejected rq err s')).
  { intros rq err s' H. unfold sendRequest_onRejected, gate_inv.
    destruct (CallbackMap.fetch (Proto.seq rq) (callbacks s')) as [cb table] eqn:Hf.
    assert (Htable : table = snd (CallbackMap.fetch (Proto.seq rq) (callbacks s')))
      by now rewrite Hf.
    destruct cb; cbn [callbacks emit with_callbacks]; rewrite Htable;
      apply gate_table_fetch; exact H. }
  destruct (waitsOn r), o; try (apply Hrej; exact Hinv). exact Hinv.
Qed.

Lemma gate_turn (host : Host) (t : Turn) (s : Client) :
  gate_inv s -> gate_inv (turn host t s).
Proof.
  intros Hinv. destruct t; cbn [turn].
  - now apply gate_executeImpl.
  - now apply gate_executeImpl.
  - now apply gate_executeImpl.
  - now apply gate_tryCancelRequest.
  - unfold ensureServiceStarted. destruct (servicePromise s); [exact Hinv|].
    unfold gate_inv. rewrite startService_state. apply gate_table_new.
  - unfold restartTsServer, restartTsServer_start. destruct (servicePromise s); [exact Hinv|].
    unfold gate_inv. rewrite startService_state. apply gate_table_new.
  - exact Hinv.
  - unfold restartTsServer_start, gate_inv. rewrite startService_state. apply gate_table_new.
  - unfold fork_callback. destruct err; [exact Hinv|]. now apply gate_serviceStarted.
  - unfold handle_onError, gate_inv. rewrite serviceExited_callbacks. apply gate_table_new.
  - unfold handle_onExit, gate_inv. cbn [callbacks with_isRestarting].
    rewrite serviceExited_callbacks. apply gate_table_new.
  - unfold Reader_deliver, reader_onMessage.
    pose proof (gate_dispatchMessage host msg s Hinv) as H.
    destruct (dispatchMessage host msg s) as [[|err] s']; exact H.
  - now apply gate_runReaction.
Qed.

Lemma gate_run (turns : list (Host * Turn)) (s : Client) :
  gate_inv s -> gate_inv (run turns s).
Proof.
  revert s. induction turns as [|[host t] turns IH]; intros s Hinv; [exact Hinv|].
  simpl. apply IH. now apply gate_turn.
Qed.

Lemma reachable_gate_inv (s : Client) : reachable s -> gate_inv s.
Proof.
  intros (now & turns & ->). apply gate_run. apply gate_table_new.
Qed.

(** C1 as stated fails in its last part: an asynchronous request issued while a
    synchronous one is in flight stays in the queue; the drain loop does not
    send it. *)
Lemma async_waits_behind_sync :
  let s := run [(host291, EnsureServiceStarted);
                (host291, Execute "quickinfo" "a" 10);
                (host291, ExecuteAsync "geterr" "b" 11)] (new 0) in
  syncInFlight s = [0]
  /\ CallbackMap.pendingResponses (callbacks s) = 1
  /\ RequestQueue.queue (requestQueue s)
     = [{| RequestItem.request :=
             {| Proto.seq := 1; Proto.command := "geterr"; Proto.arguments := "b" |};
           RequestItem.callbacks := Some {| promise := 1; start := 11 |};
           RequestItem.isAsync := true |}]
  /\ map serverRequest (reactions s)
     = [{| Proto.seq := 0; Proto.command := "quickinfo"; Proto.arguments := "a" |}]
  /\ sendNextRequests host291 s = s.
Proof. vm_compute. repeat split; reflexivity. Qed.

Lemma sendNextRequests_gate_closed (host : Host) (s : Client) :
  gateOpen s = false -> sendNextRequests host s = s.
Proof. intros H. rewrite sendNextRequests_unfold, H. reflexivity. Qed.

(** C1, amended: in every reachable state the counter is the number of
    synchronous requests in flight and is at most one; the drain loop takes the
    next entry only while the counter is zero and the queue is not empty, and
    stops with that guard false; an asynchronous entry or one without callback
    leaves the counter at zero, so the loop goes on after it; and while the
    counter is not zero the loop sends nothing, whatever the kind of the
    entries that wait. *)
Theorem drain_gate (host : Host) (s : Client) (Hreach : reachable s) :
  CallbackMap.pendingResponses (callbacks s) = Z.of_nat (List.length (syncInFlight s))
  /\ (List.length (syncInFlight s) <= 1)%nat
  /\ sendNextRequests host s
     = (if (CallbackMap.pendingResponses (callbacks s) =? 0)
           && (RequestQueue.length (requestQueue s) >? 0)
        then match RequestQueue.queue (requestQueue s) with
             | item :: rest => sendNextRequests host (sendHead host item rest s)
             | [] => s
             end
        else s)
  /\ gateOpen (sendNextRequests host s) = false
  /\ (forall item rest,
         gateOpen s = true ->
         RequestItem.callbacks item = None \/ RequestItem.isAsync item = true ->
         CallbackMap.pendingResponses (callbacks (sendHead host item rest s)) = 0)
  /\ (forall seq cb m,
         CallbackMap.pendingResponses (CallbackMap.add seq cb true m)
         = CallbackMap.pendingResponses m)
  /\ (CallbackMap.pendingResponses (callbacks s) <> 0 -> sendNextRequests host s = s).
Proof.
  pose proof (reachable_gate_inv s Hreach) as [Hcount Hone].
  unfold syncInFlight, JsMap.keys. rewrite length_map.
  split; [exact Hcount|]. split; [exact Hone|].
  split; [apply sendNextRequests_unfold|].
  split; [apply sendNextRequests_closes|].
  split; [|split].
  - intros item rest Hopen Hkind. destruct (gateOpen_queue s Hopen) as [Hzero _].
    unfold sendHead. rewrite sendRequest_state. simpl.
    destruct (startsLazily _); [reflexivity|]. rewrite register_counter.
    destruct Hkind as [-> | ->]; [exact Hzero|].
    destruct (RequestItem.callbacks item); exact Hzero.
  - reflexivity.
  - intros Hbusy. apply sendNextRequests_gate_closed. unfold gateOpen.
    destruct (Z.eqb_spec (CallbackMap.pendingResponses (callbacks s)) 0); [contradiction|].
    reflexivity.
Qed.

Lemma drain_gate_witness :
  let s := run [(host291, EnsureServiceStarted);
                (host291, Execute "quickinfo" "a" 10);
                (host291, ExecuteAsync "geterr" "b" 11)] (new 0) in
  reachable s
  /\ (List.length (syncInFlight s) <= 1)%nat
  /\ sendNextRequests host291 s = s.
Proof.
  intros s.
  assert (Hreach : reachable s).
  { exists 0, [(host291, EnsureServiceStarted);
               (host291, Execute "quickinfo" "a" 10);
               (host291, ExecuteAsync "geterr" "b" 11)]. reflexivity. }
  destruct (drain_gate host291 s Hreach) as (_ & Hone & _ & _ & _ & _ & Hbusy).
  split; [exact Hreach|]. split; [exact Hone|].
  apply Hbusy. vm_compute. discriminate.
Defined.

(** ** Cancellation *)


(** ** What the drain loop lets out, and what it leaves alone *)

Lemma sendNextRequests_effects (host : Host) (s : Client) :
  exists l, effects (sendNextRequests host s) = effects s ++ l
            /\ forallb isDrainEffect l = true.
Proof.
  apply (sendNextRequests_ind host
           (fun s' => exists l, effects s' = effects s ++ l /\ forallb isDrainEffect l = true)).
  - intros s' item rest _ _ (l & Hl & Hdrain).
    unfold sendHead. rewrite sendRequest_state. simpl. rewrite Hl.
    eexists. rewrite <- app_assoc. split; [reflexivity|].
    rewrite !forallb_app, Hdrain. simpl.
    destruct (startsLazily _); [apply startService_calls_drain | reflexivity].
  - exists []. now rewrite app_nil_r.
Qed.

Lemma filter_none {A : Type} (f g : A -> bool) (l : list A) :
  (forall x, g x = true -> f x = false) -> forallb g l = true -> filter f l = [].
Proof.
  intros Hfg. induction l as [|x l IH]; simpl; [reflexivity|].
  intros H. apply andb_prop in H. destruct H as [Hx Hl].
  rewrite (Hfg x Hx). auto.
Qed.

Lemma sendNextRequests_filter (host : Host) (f : Effect -> bool) (s : Client) :
  (forall e, isDrainEffect e = true -> f e = false) ->
  filter f (effects (sendNextRequests host s)) = filter f (effects s).
Proof.
  intros Hf. destruct (sendNextRequests_effects host s) as (l & -> & Hl).
  rewrite filter_app, (filter_none f isDrainEffect l Hf Hl). apply app_nil_r.
Qed.

Lemma drain_no_callback (e : Effect) : isDrainEffect e = true -> isCallback e = false.
Proof. destruct e; simpl; congruence. Qed.

Lemma drain_no_restart_notice (e : Effect) :
  isDrainEffect e = true -> isRestartNotice e = false.
Proof.
  destruct e; simpl; try congruence.
  intros H. apply String.eqb_eq in H. subst. reflexivity.
Qed.

Lemma sendNextRequests_supervision (host : Host) (s : Client) :
  sameSupervision s (sendNextRequests host s).
Proof.
  apply (sendNextRequests_ind host (sameSupervision s)).
  - intros s' item rest _ _ H. unfold sameSupervision, sendHead in *.
    rewrite sendRequest_state. exact H.
  - repeat split.
Qed.

(** ** Dispatch of incoming messages *)

Lemma with_callbacks_same (s : Client) : with_callbacks (callbacks s) s = s.
Proof. now destruct s. Qed.

(** C5 as stated fails in what the callback receives: the promise resolves
    with the response message itself, not with its body, and a failed response
    rejects with the response message itself. *)
Lemma response_passes_whole_message :
  let s := run [(host291, EnsureServiceStarted);
                (host291, Execute "quickinfo" "a" 10)] (new 0) in
  let cb := {| promise := 0; start := 10 |} in
  let ok := {| Proto.request_seq := 0; Proto.success := true;
               Proto.body := Some "info"; Proto.message := None |} in
  let failed := {| Proto.request_seq := 0; Proto.success := false;
                   Proto.body := None; Proto.message := Some "no project" |} in
  JsMap.get 0 (CallbackMap.callbacks (callbacks s)) = Some cb
  /\ filter isCallback (effects (snd (dispatchMessage host291 (Proto.IsResponse ok) s)))
     = [Call_c cb (VResponse ok)]
  /\ ~ In (Call_c cb (VPayload "info"))
          (effects (snd (dispatchMessage host291 (Proto.IsResponse ok) s)))
  /\ filter isCallback (effects (snd (dispatchMessage host291 (Proto.IsResponse failed) s)))
     = [Call_e cb (VResponse failed)]
  /\ ~ In (Call_e cb (VPayload "no project"))
          (effects (snd (dispatchMessage host291 (Proto.IsResponse failed) s))).
Proof.
  vm_compute. repeat split; try reflexivity; intros H;
    repeat (destruct H as [H|H]; [discriminate|]); exact H.
Qed.

(** C5, amended: a response whose [request_seq] has a registered callback makes
    exactly one call, to that callback: [c] with the response message when
    [success] holds, [e] with the response message otherwise; the callback is
    taken out of the table before the drain loop runs.  A response without
    registered callback is dropped: the method returns, no callback is called,
    and only the drain loop runs. *)
Theorem response_dispatch (host : Host) (s : Client) (response : Proto.Response) :
  (forall p,
      fst (CallbackMap.fetch (Proto.request_seq response) (callbacks s)) = Some p ->
      dispatchMessage host (Proto.IsResponse response) s
      = (Returned,
         sendNextRequests host
           (emit [TraceResponse response (start p);
                  if Proto.success response
                  then Call_c p (VResponse response)
                  else Call_e p (VResponse response)]
              (with_callbacks
                 (snd (CallbackMap.fetch (Proto.request_seq response) (callbacks s))) s)))
      /\ filter isCallback (effects (snd (dispatchMessage host (Proto.IsResponse response) s)))
         = filter isCallback (effects s)
           ++ [if Proto.success response
               then Call_c p (VResponse response)
               else Call_e p (VResponse response)])
  /\ (fst (CallbackMap.fetch (Proto.request_seq response) (callbacks s)) = None ->
      dispatchMessage host (Proto.IsResponse response) s = (Returned, sendNextRequests host s)
      /\ filter isCallback (effects (snd (dispatchMessage host (Proto.IsResponse response) s)))
         = filter isCallback (effects s)).
Proof.
  split.
  - intros p Hp. unfold dispatchMessage.
    destruct (CallbackMap.fetch (Proto.request_seq response) (callbacks s))
      as [p' table] eqn:Hfetch.
    simpl in Hp. subst p'. simpl. split; [reflexivity|].
    rewrite sendNextRequests_filter by apply drain_no_callback.
    unfold emit, with_callbacks. simpl. rewrite filter_app. simpl.
    now destruct (Proto.success response).
  - intros Hnone. unfold dispatchMessage.
    pose proof (fetch_absent _ _ Hnone) as Hsame.
    destruct (CallbackMap.fetch (Proto.request_seq response) (callbacks s))
      as [p' table] eqn:Hfetch.
    simpl in Hnone, Hsame. subst p' table. simpl.
    rewrite with_callbacks_same. split; [reflexivity|].
    apply sendNextRequests_filter, drain_no_callback.
Qed.

Lemma response_dispatch_witness :
  let s := run [(host291, EnsureServiceStarted);
                (host291, Execute "quickinfo" "a" 10)] (new 0) in
  let ok := {| Proto.request_seq := 0; Proto.success := true;
               Proto.body := Some "info"; Proto.message := None |} in
  let stray := {| Proto.request_seq := 5; Proto.success := true;
                  Proto.body := Some "info"; Proto.message := None |} in
  filter isCallback (effects (snd (dispatchMessage host291 (Proto.IsResponse ok) s)))
  = [Call_c {| promise := 0; start := 10 |} (VResponse ok)]
  /\ dispatchMessage host291 (Proto.IsResponse stray) s = (Returned, sendNextRequests host291 s).
Proof.
  intros s ok stray. split.
  - destruct (response_dispatch host291 s ok) as [Hreg _].
    destruct (Hreg {| promise := 0; start := 10 |} eq_refl) as [_ Hcalls].
    exact Hcalls.
  - destruct (response_dispatch host291 s stray) as [_ Hstray].
    destruct (Hstray eq_refl) as [Hdrop _]. exact Hdrop.
Defined.

(** C9: a message of unknown type throws [Unknown message type ...] out of
    [dispatchMessage]; the [finally] block still runs the drain loop, and that
    is all that happens to the client: no callback is fetched or called.  The
    reader hands the error to its error callback, which logs it. *)
Theorem unknown_message_dropped (host : Host) (type : string) (s : Client) :
  dispatchMessage host (Proto.Unknown type) s
  = (Threw (UnknownMessageType type), sendNextRequests host s)
  /\ Reader_deliver host (Proto.Unknown type) s
     = emit [LogError "ReaderError" (VError (UnknownMessageType type))]
         (sendNextRequests host s)
  /\ filter isCallback (effects (Reader_deliver host (Proto.Unknown type) s))
     = filter isCallback (effects s)
  /\ callbacks (Reader_deliver host (Proto.Unknown type) s)
     = callbacks (sendNextRequests host s)
  /\ gateOpen (Reader_deliver host (Proto.Unknown type) s) = false.
Proof.
  assert (Hd : dispatchMessage host (Proto.Unknown type) s
               = (Threw (UnknownMessageType type), sendNextRequests host s)) by reflexivity.
  assert (Hr : Reader_deliver host (Proto.Unknown type) s
               = emit [LogError "ReaderError" (VError (UnknownMessageType type))]
                   (sendNextRequests host s)).
  { unfold Reader_deliver, reader_onMessage. rewrite Hd. reflexivity. }
  split; [exact Hd|]. split; [exact Hr|]. rewrite Hr. split; [|split].
  - unfold emit. simpl. rewrite filter_app. simpl. rewrite app_nil_r.
    apply sendNextRequests_filter, drain_no_callback.
  - reflexivity.
  - pose proof (sendNextRequests_closes host s) as H. exact H.
Qed.

(** ** The restart policy *)

Lemma executeImpl_filter (host : Host) (f : Effect -> bool) (command : string)
  (args : Payload) (isAsync expectsResult : bool) (now : Z) (s : Client) :
  (forall e, isDrainEffect e = true -> f e = false) ->
  filter f (effects (executeImpl host command args isAsync expectsResult now s))
  = filter f (effects s).
Proof.
  intros Hf. unfold executeImpl. simpl.
  destruct expectsResult; rewrite sendNextRequests_filter by exact Hf; reflexivity.
Qed.

Lemma executeImpl_supervision (host : Host) (command : string) (args : Payload)
  (isAsync expectsResult : bool) (now : Z) (s : Client) :
  sameSupervision s (executeImpl host command args isAsync expectsResult now s).
Proof.
  unfold executeImpl. simpl.
  destruct expectsResult;
    match goal with
    | |- sameSupervision _ (sendNextRequests _ ?s1) =>
        pose proof (sendNextRequests_supervision host s1) as H
    end; exact H.
Qed.

Lemma sameSupervision_trans (s1 s2 s3 : Client) :
  sameSupervision s1 s2 -> sameSupervision s2 s3 -> sameSupervision s1 s3.
Proof. unfold sameSupervision. intuition congruence. Qed.

Lemma serviceStarted_supervision (host : Host) (resendModels : bool) (s : Client) :
  sameSupervision s (serviceStarted host resendModels s).
Proof.
  unfold serviceStarted, setCompilerOptionsForInferredProjects,
    executeWithoutWaitingForResponse.
  pose proof (executeImpl_supervision host "configure" "hostInfo: vscode" false false 0 s) as H1.
  pose proof (executeImpl_supervision host "compilerOptionsForInferredProjects" "options"
                false false 0 (executeImpl host "configure" "hostInfo: vscode" false false 0 s))
    as H2.
  pose proof (sameSupervision_trans _ _ _ H1 H2) as H3.
  destruct (negb (API.gte _ API.v206)), resendModels; assumption.
Qed.

Lemma serviceStarted_restartNotices (host : Host) (resendModels : bool) (s : Client) :
  restartNotices (serviceStarted host resendModels s) = restartNotices s.
Proof.
  unfold restartNotices, serviceStarted, setCompilerOptionsForInferredProjects,
    executeWithoutWaitingForResponse.
  assert (H1 : forall s0 command args,
             filter isRestartNotice (effects (executeImpl host command args false false 0 s0))
             = filter isRestartNotice (effects s0))
    by (intros; apply executeImpl_filter, drain_no_restart_notice).
  destruct (negb (API.gte _ API.v206)), resendModels; simpl;
    rewrite ?filter_app, ?H1; simpl; rewrite ?app_nil_r; reflexivity.
Qed.

Lemma filter_restartNotice_rejections (e : Value) (l : list CallbackItem) :
  filter isRestartNotice (map (fun callback => Call_e callback e) l) = [].
Proof. induction l; simpl; auto. Qed.

(** One unasked exit: what [serviceExited(true)] does to the policy. *)
Lemma serviceExited_restart (host : Host) (now : Z) (s : Client) :
  let s' := serviceExited host true now s in
  let n := numberRestarts s + 1 in
  let elapsed := now - lastStart s in
  (n <= 5 ->
   numberRestarts s' = n /\ lastStart s' = lastStart s
   /\ servicePromise s' = Some ServicePromise
   /\ restartNotices s' = restartNotices s)
  /\ (5 < n ->
      numberRestarts s' = 0
      /\ (elapsed < 10 * 1000 ->
          servicePromise s' = None /\ lastStart s' = now
          /\ restartNotices s'
             = restartNotices s ++ [ShowErrorMessage "serverDiedAfterStart"])
      /\ (10 * 1000 <= elapsed < 60 * 1000 ->
          servicePromise s' = Some ServicePromise /\ lastStart s' = now
          /\ restartNotices s' = restartNotices s ++ [ShowWarningMessage "serverDied"])
      /\ (60 * 1000 <= elapsed ->
          servicePromise s' = Some ServicePromise /\ lastStart s' = lastStart s
          /\ restartNotices s' = restartNotices s)).
Proof.
  destruct s as [sp le ls nr ir cpn rq cbs av pr re ef].
  cbv zeta. unfold serviceExited, restartNotices, CallbackMap.destroy. cbn [negb].
  updates. rewrite !startService_state. updates.
  assert (Hcalls : filter isRestartNotice (startService_calls host) = []).
  { apply (filter_none isRestartNotice isDrainEffect);
      [apply drain_no_restart_notice | apply startService_calls_drain]. }
  rewrite <- map_app.
  assert (Hdied : filter isRestartNotice
                    (ef ++ map (fun callback => Call_e callback (VError ServiceDied))
                             (JsMap.values (CallbackMap.callbacks cbs)
                              ++ JsMap.values (CallbackMap.asyncCallbacks cbs)))
                  = filter isRestartNotice ef).
  { rewrite filter_app, filter_restartNotice_rejections. apply app_nil_r. }
  split.
  - intros Hn. destruct (Z.gtb_spec (nr + 1) 5) as [Hgt|Hle]; [lia|].
    cbn [numberRestarts lastStart servicePromise effects].
    rewrite filter_app, Hcalls, app_nil_r, Hdied. auto.
  - intros Hn. destruct (Z.gtb_spec (nr + 1) 5) as [Hgt|Hle]; [|lia].
    split.
    + destruct (Z.ltb_spec (now - ls) (10 * 1000)); [reflexivity|].
      destruct (Z.ltb_spec (now - ls) (60 * 1000)); reflexivity.
    + split; [|split]; intros Hel.
      * destruct (Z.ltb_spec (now - ls) (10 * 1000)) as [_|Habs]; [|lia].
        cbn [numberRestarts lastStart servicePromise effects].
        rewrite filter_app, Hdied. auto.
      * destruct (Z.ltb_spec (now - ls) (10 * 1000)) as [Habs|_]; [lia|].
        destruct (Z.ltb_spec (now - ls) (60 * 1000)) as [_|Habs]; [|lia].
        cbn [numberRestarts lastStart servicePromise effects].
        rewrite !filter_app, Hcalls, app_nil_r, <- filter_app, Hdied. auto.
      * destruct (Z.ltb_spec (now - ls) (10 * 1000)) as [Habs|_]; [lia|].
        destruct (Z.ltb_spec (now - ls) (60 * 1000)) as [Habs|_]; [lia|].
        cbn [numberRestarts lastStart servicePromise effects].
        rewrite filter_app, Hcalls, app_nil_r, Hdied. auto.
Qed.

Lemma fork_callback_started (host : Host) (resendModels : bool) (now : Z) (s : Client) :
  let s' := fork_callback host None resendModels now s in
  lastStart s' = now
  /\ numberRestarts s' = numberRestarts s
  /\ isRestarting s' = isRestarting s
  /\ restartNotices s' = restartNotices s.
Proof.
  unfold fork_callback. simpl.
  match goal with
  | |- context [serviceStarted host resendModels ?s1] =>
      pose proof (serviceStarted_supervision host resendModels s1) as (H1 & H2 & H3);
      pose proof (serviceStarted_restartNotices host resendModels s1) as H4
  end.
  rewrite H1, H2, H3, H4. unfold restartNotices. simpl.
  rewrite !filter_app. simpl. rewrite !app_nil_r. auto.
Qed.

Lemma handle_onExit_unasked (host : Host) (code : option Z) (now : Z) (s : Client) :
  isRestarting s = false ->
  exists s0,
    handle_onExit host code now s = with_isRestarting false (serviceExited host true now s0)
    /\ numberRestarts s0 = numberRestarts s
    /\ lastStart s0 = lastStart s
    /\ restartNotices s0 = restartNotices s.
Proof.
  intros Hflag. unfold handle_onExit.
  destruct code as [c|].
  - exists (emit [LogError "TSServer exited with code" VUndefined;
                  LogTelemetry "tsserver.exitWithCode"] s).
    cbn [isRestarting emit]. rewrite Hflag. cbn [negb].
    repeat split. unfold restartNotices. cbn [effects emit].
    rewrite filter_app. apply app_nil_r.
  - exists (emit [LogInfo "TSServer exited"] s).
    cbn [isRestarting emit]. rewrite Hflag. cbn [negb].
    repeat split. unfold restartNotices. cbn [effects emit].
    rewrite filter_app. apply app_nil_r.
Qed.

(** One session that starts at [started] and whose process exits, unasked, at
    [exited]. *)
Lemma crash_once (host : Host) (started exited : Z) (s : Client) :
  isRestarting s = false ->
  let s' := crashes host [(started, exited)] s in
  isRestarting s' = false
  /\ (numberRestarts s + 1 <= 5 ->
      numberRestarts s' = numberRestarts s + 1
      /\ servicePromise s' = Some ServicePromise
      /\ restartNotices s' = restartNotices s)
  /\ (5 < numberRestarts s + 1 ->
      exited - started < 10 * 1000 ->
      numberRestarts s' = 0
      /\ servicePromise s' = None
      /\ restartNotices s' = restartNotices s ++ [ShowErrorMessage "serverDiedAfterStart"]).
Proof.
  intros Hrestarting. cbn [crashes].
  destruct (fork_callback_started host true started s) as (Hstart & Hcount & Hflag & Hnotices).
  remember (fork_callback host None true started s) as s1 eqn:Hs1. clear Hs1.
  rewrite Hrestarting in Hflag.
  destruct (handle_onExit_unasked host (Some 1) exited s1 Hflag)
    as (s0 & -> & Hcount0 & Hstart0 & Hnotices0).
  pose proof (serviceExited_restart host exited s0) as Hexit. cbv zeta in Hexit.
  rewrite Hcount0, Hstart0, Hnotices0, Hstart, Hcount, Hnotices in Hexit.
  destruct Hexit as [Hfew Hmany].
  cbv zeta. unfold restartNotices in *.
  cbn [isRestarting numberRestarts servicePromise effects with_isRestarting].
  split; [reflexivity|]. split.
  - intros Hle. destruct (Hfew Hle) as (H1 & _ & H3 & H4). auto.
  - intros Hgt Hsoon. destruct (Hmany Hgt) as (H1 & Hfatal & _).
    destruct (Hfatal Hsoon) as (H2 & _ & H3). auto.
Qed.

Lemma crashes_app (host : Host) (l1 l2 : list (Z * Z)) (s : Client) :
  crashes host (l1 ++ l2) s = crashes host l2 (crashes host l1 s).
Proof.
  revert s. induction l1 as [|[a b] l1 IH]; intros s; [reflexivity|]. simpl. apply IH.
Qed.

Lemma crashes_few (host : Host) (sessions : list (Z * Z)) (s : Client) :
  isRestarting s = false ->
  numberRestarts s + Z.of_nat (List.length sessions) <= 5 ->
  let s' := crashes host sessions s in
  isRestarting s' = false
  /\ numberRestarts s' = numberRestarts s + Z.of_nat (List.length sessions)
  /\ restartNotices s' = restartNotices s.
Proof.
  revert s. induction sessions as [|[a b] sessions IH]; intros s Hflag Hle.
  - cbn [crashes List.length]. repeat split; [exact Hflag | lia].
  - change (crashes host ((a, b) :: sessions) s)
      with (crashes host sessions (crashes host [(a, b)] s)).
    destruct (crash_once host a b s Hflag) as (Hflag1 & Hfew & _).
    cbn [List.length] in Hle. rewrite Nat2Z.inj_succ in Hle.
    destruct Hfew as (Hcount & _ & Hnotices); [lia|].
    destruct (IH (crashes host [(a, b)] s) Hflag1) as (H1 & H2 & H3);
      [rewrite Hcount; lia|].
    cbv zeta. rewrite H2, H3, Hcount, Hnotices. cbn [List.length].
    rewrite Nat2Z.inj_succ.
    repeat split; [exact H1 | lia].
Qed.

(** C4: the restart policy.  An unasked exit adds one to the counter.  Up to
    five, the server is started again without notice.  Above five the counter
    goes back to zero and the time since [lastStart] decides: under 10 seconds
    no restart and the fatal notice, under 60 seconds a restart with the
    warning, otherwise a restart without notice.  Six crashes, each within 10
    seconds of the start of its session, end with the server not restarted. *)
Theorem restart_policy (host : Host) (now : Z) (s : Client) :
  let s' := serviceExited host true now s in
  let n := numberRestarts s + 1 in
  let elapsed := now - lastStart s in
  (n <= 5 ->
   numberRestarts s' = n
   /\ servicePromise s' = Some ServicePromise
   /\ restartNotices s' = restartNotices s)
  /\ (5 < n ->
      numberRestarts s' = 0
      /\ (elapsed < 10 * 1000 ->
          servicePromise s' = None
          /\ restartNotices s'
             = restartNotices s ++ [ShowErrorMessage "serverDiedAfterStart"])
      /\ (10 * 1000 <= elapsed < 60 * 1000 ->
          servicePromise s' = Some ServicePromise
          /\ restartNotices s' = restartNotices s ++ [ShowWarningMessage "serverDied"])
      /\ (60 * 1000 <= elapsed ->
          servicePromise s' = Some ServicePromise
          /\ restartNotices s' = restartNotices s))
  /\ (forall sessions,
         numberRestarts s = 0 ->
         isRestarting s = false ->
         List.length sessions = 6%nat ->
         (forall started exited, In (started, exited) sessions -> exited - started < 10 * 1000) ->
         servicePromise (crashes host sessions s) = None
         /\ numberRestarts (crashes host sessions s) = 0
         /\ restartNotices (crashes host sessions s)
            = restartNotices s ++ [ShowErrorMessage "serverDiedAfterStart"]).
Proof.
  cbv zeta. destruct (serviceExited_restart host now s) as [Hfew Hmany]. cbv zeta in Hfew, Hmany.
  split; [|split].
  - intros Hn. destruct (Hfew Hn) as (H1 & _ & H3 & H4). auto.
  - intros Hn. destruct (Hmany Hn) as (H0 & Hfatal & Hwarn & Hquiet).
    split; [exact H0|]. split; [|split]; intros Hel.
    + destruct (Hfatal Hel) as (H1 & _ & H2). auto.
    + destruct (Hwarn Hel) as (H1 & _ & H2). auto.
    + destruct (Hquiet Hel) as (H1 & _ & H2). auto.
  - intros sessions Hzero Hflag Hlen Hsoon.
    destruct sessions as [|x1 [|x2 [|x3 [|x4 [|x5 [|[a b] [|]]]]]]]; try discriminate.
    change [x1; x2; x3; x4; x5; (a, b)] with ([x1; x2; x3; x4; x5] ++ [(a, b)]).
    rewrite crashes_app.
    destruct (crashes_few host [x1; x2; x3; x4; x5] s Hflag) as (Hflag5 & Hcount5 & Hnotices5);
      [rewrite Hzero; simpl; lia|].
    cbv zeta in Hflag5, Hcount5, Hnotices5.
    destruct (crash_once host a b _ Hflag5) as (_ & _ & Hsixth).
    destruct Hsixth as (H1 & H2 & H3).
    + rewrite Hcount5, Hzero. simpl. lia.
    + apply Hsoon. simpl. auto 10.
    + rewrite H3, Hnotices5. auto.
Qed.

Lemma restart_policy_witness :
  let sessions := [(100, 900); (1000, 1900); (2000, 2900);
                   (3000, 3900); (4000, 4900); (5000, 5900)] in
  let s := ensureServiceStarted host291 (new 0) in
  servicePromise (crashes host291 sessions s) = None
  /\ restartNotices (crashes host291 sessions s) = [ShowErrorMessage "serverDiedAfterStart"]
  /\ numberRestarts (serviceExited host291 true 50 s) = 1.
Proof.
  intros sessions s.
  destruct (restart_policy host291 50 s) as (Hfew & _ & Hsix). cbv zeta in Hfew.
  assert (Hsoon : forall started exited,
             In (started, exited) sessions -> exited - started < 10 * 1000).
  { intros started exited Hin. simpl in Hin.
    repeat (destruct Hin as [[= <- <-]|Hin]; [lia|]). contradiction. }
  destruct (Hsix sessions eq_refl eq_refl eq_refl Hsoon) as (H1 & _ & H3).
  destruct Hfew as (H4 & _); [simpl; lia|].
  split; [exact H1|]. split; [exact H3 | exact H4].
Defined.

(** ** Sequence numbers are used once *)

Lemma sorted_remove (l1 l2 : list Z) (x : Z) :
  StronglySorted Z.lt (l1 ++ x :: l2) -> StronglySorted Z.lt (l1 ++ l2).
Proof.
  induction l1 as [|y l1 IH]; simpl; intros H.
  - now inversion H.
  - inversion H as [|? ? Hs Hall]; subst. constructor; [auto|].
    rewrite Forall_app in *. destruct Hall as [H1 H2]. split; [exact H1|].
    now inversion H2.
Qed.

Lemma sorted_snoc (l : list Z) (x : Z) :
  StronglySorted Z.lt l -> (forall k, In k l -> k < x) -> StronglySorted Z.lt (l ++ [x]).
Proof.
  induction 1 as [|y l Hs IH Hall]; simpl; intros Hlt.
  - repeat constructor.
  - constructor; [apply IH; auto|].
    rewrite Forall_app. split; [exact Hall|]. repeat constructor. auto.
Qed.

Lemma seq_ok_new : seq_ok RequestQueue.new CallbackMap.new.
Proof.
  unfold seq_ok. simpl. repeat split; try constructor; try tauto; intros k [[]|[]].
Qed.

Lemma seq_ok_no_callbacks (q : RequestQueue.t) (m : CallbackMap.t) :
  seq_ok q m -> seq_ok q CallbackMap.new.
Proof.
  unfold seq_ok. simpl. intros (Hsorted & Hbelow & _).
  repeat split; try constructor; try tauto; intros k [[]|[]].
Qed.

Lemma fetch_keys (seq : Z) (m : CallbackMap.t) (k : Z) :
  (In k (JsMap.keys (CallbackMap.callbacks (snd (CallbackMap.fetch seq m)))) ->
   In k (JsMap.keys (CallbackMap.callbacks m)))
  /\ (In k (JsMap.keys (CallbackMap.asyncCallbacks (snd (CallbackMap.fetch seq m)))) ->
      In k (JsMap.keys (CallbackMap.asyncCallbacks m))).
Proof.
  rewrite fetch_callbacks, fetch_asyncCallbacks. split.
  - intros H. now apply JsMap_keys_delete in H.
  - destruct (JsMap.has seq (CallbackMap.callbacks m)); [auto|].
    intros H. now apply JsMap_keys_delete in H.
Qed.

Lemma seq_ok_fetch (seq : Z) (q : RequestQueue.t) (m : CallbackMap.t) :
  seq_ok q m -> seq_ok q (snd (CallbackMap.fetch seq m)).
Proof.
  unfold seq_ok. intros (Hsorted & Hbelow & Hflight & Hdisjoint & Hsync & Hasync).
  split; [exact Hsorted|]. split; [exact Hbelow|]. split; [|split; [|split]].
  - intros k [Hk|Hk]; apply Hflight; [left|right]; now apply (fetch_keys seq m k).
  - intros k H1 H2. apply (Hdisjoint k); now apply (fetch_keys seq m k).
  - rewrite fetch_callbacks. now apply JsMap_NoDup_delete.
  - rewrite fetch_asyncCallbacks. destruct (JsMap.has seq (CallbackMap.callbacks m)); [auto|].
    now apply JsMap_NoDup_delete.
Qed.

Lemma seq_ok_cancel (seq : Z) (q : RequestQueue.t) (m : CallbackMap.t) :
  seq_ok q m -> seq_ok (snd (RequestQueue.tryCancelPendingRequest seq q)) m.
Proof.
  unfold RequestQueue.tryCancelPendingRequest.
  destruct (RequestQueue.splice_seq seq (RequestQueue.queue q)) as [l|] eqn:Hsplice;
    [|auto].
  apply splice_seq_inv in Hsplice.
  destruct Hsplice as (before & item & after & Hq & _ & _ & ->).
  unfold seq_ok. simpl. rewrite Hq, !map_app. simpl.
  intros (Hsorted & Hbelow & Hflight & Hrest).
  assert (Hsub : forall k, In k (map seqOf before ++ map seqOf after) ->
                           In k (map seqOf before ++ seqOf item :: map seqOf after)).
  { intros k. rewrite !in_app_iff. simpl. tauto. }
  split; [now apply sorted_remove in Hsorted|]. split; [auto|]. split; [|exact Hrest].
  intros k Hk. destruct (Hflight k Hk) as [H1 H2]. split; auto.
Qed.

Lemma seqOf_item (r : Proto.Request) (cb : option CallbackItem) (async : bool) :
  seqOf {| RequestItem.request := r; RequestItem.callbacks := cb; RequestItem.isAsync := async |}
  = Proto.seq r.
Proof. reflexivity. Qed.

Lemma seq_ok_enqueue (command : string) (args : Payload) (cb : option CallbackItem)
  (async : bool) (q : RequestQueue.t) (m : CallbackMap.t) :
  seq_ok q m ->
  seq_ok (RequestQueue.push
            {| RequestItem.request := fst (RequestQueue.createRequest command args q);
               RequestItem.callbacks := cb;
               RequestItem.isAsync := async |}
            (snd (RequestQueue.createRequest command args q))) m.
Proof.
  unfold seq_ok. simpl. rewrite map_app. simpl. rewrite seqOf_item. simpl.
  intros (Hsorted & Hbelow & Hflight & Hrest).
  split; [now apply sorted_snoc|]. split; [|split; [|exact Hrest]].
  - intros k Hk. apply in_app_iff in Hk. destruct Hk as [Hk|[<-|[]]]; [|lia].
    specialize (Hbelow k Hk). lia.
  - intros k Hk. destruct (Hflight k Hk) as [H1 H2]. split; [lia|].
    intros k' Hk'. apply in_app_iff in Hk'. destruct Hk' as [Hk'|[<-|[]]]; auto.
Qed.

Lemma seq_ok_send (item : RequestItem.t) (rest : list RequestItem.t) (q : RequestQueue.t)
  (m : CallbackMap.t) :
  RequestQueue.queue q = item :: rest ->
  seq_ok q m ->
  seq_ok {| RequestQueue.queue := rest;
            RequestQueue.sequenceNumber := RequestQueue.sequenceNumber q |}
    (register item m).
Proof.
  unfold seq_ok. simpl. intros -> (Hsorted & Hbelow & Hflight & Hdisjoint & Hsync & Hasync).
  simpl in *. inversion Hsorted as [|? ? Hsorted' Hall]; subst.
  rewrite Forall_forall in Hall.
  assert (Hfresh : ~ In (seqOf item) (JsMap.keys (CallbackMap.callbacks m))
                   /\ ~ In (seqOf item) (JsMap.keys (CallbackMap.asyncCallbacks m))).
  { split; intros Hin;
      [destruct (Hflight _ (or_introl Hin)) as [_ H] | destruct (Hflight _ (or_intror Hin)) as [_ H]];
      specialize (H (seqOf item) (or_introl eq_refl)); lia. }
  destruct Hfresh as [Hfs Hfa].
  assert (Hold : forall k, In k (JsMap.keys (CallbackMap.callbacks m))
                           \/ In k (JsMap.keys (CallbackMap.asyncCallbacks m)) ->
                           k < RequestQueue.sequenceNumber q
                           /\ forall k', In k' (map seqOf rest) -> k < k').
  { intros k Hk. destruct (Hflight k Hk) as [H1 H2]. split; auto. }
  assert (Hnew : seqOf item < RequestQueue.sequenceNumber q
                 /\ forall k', In k' (map seqOf rest) -> seqOf item < k').
  { split; [apply Hbelow; now left | intros k' Hk'; now apply Hall]. }
  split; [exact Hsorted'|]. split; [auto|].
  unfold register. destruct (RequestItem.callbacks item) as [cb|].
  2:{ split; [exact Hold|]. split; [exact Hdisjoint|]. split; assumption. }
  unfold CallbackMap.add. destruct (RequestItem.isAsync item); simpl.
  - split; [|split; [|split]].
    + intros k [Hk|Hk]; [apply Hold; now left|].
      apply JsMap_keys_set in Hk. destruct Hk as [->|Hk]; [exact Hnew | apply Hold; now right].
    + intros k H1 H2. apply JsMap_keys_set in H2. destruct H2 as [->|H2]; eauto.
    + exact Hsync.
    + now apply JsMap_NoDup_set_fresh.
  - split; [|split; [|split]].
    + intros k [Hk|Hk]; [|apply Hold; now right].
      apply JsMap_keys_set in Hk. destruct Hk as [->|Hk]; [exact Hnew | apply Hold; now left].
    + intros k H1 H2. apply JsMap_keys_set in H1. destruct H1 as [->|H1]; eauto.
    + now apply JsMap_NoDup_set_fresh.
    + exact Hasync.
Qed.

Lemma seq_inv_sendHead (host : Host) (item : RequestItem.t) (rest : list RequestItem.t)
  (s : Client) :
  RequestQueue.queue (requestQueue s) = item :: rest ->
  seq_inv s -> seq_inv (sendHead host item rest s).
Proof.
  intros Hq Hinv. unfold seq_inv, sendHead. rewrite sendRequest_state.
  cbn [requestQueue callbacks with_requestQueue].
  destruct (startsLazily _); [apply seq_ok_new|].
  now apply seq_ok_send.
Qed.

Lemma seq_inv_sendNextRequests (host : Host) (s : Client) :
  seq_inv s -> seq_inv (sendNextRequests host s).
Proof.
  apply sendNextRequests_ind. intros s' item rest _ Hq. now apply seq_inv_sendHead.
Qed.

Lemma seq_inv_executeImpl (host : Host) (command : string) (args : Payload)
  (isAsync expectsResult : bool) (now : Z) (s : Client) :
  seq_inv s -> seq_inv (executeImpl host command args isAsync expectsResult now s).
Proof.
  intros Hinv. unfold executeImpl. cbn [RequestQueue.createRequest].
  destruct expectsResult; apply seq_inv_sendNextRequests; unfold seq_inv;
    cbn [requestQueue callbacks with_requestQueue with_promises];
    match goal with
    | |- seq_ok (RequestQueue.push {| RequestItem.callbacks := ?cb |} _) _ =>
        exact (seq_ok_enqueue command args cb isAsync _ _ Hinv)
    end.
Qed.

Lemma seq_inv_tryCancelRequest (seq : Z) (s : Client) :
  seq_inv s -> seq_inv (snd (tryCancelRequest seq s)).
Proof.
  intros Hinv. rewrite tryCancelRequest_state. unfold seq_inv.
  cbn [snd requestQueue callbacks emit with_callbacks with_requestQueue].
  now apply seq_ok_fetch, seq_ok_cancel.
Qed.

Lemma seq_inv_dispatchEvent (ev : Proto.Event) (s : Client) :
  seq_inv s -> seq_inv (dispatchEvent ev s).
Proof.
  intros Hinv. destruct ev as [seq|name has_body]; [|exact Hinv].
  unfold dispatchEvent.
  destruct (CallbackMap.fetch seq (callbacks s)) as [p table] eqn:Hfetch.
  assert (Htable : table = snd (CallbackMap.fetch seq (callbacks s))) by now rewrite Hfetch.
  unfold seq_inv. destruct p; cbn [requestQueue callbacks emit with_callbacks];
    rewrite Htable; now apply seq_ok_fetch.
Qed.

Lemma seq_inv_dispatchMessage (host : Host) (msg : Proto.Message) (s : Client) :
  seq_inv s -> seq_inv (snd (dispatchMessage host msg s)).
Proof.
  intros Hinv. unfold dispatchMessage.
  destruct msg as [response|ev|type]; cbn [snd].
  - destruct (CallbackMap.fetch (Proto.request_seq response) (callbacks s))
      as [p table] eqn:Hfetch.
    assert (Htable : table = snd (CallbackMap.fetch (Proto.request_seq response) (callbacks s)))
      by now rewrite Hfetch.
    cbn [snd]. apply seq_inv_sendNextRequests. unfold seq_inv.
    destruct p; cbn [requestQueue callbacks emit with_callbacks];
      rewrite Htable; now apply seq_ok_fetch.
  - apply seq_inv_sendNextRequests. now apply seq_inv_dispatchEvent.
  - now apply seq_inv_sendNextRequests.
Qed.

Lemma serviceExited_requestQueue (host : Host) (restart : bool) (now : Z) (s : Client) :
  requestQueue (serviceExited host restart now s) = requestQueue s
  \/ requestQueue (serviceExited host restart now s) = RequestQueue.new.
Proof.
  unfold serviceExited.
  destruct (CallbackMap.destroy (VError ServiceDied) (callbacks (with_servicePromise None s)))
    as [calls table].
  destruct restart; cbn [negb]; [|left; reflexivity].
  repeat destruct_if; rewrite ?startService_state; auto.
Qed.

Lemma seq_inv_serviceExited (host : Host) (restart : bool) (now : Z) (s : Client) :
  seq_inv s -> seq_inv (serviceExited host restart now s).
Proof.
  intros Hinv. unfold seq_inv. rewrite serviceExited_callbacks.
  destruct (serviceExited_requestQueue host restart now s) as [-> | ->].
  - now apply seq_ok_no_callbacks with (m := callbacks s).
  - apply seq_ok_new.
Qed.

Lemma seq_inv_startService (host : Host) (s : Client) : seq_inv (startService host s).
Proof. unfold seq_inv. rewrite startService_state. apply seq_ok_new. Qed.

Lemma seq_inv_serviceStarted (host : Host) (resendModels : bool) (s : Client) :
  seq_inv s -> seq_inv (serviceStarted host resendModels s).
Proof.
  intros Hinv. unfold serviceStarted, setCompilerOptionsForInferredProjects,
    executeWithoutWaitingForResponse.
  assert (H1 : seq_inv (executeImpl host "configure" "hostInfo: vscode" false false 0 s))
    by now apply seq_inv_executeImpl.
  destruct (negb (API.gte _ API.v206)), resendModels; try exact H1;
    try (apply seq_inv_executeImpl; exact H1);
    unfold seq_inv; cbn [requestQueue callbacks emit]; try exact H1;
    apply seq_inv_executeImpl; exact H1.
Qed.

Lemma seq_inv_runReaction (i : nat) (o : Settlement) (s : Client) :
  seq_inv s -> seq_inv (runReaction i o s).
Proof.
  intros Hinv. unfold runReaction. destruct (nth_error (reactions s) i) as [r|]; [|exact Hinv].
  assert (Hrej : forall rq err s', seq_inv s' -> seq_inv (sendRequest_onRejected rq err s')).
  { intros rq err s' H. unfold sendRequest_onRejected.
    destruct (CallbackMap.fetch (Proto.seq rq) (callbacks s')) as [cb table] eqn:Hf.
    assert (Htable : table = snd (CallbackMap.fetch (Proto.seq rq) (callbacks s')))
      by now rewrite Hf.
    unfold seq_inv. destruct cb; cbn [requestQueue callbacks emit with_callbacks];
      rewrite Htable; now apply seq_ok_fetch. }
  destruct (waitsOn r), o; try (apply Hrej; exact Hinv). exact Hinv.
Qed.

Lemma seq_inv_turn (host : Host) (t : Turn) (s : Client) :
  seq_inv s -> seq_inv (turn host t s).
Proof.
  intros Hinv. destruct t; cbn [turn].
  - now apply seq_inv_executeImpl.
  - now apply seq_inv_executeImpl.
  - now apply seq_inv_executeImpl.
  - now apply seq_inv_tryCancelRequest.
  - unfold ensureServiceStarted. destruct (servicePromise s); [exact Hinv|].
    apply seq_inv_startService.
  - unfold restartTsServer, restartTsServer_start. destruct (servicePromise s); [exact Hinv|].
    apply seq_inv_startService.
  - exact Hinv.
  - apply seq_inv_startService.
  - unfold fork_callback. destruct err; [exact Hinv|]. now apply seq_inv_serviceStarted.
  - unfold handle_onError. now apply seq_inv_serviceExited.
  - unfold handle_onExit.
    match goal with
    | |- seq_inv (with_isRestarting false (serviceExited ?h ?r ?n ?s0)) =>
        assert (H : seq_inv (serviceExited h r n s0))
          by (apply seq_inv_serviceExited; destruct code; exact Hinv)
    end.
    exact H.
  - unfold Reader_deliver, reader_onMessage.
    pose proof (seq_inv_dispatchMessage host msg s Hinv) as H.
    destruct (dispatchMessage host msg s) as [[|err] s']; exact H.
  - now apply seq_inv_runReaction.
Qed.

Lemma seq_inv_run (turns : list (Host * Turn)) (s : Client) :
  seq_inv s -> seq_inv (run turns s).
Proof.
  revert s. induction turns as [|[host t] turns IH]; intros s Hinv; [exact Hinv|].
  simpl. apply IH. now apply seq_inv_turn.
Qed.

(** In every reachable state a sequence number has at most one callback, and
    no queued request is in flight. *)
Lemma reachable_seq_inv (s : Client) : reachable s -> seq_inv s.
Proof.
  intros (now & turns & ->). apply seq_inv_run. apply seq_ok_new.
Qed.

(** ** Cancelling a request that is still queued *)

Lemma sorted_app_inv (l1 l2 : list Z) (x : Z) :
  StronglySorted Z.lt (l1 ++ x :: l2) -> ~ In x (l1 ++ l2).
Proof.
  intros H. apply sorted_NoDup in H. now apply NoDup_remove_2 in H.
Qed.

(** What the code does for C8, in every reachable state: cancelling a queued
    request takes it out of the queue, before it is sent, and reports [true],
    but calls no callback, since the callback of a queued request is not in the
    table yet. *)
Lemma cancel_queued_calls_nothing (s : Client) (seq : Z) :
  reachable s ->
  In seq (queuedSeqs s) ->
  fst (tryCancelRequest seq s) = true
  /\ ~ In seq (queuedSeqs (snd (tryCancelRequest seq s)))
  /\ effects (snd (tryCancelRequest seq s)) = effects s ++ [LogTrace (CanceledRequest seq)]
  /\ callbacks (snd (tryCancelRequest seq s)) = callbacks s
  /\ reactions (snd (tryCancelRequest seq s)) = reactions s.
Proof.
  intros Hreach Hqueued. apply reachable_seq_inv in Hreach.
  destruct Hreach as (Hsorted & _ & Hflight & _).
  assert (Hfound : fst (RequestQueue.tryCancelPendingRequest seq (requestQueue s)) = true)
    by now apply tryCancelPendingRequest_found.
  assert (Hnone : fst (CallbackMap.fetch seq (callbacks s)) = None).
  { unfold CallbackMap.fetch. cbn [fst].
    assert (Hs : JsMap.get seq (CallbackMap.callbacks (callbacks s)) = None).
    { apply JsMap_get_None. intros Hin. destruct (Hflight seq (or_introl Hin)) as [_ H].
      specialize (H seq Hqueued). lia. }
    assert (Ha : JsMap.get seq (CallbackMap.asyncCallbacks (callbacks s)) = None).
    { apply JsMap_get_None. intros Hin. destruct (Hflight seq (or_intror Hin)) as [_ H].
      specialize (H seq Hqueued). lia. }
    now rewrite Hs, Ha. }
  rewrite tryCancelRequest_state. unfold cancelCalls.
  rewrite Hfound, Hnone, (fetch_absent _ _ Hnone).
  cbn [fst snd orb effects callbacks reactions emit with_callbacks with_requestQueue].
  split; [reflexivity|]. split; [|split; [now rewrite app_nil_r | split; reflexivity]].
  unfold queuedSeqs. cbn [requestQueue emit with_callbacks with_requestQueue].
  unfold RequestQueue.tryCancelPendingRequest.
  destruct (RequestQueue.splice_seq seq (RequestQueue.queue (requestQueue s)))
    as [l|] eqn:Hsplice; cbn [snd RequestQueue.queue].
  - apply splice_seq_inv in Hsplice.
    destruct Hsplice as (before & item & after & Hq & Hitem & _ & ->).
    unfold queuedSeqs in Hsorted. cbv zeta in Hsorted. rewrite Hq, map_app in Hsorted.
    cbn [map] in Hsorted. rewrite Hitem in Hsorted.
    rewrite map_app. now apply sorted_app_inv.
  - apply splice_seq_None in Hsplice. contradiction.
Qed.

(** ** A send that fails *)

Lemma fetch_registered (item : RequestItem.t) (cb : CallbackItem) (m : CallbackMap.t) :
  RequestItem.callbacks item = Some cb ->
  ~ In (seqOf item) (JsMap.keys (CallbackMap.callbacks m)) ->
  fst (CallbackMap.fetch (seqOf item) (register item m)) = Some cb.
Proof.
  intros Hcb Hfresh. unfold register, CallbackMap.add, CallbackMap.fetch. rewrite Hcb.
  destruct (RequestItem.isAsync item); cbn [fst CallbackMap.callbacks CallbackMap.asyncCallbacks].
  - apply JsMap_get_None in Hfresh. rewrite Hfresh. apply JsMap_get_set_same.
  - now rewrite JsMap_get_set_same.
Qed.

(** What the code does for C10 when [service()] does not have to start the
    server: the rejection handler finds the callback that [sendRequest]
    registered, removes it and calls its [e] with the error. *)
Lemma send_failure_rejects (host : Host) (item : RequestItem.t) (cb : CallbackItem)
  (err : Value) (s : Client) :
  startsLazily s = false ->
  RequestItem.callbacks item = Some cb ->
  ~ In (seqOf item) (JsMap.keys (CallbackMap.callbacks (callbacks s))) ->
  let s1 := sendRequest host item s in
  let s2 := sendRequest_onRejected (RequestItem.request item) err s1 in
  effects s2 = effects s1 ++ [Call_e cb err]
  /\ JsMap.get (seqOf item) (CallbackMap.callbacks (callbacks s2)) = None.
Proof.
  intros Hlazy Hcb Hfresh. cbv zeta.
  pose proof (fetch_registered item cb (callbacks s) Hcb Hfresh) as Hfetch.
  rewrite sendRequest_state, Hlazy. unfold sendRequest_onRejected.
  cbn [callbacks]. fold (seqOf item).
  destruct (CallbackMap.fetch (seqOf item) (register item (callbacks s)))
    as [p table] eqn:Hf.
  cbn [fst] in Hfetch. subst p.
  cbn [effects callbacks emit with_callbacks]. split; [reflexivity|].
  assert (Htable : table = snd (CallbackMap.fetch (seqOf item) (register item (callbacks s))))
    by now rewrite Hf.
  rewrite Htable, fetch_callbacks. apply JsMap_get_delete_same.
Qed.

(** ** A callback the client no longer holds is never called *)

Lemma callsPromise_same (p q : nat) (e : Effect) :
  callsPromise p e = true -> callsPromise q e = true -> p = q.
Proof.
  destruct e; simpl; try discriminate; intros H1 H2;
    apply Nat.eqb_eq in H1; apply Nat.eqb_eq in H2; congruence.
Qed.

Lemma callsPromise_isCallback (p : nat) (e : Effect) :
  callsPromise p e = true -> isCallback e = true.
Proof. destruct e; simpl; congruence. Qed.

Lemma filter_false {A : Type} (f : A -> bool) (l : list A) :
  (forall x, In x l -> f x = false) -> filter f l = [].
Proof.
  induction l as [|x l IH]; simpl; intros H; [reflexivity|].
  rewrite (H x (or_introl eq_refl)). apply IH. intros y Hy. apply H. now right.
Qed.

Lemma accounted_refl (s : Client) : accounted s s.
Proof.
  split; [lia|]. split; [auto|]. exists []. split; [now rewrite app_nil_r | intros e []].
Qed.

Lemma accounted_trans (s1 s2 s3 : Client) :
  accounted s1 s2 -> accounted s2 s3 -> accounted s1 s3.
Proof.
  intros (Hp1 & Hh1 & l1 & He1 & Hc1) (Hp2 & Hh2 & l2 & He2 & Hc2).
  assert (Hheld : forall q, In q (heldPromises s2) \/ (promises s2 <= q)%nat ->
                            In q (heldPromises s1) \/ (promises s1 <= q)%nat).
  { intros q [Hq|Hq]; [auto | right; lia]. }
  split; [lia|]. split; [intros q Hq; apply Hheld; auto|].
  exists (l1 ++ l2). split; [rewrite He2, He1; now rewrite app_assoc|].
  intros e He Hcall. apply in_app_iff in He. destruct He as [He|He].
  - now apply Hc1.
  - destruct (Hc2 e He Hcall) as (q & Hq & Hheld2). exists q. split; [exact Hq | now apply Hheld].
Qed.

Lemma abandoned_accounted (p : nat) (s s' : Client) :
  abandoned p s -> accounted s s' ->
  abandoned p s'
  /\ filter (callsPromise p) (effects s') = filter (callsPromise p) (effects s).
Proof.
  intros [Hmade Hnot] (Hp & Hh & l & He & Hc). split; [split|].
  - lia.
  - intros Hin. destruct (Hh p Hin) as [H|H]; [contradiction | lia].
  - rewrite He, filter_app.
    assert (Hnone : filter (callsPromise p) l = []).
    { apply filter_false. intros e Hin.
      destruct (callsPromise p e) eqn:Hcall; [|reflexivity]. exfalso.
      destruct (Hc e Hin (callsPromise_isCallback p e Hcall)) as (q & Hq & Hheld).
      pose proof (callsPromise_same _ _ _ Hcall Hq) as <-.
      destruct Hheld as [H|H]; [contradiction | lia]. }
    rewrite Hnone. apply app_nil_r.
Qed.

(** Steps that call no callback and hold no new one. *)
Lemma accounted_quiet (s s' : Client) (l : list Effect) :
  promises s' = promises s ->
  (forall q, In q (heldPromises s') -> In q (heldPromises s)) ->
  effects s' = effects s ++ l ->
  forallb (fun e => negb (isCallback e)) l = true ->
  accounted s s'.
Proof.
  intros Hp Hh He Hq. split; [lia|]. split; [auto|]. exists l. split; [exact He|].
  intros e Hin Hcall. rewrite forallb_forall in Hq. specialize (Hq e Hin).
  rewrite Hcall in Hq. discriminate.
Qed.

Lemma drain_quiet (l : list Effect) :
  forallb isDrainEffect l = true -> forallb (fun e => negb (isCallback e)) l = true.
Proof.
  rewrite !forallb_forall. intros H e He. now rewrite (drain_no_callback e (H e He)).
Qed.

Lemma JsMap_get_values {V : Type} (m : JsMap.t V) (k : Z) (v : V) :
  JsMap.get k m = Some v -> In v (JsMap.values m).
Proof.
  induction m as [|[k' v'] m IH]; simpl; [discriminate|].
  destruct (k' =? k); [intros [= ->]; now left | auto].
Qed.

Lemma JsMap_values_delete {V : Type} (m : JsMap.t V) (k : Z) (v : V) :
  In v (JsMap.values (snd (JsMap.delete k m))) -> In v (JsMap.values m).
Proof.
  unfold JsMap.values. simpl. rewrite !in_map_iff.
  intros (e & <- & He). apply filter_In in He. exists e. split; [reflexivity | apply He].
Qed.

Lemma JsMap_values_set {V : Type} (m : JsMap.t V) (k : Z) (v v' : V) :
  In v' (JsMap.values (JsMap.set k v m)) -> v' = v \/ In v' (JsMap.values m).
Proof.
  unfold JsMap.set, JsMap.values. destruct (JsMap.has k m).
  - unfold JsMap.overwrite. rewrite map_map, !in_map_iff.
    intros ([k0 v0] & <- & He). simpl. destruct (k0 =? k); simpl; [now left|].
    right. exists (k0, v0). auto.
  - rewrite map_app, in_app_iff. simpl. intros [H|[H|[]]]; auto.
Qed.

Lemma tablePromises_fetch (seq : Z) (m : CallbackMap.t) (q : nat) :
  In q (tablePromises (snd (CallbackMap.fetch seq m))) -> In q (tablePromises m).
Proof.
  unfold tablePromises. rewrite fetch_callbacks, fetch_asyncCallbacks, !in_app_iff, !in_map_iff.
  intros [(cb & <- & Hcb)|(cb & <- & Hcb)].
  - left. exists cb. split; [reflexivity | now apply JsMap_values_delete in Hcb].
  - right. exists cb. split; [reflexivity|].
    destruct (JsMap.has seq (CallbackMap.callbacks m)); [exact Hcb|].
    now apply JsMap_values_delete in Hcb.
Qed.

Lemma fetch_held (seq : Z) (m : CallbackMap.t) (cb : CallbackItem) :
  fst (CallbackMap.fetch seq m) = Some cb -> In (promise cb) (tablePromises m).
Proof.
  unfold CallbackMap.fetch, tablePromises. cbn [fst]. rewrite in_app_iff, !in_map_iff.
  destruct (JsMap.get seq (CallbackMap.callbacks m)) as [c|] eqn:Hs.
  - intros [= ->]. left. exists cb. split; [reflexivity | now apply JsMap_get_values in Hs].
  - intros Ha. right. exists cb. split; [reflexivity | now apply JsMap_get_values in Ha].
Qed.

Lemma tablePromises_register (item : RequestItem.t) (m : CallbackMap.t) (q : nat) :
  In q (tablePromises (register item m)) -> In q (tablePromises m) \/ In q (itemPromises item).
Proof.
  unfold register, itemPromises. destruct (RequestItem.callbacks item) as [cb|]; [|auto].
  unfold CallbackMap.add, tablePromises.
  destruct (RequestItem.isAsync item);
    cbn [CallbackMap.callbacks CallbackMap.asyncCallbacks];
    rewrite !in_app_iff, !in_map_iff.
  - intros [(c & <- & Hc)|(c & <- & Hc)].
    + left. left. exists c. auto.
    + apply JsMap_values_set in Hc. destruct Hc as [->|Hc]; [right; now left|].
      left. right. exists c. auto.
  - intros [(c & <- & Hc)|(c & <- & Hc)].
    + apply JsMap_values_set in Hc. destruct Hc as [->|Hc]; [right; now left|].
      left. left. exists c. auto.
    + left. right. exists c. auto.
Qed.

Lemma accounted_same (s s' : Client) (l : list Effect) :
  promises s' = promises s ->
  callbacks s' = callbacks s ->
  requestQueue s' = requestQueue s ->
  effects s' = effects s ++ l ->
  forallb (fun e => negb (isCallback e)) l = true ->
  accounted s s'.
Proof.
  intros Hp Hc Hq He Hl. apply (accounted_quiet s s' l); auto.
  unfold heldPromises. now rewrite Hc, Hq.
Qed.

Lemma accounted_startService (host : Host) (s : Client) : accounted s (startService host s).
Proof.
  apply (accounted_quiet _ _ (startService_calls host)); rewrite ?startService_state.
  - reflexivity.
  - intros q [].
  - reflexivity.
  - apply drain_quiet, startService_calls_drain.
Qed.

Lemma accounted_sendHead (host : Host) (item : RequestItem.t) (rest : list RequestItem.t)
  (s : Client) :
  RequestQueue.queue (requestQueue s) = item :: rest ->
  accounted s (sendHead host item rest s).
Proof.
  intros Hq. unfold sendHead. rewrite sendRequest_state.
  eapply accounted_quiet; cbn [promises effects].
  - reflexivity.
  - unfold heldPromises. cbn [callbacks requestQueue with_requestQueue]. rewrite Hq.
    destruct (startsLazily _); [intros q []|].
    intros q Hin. cbn [RequestQueue.queue flat_map] in *.
    rewrite !in_app_iff in *. destruct Hin as [Hin|Hin]; [|auto].
    apply tablePromises_register in Hin. tauto.
  - reflexivity.
  - rewrite forallb_app. apply andb_true_intro. split; [reflexivity|].
    destruct (startsLazily _); [apply drain_quiet, startService_calls_drain | reflexivity].
Qed.

Lemma accounted_sendNextRequests (host : Host) (s : Client) :
  accounted s (sendNextRequests host s).
Proof.
  apply (sendNextRequests_ind host (accounted s)); [|apply accounted_refl].
  intros s' item rest _ Hq Hacc. eapply accounted_trans; [exact Hacc|].
  now apply accounted_sendHead.
Qed.

Lemma accounted_executeImpl (host : Host) (command : string) (args : Payload)
  (isAsync expectsResult : bool) (now : Z) (s : Client) :
  accounted s (executeImpl host command args isAsync expectsResult now s).
Proof.
  unfold executeImpl. cbn [RequestQueue.createRequest].
  destruct expectsResult;
    (eapply accounted_trans; [|apply accounted_sendNextRequests]).
  - split; [cbn [promises with_requestQueue with_promises]; lia|]. split.
    + unfold heldPromises.
      cbn [callbacks requestQueue with_requestQueue with_promises RequestQueue.push
           RequestQueue.queue].
      intros q. rewrite flat_map_app, !in_app_iff. cbn [flat_map itemPromises
        RequestItem.callbacks promise app In].
      intros [H|[H|[<-|[]]]]; auto.
    + exists []. cbn [effects with_requestQueue with_promises].
      split; [now rewrite app_nil_r | intros e []].
  - apply (accounted_quiet _ _ []); cbn [promises effects with_requestQueue].
    + reflexivity.
    + unfold heldPromises.
      cbn [callbacks requestQueue with_requestQueue RequestQueue.push RequestQueue.queue].
      intros q. rewrite flat_map_app, !in_app_iff. cbn [flat_map itemPromises
        RequestItem.callbacks app In]. tauto.
    + now rewrite app_nil_r.
    + reflexivity.
Qed.

Lemma tryCancelPendingRequest_sublist (seq : Z) (q : RequestQueue.t) (x : RequestItem.t) :
  In x (RequestQueue.queue (snd (RequestQueue.tryCancelPendingRequest seq q))) ->
  In x (RequestQueue.queue q).
Proof.
  unfold RequestQueue.tryCancelPendingRequest.
  destruct (RequestQueue.splice_seq seq (RequestQueue.queue q)) as [l|] eqn:Hsplice; [|auto].
  apply splice_seq_inv in Hsplice. destruct Hsplice as (before & item & after & -> & _ & _ & ->).
  cbn [snd RequestQueue.queue]. rewrite !in_app_iff. simpl. tauto.
Qed.

Lemma accounted_tryCancelRequest (seq : Z) (s : Client) :
  accounted s (snd (tryCancelRequest seq s)).
Proof.
  rewrite tryCancelRequest_state. cbn [snd].
  split; [cbn [promises emit with_callbacks with_requestQueue]; lia|]. split.
  - unfold heldPromises. cbn [callbacks requestQueue emit with_callbacks with_requestQueue].
    intros q. rewrite !in_app_iff. intros [H|H]; left.
    + left. now apply tablePromises_fetch in H.
    + right. apply in_flat_map in H. destruct H as (x & Hx & Hq).
      apply in_flat_map. exists x. split; [|exact Hq].
      now apply tryCancelPendingRequest_sublist in Hx.
  - eexists. cbn [effects emit with_callbacks with_requestQueue].
    rewrite <- app_assoc. split; [reflexivity|].
    intros e He Hcall. apply in_app_iff in He. destruct He as [He|He].
    + exfalso. unfold cancelCalls in He.
      destruct (fst (RequestQueue.tryCancelPendingRequest seq (requestQueue s)));
        [|destruct (sideChannel s)]; simpl in He;
        repeat (destruct He as [<-|He]; [discriminate Hcall|]); exact He.
    + destruct (fst (CallbackMap.fetch seq (callbacks s))) as [p|] eqn:Hp; [|destruct He].
      destruct He as [<-|[]]. exists (promise p). split; [simpl; apply Nat.eqb_refl|].
      left. unfold heldPromises. apply in_app_iff. left. now apply fetch_held in Hp.
Qed.

Lemma accounted_fetch_some (seq : Z) (p : CallbackItem) (table : CallbackMap.t)
  (l : list Effect) (s : Client) :
  CallbackMap.fetch seq (callbacks s) = (Some p, table) ->
  (forall e, In e l -> isCallback e = true -> callsPromise (promise p) e = true) ->
  accounted s (emit l (with_callbacks table s)).
Proof.
  intros Hfetch Hl.
  assert (Htable : table = snd (CallbackMap.fetch seq (callbacks s))) by now rewrite Hfetch.
  assert (Hp : fst (CallbackMap.fetch seq (callbacks s)) = Some p) by now rewrite Hfetch.
  split; [cbn [promises emit with_callbacks]; lia|]. split.
  - unfold heldPromises. cbn [callbacks requestQueue emit with_callbacks].
    intros q. rewrite !in_app_iff. intros [H|H]; left; [left | right; exact H].
    rewrite Htable in H. now apply tablePromises_fetch in H.
  - exists l. split; [reflexivity|]. intros e He Hcall. exists (promise p).
    split; [now apply Hl|]. left. unfold heldPromises. apply in_app_iff. left.
    now apply fetch_held in Hp.
Qed.

Lemma accounted_fetch_none (seq : Z) (table : CallbackMap.t) (s : Client) :
  CallbackMap.fetch seq (callbacks s) = (None, table) ->
  accounted s (with_callbacks table s).
Proof.
  intros Hfetch.
  assert (Htable : table = snd (CallbackMap.fetch seq (callbacks s))) by now rewrite Hfetch.
  apply (accounted_quiet _ _ []); cbn [promises effects with_callbacks].
  - reflexivity.
  - unfold heldPromises. cbn [callbacks requestQueue with_callbacks].
    intros q. rewrite !in_app_iff. intros [H|H]; [left | right; exact H].
    rewrite Htable in H. now apply tablePromises_fetch in H.
  - now rewrite app_nil_r.
  - reflexivity.
Qed.

Lemma accounted_dispatchEvent (ev : Proto.Event) (s : Client) :
  accounted s (dispatchEvent ev s).
Proof.
  destruct ev as [seq|name has_body]; unfold dispatchEvent.
  - destruct (CallbackMap.fetch seq (callbacks s)) as [[p|] table] eqn:Hfetch.
    + apply (accounted_fetch_some seq p); [exact Hfetch|].
      intros e [<-|[<-|[]]]; [discriminate|]. intros _. simpl. apply Nat.eqb_refl.
    + now apply (accounted_fetch_none seq).
  - now apply (accounted_same _ _ [RouteEvent (Proto.Named name has_body)]).
Qed.

Lemma accounted_dispatchMessage (host : Host) (msg : Proto.Message) (s : Client) :
  accounted s (snd (dispatchMessage host msg s)).
Proof.
  unfold dispatchMessage. destruct msg as [response|ev|type]; cbn [snd].
  - destruct (CallbackMap.fetch (Proto.request_seq response) (callbacks s))
      as [[p|] table] eqn:Hfetch; cbn [snd];
      (eapply accounted_trans; [|apply accounted_sendNextRequests]).
    + apply (accounted_fetch_some (Proto.request_seq response) p); [exact Hfetch|].
      intros e [<-|[<-|[]]]; [discriminate|]. intros _.
      destruct (Proto.success response); simpl; apply Nat.eqb_refl.
    + now apply (accounted_fetch_none (Proto.request_seq response)).
  - eapply accounted_trans; [|apply accounted_sendNextRequests].
    eapply accounted_trans; [|apply accounted_dispatchEvent].
    now apply (accounted_same _ _ [TraceEvent ev]).
  - apply accounted_sendNextRequests.
Qed.

Lemma accounted_destroyed (s : Client) :
  accounted s
    (with_callbacks CallbackMap.new
       (emit (fst (CallbackMap.destroy (VError ServiceDied) (callbacks s)))
          (with_servicePromise None s))).
Proof.
  split; [cbn [promises with_callbacks emit with_servicePromise]; lia|]. split.
  - unfold heldPromises. cbn [callbacks requestQueue with_callbacks emit with_servicePromise].
    intros q Hq. apply in_app_iff in Hq. destruct Hq as [[]|Hq]. left. apply in_app_iff. now right.
  - eexists. cbn [effects with_callbacks emit with_servicePromise]. split; [reflexivity|].
    intros e He _. destruct (destroy_spec (VError ServiceDied) (callbacks s)) as [Hcalls _].
    rewrite Hcalls in He. apply in_map_iff in He. destruct He as (cb & <- & Hcb).
    exists (promise cb). split; [simpl; apply Nat.eqb_refl|]. left.
    unfold heldPromises, tablePromises. rewrite <- map_app, in_app_iff. left.
    now apply in_map.
Qed.

Lemma accounted_serviceExited (host : Host) (restart : bool) (now : Z) (s : Client) :
  accounted s (serviceExited host restart now s).
Proof.
  unfold serviceExited.
  change (callbacks (with_servicePromise None s)) with (callbacks s).
  destruct (CallbackMap.destroy (VError ServiceDied) (callbacks s)) as [calls table] eqn:Hd.
  assert (Hcalls : calls = fst (CallbackMap.destroy (VError ServiceDied) (callbacks s)))
    by now rewrite Hd.
  rewrite Hcalls.
  eapply accounted_trans; [apply accounted_destroyed|].
  destruct restart; cbn [negb].
  - repeat destruct_if.
    + now eapply (accounted_same _ _ [ShowErrorMessage "serverDiedAfterStart";
                                      LogTelemetry "serviceExited"]).
    + eapply accounted_trans; [|apply accounted_startService].
      now eapply (accounted_same _ _ [ShowWarningMessage "serverDied"]).
    + eapply accounted_trans; [|apply accounted_startService].
      eapply (accounted_same _ _ []); try reflexivity. cbn [effects with_numberRestarts].
      now rewrite app_nil_r.
    + eapply accounted_trans; [|apply accounted_startService].
      eapply (accounted_same _ _ []); try reflexivity. cbn [effects with_numberRestarts].
      now rewrite app_nil_r.
  - eapply (accounted_same _ _ []); try reflexivity.
    cbn [effects resetClientVersion with_apiVersion]. now rewrite app_nil_r.
Qed.

Lemma accounted_serviceStarted (host : Host) (resendModels : bool) (s : Client) :
  accounted s (serviceStarted host resendModels s).
Proof.
  unfold serviceStarted, setCompilerOptionsForInferredProjects,
    executeWithoutWaitingForResponse.
  pose proof (accounted_executeImpl host "configure" "hostInfo: vscode" false false 0 s) as H1.
  pose proof (accounted_executeImpl host "compilerOptionsForInferredProjects" "options"
                false false 0 (executeImpl host "configure" "hostInfo: vscode" false false 0 s))
    as H2.
  pose proof (accounted_trans _ _ _ H1 H2) as H3.
  destruct (negb (API.gte _ API.v206)), resendModels; try assumption.
  - eapply accounted_trans; [exact H1|].
    now apply (accounted_same _ _ [Fire "onResendModelsRequested"]).
  - eapply accounted_trans; [exact H3|].
    now apply (accounted_same _ _ [Fire "onResendModelsRequested"]).
Qed.

Lemma accounted_fork_callback (host : Host) (err : option Value) (resendModels : bool)
  (now : Z) (s : Client) :
  accounted s (fork_callback host err resendModels now s).
Proof.
  unfold fork_callback. destruct err as [err|].
  - now apply (accounted_same _ _ [LogError "Starting TSServer failed with error." err;
                                   ShowErrorMessage "serverCouldNotBeStarted";
                                   LogTelemetry "error"]).
  - eapply accounted_trans; [|apply accounted_serviceStarted].
    eapply (accounted_same _ _ [LogInfo "Started TSServer"; Fire "onTsServerStarted"]);
      try reflexivity.
    cbn [effects emit with_lastStart]. now rewrite <- app_assoc.
Qed.

Lemma accounted_sendRequest_onRejected (rq : Proto.Request) (err : Value) (s : Client) :
  accounted s (sendRequest_onRejected rq err s).
Proof.
  unfold sendRequest_onRejected.
  destruct (CallbackMap.fetch (Proto.seq rq) (callbacks s)) as [[p|] table] eqn:Hfetch.
  - apply (accounted_fetch_some (Proto.seq rq) p); [exact Hfetch|].
    intros e [<-|[]] _. simpl. apply Nat.eqb_refl.
  - now apply (accounted_fetch_none (Proto.seq rq)).
Qed.

Lemma accounted_runReaction (i : nat) (o : Settlement) (s : Client) :
  accounted s (runReaction i o s).
Proof.
  unfold runReaction. destruct (nth_error (reactions s) i) as [r|]; [|apply accounted_refl].
  apply accounted_trans with (s2 := with_reactions (remove_nth i (reactions s)) s).
  - eapply (accounted_same _ _ []); try reflexivity.
    cbn [effects with_reactions]. now rewrite app_nil_r.
  - destruct (waitsOn r), o; try apply accounted_sendRequest_onRejected.
    now apply (accounted_same _ _ [ChildWrite (serverRequest r)]).
Qed.

Lemma accounted_turn (host : Host) (t : Turn) (s : Client) : accounted s (turn host t s).
Proof.
  destruct t; cbn [turn].
  - apply accounted_executeImpl.
  - apply accounted_executeImpl.
  - apply accounted_executeImpl.
  - apply accounted_tryCancelRequest.
  - unfold ensureServiceStarted. destruct (servicePromise s);
      [apply accounted_refl | apply accounted_startService].
  - unfold restartTsServer, restartTsServer_start. destruct (servicePromise s);
      [apply accounted_refl | apply accounted_startService].
  - unfold restartTsServer_kill.
    eapply (accounted_same _ _ [LogInfo "Killing TS Server"; ChildKill]); try reflexivity.
    cbn [effects emit with_isRestarting resetClientVersion with_apiVersion].
    now rewrite <- app_assoc.
  - apply accounted_startService.
  - apply accounted_fork_callback.
  - unfold handle_onError. eapply accounted_trans; [|apply accounted_serviceExited].
    now apply (accounted_same _ _ [LogError "TSServer errored with error." err;
                                   LogTelemetry "tsserver.error"]).
  - unfold handle_onExit.
    set (s0 := match code with
               | Some _ => emit [LogError "TSServer exited with code" VUndefined;
                                LogTelemetry "tsserver.exitWithCode"] s
               | None => emit [LogInfo "TSServer exited"] s
               end).
    apply accounted_trans with (s2 := s0).
    + subst s0. destruct code.
      * now apply (accounted_same _ _ [LogError "TSServer exited with code" VUndefined;
                                       LogTelemetry "tsserver.exitWithCode"]).
      * now apply (accounted_same _ _ [LogInfo "TSServer exited"]).
    + eapply accounted_trans; [apply accounted_serviceExited|].
      eapply (accounted_same _ _ []); try reflexivity.
      cbn [effects with_isRestarting]. now rewrite app_nil_r.
  - unfold Reader_deliver, reader_onMessage.
    pose proof (accounted_dispatchMessage host msg s) as H.
    destruct (dispatchMessage host msg s) as [[|err] s']; cbn [snd] in H; [exact H|].
    eapply accounted_trans; [exact H|].
    now apply (accounted_same _ _ [LogError "ReaderError" (VError err)]).
  - apply accounted_runReaction.
Qed.

Lemma accounted_run (turns : list (Host * Turn)) (s : Client) : accounted s (run turns s).
Proof.
  revert s. induction turns as [|[host t] turns IH]; intros s; [apply accounted_refl|].
  simpl. eapply accounted_trans; [apply accounted_turn | apply IH].
Qed.

(** Whatever happens next, the callback of an abandoned promise is not called:
    the promise stays pending. *)
Lemma abandoned_never_called (p : nat) (s : Client) (turns : list (Host * Turn)) :
  abandoned p s ->
  filter (callsPromise p) (effects (run turns s)) = filter (callsPromise p) (effects s).
Proof.
  intros Hab. now apply (abandoned_accounted p s (run turns s) Hab (accounted_run turns s)).
Qed.

(** ** Two promises that stay pending *)

(** C8, where the code departs from it: a second synchronous request waits in
    the queue behind the first; its token fires; the request leaves the queue
    and the cancellation reports [true], but no callback is called, its
    callback is then neither in the queue nor in the table, and nothing that
    happens later calls it: the promise is never rejected. *)
Theorem cancel_in_queue_never_rejects :
  let s := run [(host291, EnsureServiceStarted);
                (host291, Execute "quickinfo" "a" 10);
                (host291, Execute "completions" "b" 11)] (new 0) in
  let cb := {| promise := 1; start := 11 |} in
  let s' := snd (tryCancelRequest 1 s) in
  RequestQueue.queue (requestQueue s)
  = [{| RequestItem.request :=
          {| Proto.seq := 1; Proto.command := "completions"; Proto.arguments := "b" |};
        RequestItem.callbacks := Some cb;
        RequestItem.isAsync := false |}]
  /\ fst (tryCancelRequest 1 s) = true
  /\ RequestQueue.queue (requestQueue s') = []
  /\ effects s' = effects s ++ [LogTrace (CanceledRequest 1)]
  /\ filter isCallback (effects s') = []
  /\ heldPromises s' = [0%nat]
  /\ (forall turns, filter (callsPromise 1) (effects (run turns s')) = []).
Proof.
  cbv zeta.
  split; [vm_compute; reflexivity|]. split; [vm_compute; reflexivity|].
  split; [vm_compute; reflexivity|]. split; [vm_compute; reflexivity|].
  split; [vm_compute; reflexivity|]. split; [vm_compute; reflexivity|].
  intros turns. rewrite abandoned_never_called.
  - vm_compute. reflexivity.
  - split; [vm_compute; lia | vm_compute; intuition discriminate].
Qed.

(** C10, where the code departs from it: on a client without server (a new
    one, or one whose restarts were given up after six crashes) [sendRequest]
    registers the callback and then [service()] starts the server, which
    installs an empty table.  When the start fails, the rejection handler finds
    no callback, and nothing that happens later calls it: the promise of the
    request is never rejected. *)
Theorem lazy_start_loses_callback :
  let err := VError (External "spawn ENOENT") in
  let s := execute host291 "quickinfo" "a" 10 (new 0) in
  let sessions := [(100, 900); (1000, 1900); (2000, 2900);
                   (3000, 3900); (4000, 4900); (5000, 5900)] in
  let gaveUp := crashes host291 sessions (ensureServiceStarted host291 (new 0)) in
  let s2 := execute host291 "quickinfo" "a" 7000 gaveUp in
  (reactions s
   = [{| serverRequest :=
           {| Proto.seq := 0; Proto.command := "quickinfo"; Proto.arguments := "a" |};
         waitsOn := OnServicePromise |}]
   /\ promises s = 1%nat
   /\ callbacks s = CallbackMap.new
   /\ heldPromises s = []
   /\ effects (runReaction 0 (Rejected err) s) = effects s
   /\ (forall turns, filter (callsPromise 0) (effects (run turns s)) = []))
  /\ (servicePromise gaveUp = None
      /\ lastError gaveUp = None
      /\ nth_error (reactions s2) 12
         = Some {| serverRequest :=
                     {| Proto.seq := 2; Proto.command := "quickinfo";
                        Proto.arguments := "a" |};
                   waitsOn := OnServicePromise |}
      /\ promises s2 = 1%nat
      /\ heldPromises s2 = []
      /\ effects (runReaction 12 (Rejected err) s2) = effects s2
      /\ (forall turns, filter (callsPromise 0) (effects (run turns s2)) = [])).
Proof.
  cbv zeta. split.
  - split; [vm_compute; reflexivity|]. split; [vm_compute; reflexivity|].
    split; [vm_compute; reflexivity|]. split; [vm_compute; reflexivity|].
    split; [vm_compute; reflexivity|].
    intros turns. rewrite abandoned_never_called.
    + vm_compute. reflexivity.
    + split; [vm_compute; lia | vm_compute; tauto].
  - split; [vm_compute; reflexivity|]. split; [vm_compute; reflexivity|].
    split; [vm_compute; reflexivity|]. split; [vm_compute; reflexivity|].
    split; [vm_compute; reflexivity|]. split; [vm_compute; reflexivity|].
    intros turns. rewrite abandoned_never_called.
    + vm_compute. reflexivity.
    + split; [vm_compute; lia | vm_compute; tauto].
Qed.

(** ** Cancelling a request that was sent *)



(** ** Sequence numbers and the server they are sent to *)

(** C6, where the code departs from it: on a client without server the first
    request takes its number, 0, from the queue of the constructor; sending it
    starts the server, and [startService] installs a new queue, from which the
    second request takes 0 again.  Both requests wait on the promise of that
    one start and are written to the one process it gives, so this session
    receives the sequence number 0 twice.  The response to the first request
    then finds the callback of the second under 0 and resolves the promise of
    the second request; the promise of the first is never settled. *)
Theorem session_receives_seq_twice :
  let quickinfo :=
    {| Proto.seq := 0; Proto.command := "quickinfo"; Proto.arguments := "a" |} in
  let completions :=
    {| Proto.seq := 0; Proto.command := "completions"; Proto.arguments := "b" |} in
  let s := run [(host291, Execute "quickinfo" "a" 10);
                (host291, Execute "completions" "b" 11)] (new 0) in
  let started := run [(host291, ForkCallback None false 20);
                      (host291, Continue 0 Fulfilled);
                      (host291, Continue 0 Fulfilled)] s in
  let response := {| Proto.request_seq := 0; Proto.success := true;
                     Proto.body := Some "info about a"; Proto.message := None |} in
  let answered := Reader_deliver host291 (Proto.IsResponse response) started in
  reactions s
  = [{| serverRequest := quickinfo; waitsOn := OnServicePromise |};
     {| serverRequest := completions; waitsOn := OnServicePromise |}]
  /\ RequestQueue.sequenceNumber (requestQueue s) = 1
  /\ CallbackMap.callbacks (callbacks s) = [(0, {| promise := 1; start := 11 |})]
  /\ filter isServerTraffic (effects started)
     = [LogInfo "Using tsserver from"; LogInfo "Started TSServer";
        ChildWrite quickinfo; ChildWrite completions]
  /\ filter isCallback (effects answered)
     = [Call_c {| promise := 1; start := 11 |} (VResponse response)]
  /\ (forall turns, filter (callsPromise 0) (effects (run turns answered)) = []).
Proof.
  cbv zeta.
  split; [vm_compute; reflexivity|]. split; [vm_compute; reflexivity|].
  split; [vm_compute; reflexivity|]. split; [vm_compute; reflexivity|].
  split; [vm_compute; reflexivity|].
  intros turns. rewrite abandoned_never_called.
  - vm_compute. reflexivity.
  - split; [vm_compute; lia | vm_compute; intuition discriminate].
Qed.

(** * Part III: further properties of the code *)

(** ** [RequestQueue] and [CallbackMap] *)

Lemma pushAll_queue (items : list RequestItem.t) (q : RequestQueue.t) :
  pushAll items q
  = {| RequestQueue.queue := RequestQueue.queue q ++ items;
       RequestQueue.sequenceNumber := RequestQueue.sequenceNumber q |}.
Proof.
  revert q. induction items as [|x items IH]; intros q; simpl.
  - rewrite app_nil_r. now destruct q.
  - rewrite IH. simpl. now rewrite <- app_assoc.
Qed.

Lemma shifts_all (l : list RequestItem.t) (n : Z) :
  shifts (List.length l) {| RequestQueue.queue := l; RequestQueue.sequenceNumber := n |}
  = (map Some l, {| RequestQueue.queue := []; RequestQueue.sequenceNumber := n |}).
Proof.
  induction l as [|x l IH]; [reflexivity|].
  simpl. unfold RequestQueue.shift. simpl. now rewrite IH.
Qed.

(** X1: the queue is first-in, first-out.  Entries pushed onto a queue come
    back from [shift] behind the entries that were there, in the order of the
    pushes; as many shifts as there are entries empty the queue, the next
    [shift] returns nothing, and neither call touches the sequence counter. *)
Theorem queue_is_fifo (items : list RequestItem.t) (q : RequestQueue.t) :
  let q' := pushAll items q in
  let n := List.length (RequestQueue.queue q ++ items) in
  fst (shifts n q') = map Some (RequestQueue.queue q ++ items)
  /\ RequestQueue.queue (snd (shifts n q')) = []
  /\ fst (RequestQueue.shift (snd (shifts n q'))) = None
  /\ RequestQueue.sequenceNumber (snd (shifts n q')) = RequestQueue.sequenceNumber q
  /\ RequestQueue.length q' = RequestQueue.length q + Z.of_nat (List.length items).
Proof.
  cbv zeta. rewrite pushAll_queue, shifts_all. simpl.
  repeat split. unfold RequestQueue.length. simpl. rewrite length_app. lia.
Qed.

(** X2: [tryCancelPendingRequest] reports [true] exactly when an entry with
    this [seq] is queued; it then removes the first such entry and nothing
    else, keeping the order of the others; when it reports [false] the queue is
    unchanged.  The sequence counter is never touched. *)
Theorem tryCancelPendingRequest_splices (seq : Z) (q : RequestQueue.t) :
  let found := fst (RequestQueue.tryCancelPendingRequest seq q) in
  let q' := snd (RequestQueue.tryCancelPendingRequest seq q) in
  RequestQueue.sequenceNumber q' = RequestQueue.sequenceNumber q
  /\ (found = true <-> In seq (map seqOf (RequestQueue.queue q)))
  /\ (found = false -> q' = q)
  /\ (found = true ->
      exists before item after,
        RequestQueue.queue q = before ++ item :: after
        /\ seqOf item = seq
        /\ (forall x, In x before -> seqOf x <> seq)
        /\ RequestQueue.queue q' = before ++ after
        /\ RequestQueue.length q' = RequestQueue.length q - 1).
Proof.
  cbv zeta. split; [apply queue_calls_keep_counter|].
  split; [apply tryCancelPendingRequest_found|].
  split; [apply tryCancelPendingRequest_not_found|].
  unfold RequestQueue.tryCancelPendingRequest.
  destruct (RequestQueue.splice_seq seq (RequestQueue.queue q)) as [l|] eqn:Hsplice;
    cbn [fst snd]; [|discriminate].
  intros _. apply splice_seq_inv in Hsplice.
  destruct Hsplice as (before & item & after & Hq & Hitem & Hbefore & ->).
  exists before, item, after. repeat split; auto.
  unfold RequestQueue.length. cbn [RequestQueue.queue]. rewrite Hq, !length_app. simpl. lia.
Qed.

Lemma JsMap_delete_fresh_append {V : Type} (m : JsMap.t V) (k : Z) (v : V) :
  ~ In k (JsMap.keys m) -> snd (JsMap.delete k (m ++ [(k, v)])) = m.
Proof.
  intros Hfresh. simpl. rewrite filter_app. simpl. rewrite Z.eqb_refl. simpl.
  rewrite app_nil_r. apply JsMap_has_false in Hfresh.
  exact (JsMap_delete_absent m k Hfresh).
Qed.

Lemma fetch_after_add (m : CallbackMap.t) (seq : Z) (cb : CallbackItem) (isAsync : bool) :
  ~ In seq (JsMap.keys (CallbackMap.callbacks m)) ->
  ~ In seq (JsMap.keys (CallbackMap.asyncCallbacks m)) ->
  CallbackMap.fetch seq (CallbackMap.add seq cb isAsync m) = (Some cb, m).
Proof.
  intros Hsync Hasync.
  pose proof (proj2 (JsMap_has_false _ _) Hsync) as Hs.
  pose proof (proj2 (JsMap_has_false _ _) Hasync) as Ha.
  pose proof (proj2 (JsMap_get_None _ _) Hsync) as Gs.
  destruct m as [sync async pending]. simpl in *.
  unfold CallbackMap.fetch, CallbackMap.delete, CallbackMap.add.
  destruct isAsync; cbn [CallbackMap.callbacks CallbackMap.asyncCallbacks
                           CallbackMap.pendingResponses].
  - rewrite Gs, JsMap_get_set_same.
    unfold JsMap.delete at 1. cbn [fst snd]. rewrite Hs.
    pose proof (JsMap_delete_absent sync seq Hs) as Es. simpl in Es. rewrite Es.
    unfold JsMap.set. rewrite Ha. now rewrite JsMap_delete_fresh_append.
  - rewrite JsMap_get_set_same.
    unfold JsMap.set. rewrite Hs.
    assert (Hhas : JsMap.has seq (sync ++ [(seq, cb)]) = true).
    { apply JsMap_has_keys. unfold JsMap.keys. rewrite map_app, in_app_iff. right. now left. }
    unfold JsMap.delete at 1. cbn [fst snd]. rewrite Hhas.
    pose proof (JsMap_delete_fresh_append sync seq cb Hsync) as Es. simpl in Es. rewrite Es.
    replace (pending + 1 - 1) with pending by lia. reflexivity.
Qed.

(** X3: registering a callback under a [seq] that the table does not hold and
    fetching it gives the callback back and leaves the table exactly as it was
    before, counter included; without the registration the same [fetch] finds
    nothing.  Only a synchronous registration moves the counter. *)
Theorem add_fetch_roundtrip (m : CallbackMap.t) (seq : Z) (cb : CallbackItem) (isAsync : bool)
  (Hsync : ~ In seq (JsMap.keys (CallbackMap.callbacks m)))
  (Hasync : ~ In seq (JsMap.keys (CallbackMap.asyncCallbacks m))) :
  CallbackMap.fetch seq (CallbackMap.add seq cb isAsync m) = (Some cb, m)
  /\ CallbackMap.fetch seq m = (None, m)
  /\ CallbackMap.pendingResponses (CallbackMap.add seq cb isAsync m)
     = (if isAsync then CallbackMap.pendingResponses m else CallbackMap.pendingResponses m + 1).
Proof.
  split; [now apply fetch_after_add|]. split; [|now destruct isAsync].
  assert (Hnone : fst (CallbackMap.fetch seq m) = None).
  { unfold CallbackMap.fetch. cbn [fst].
    rewrite (proj2 (JsMap_get_None _ _) Hsync). exact (proj2 (JsMap_get_None _ _) Hasync). }
  pose proof (fetch_absent seq m Hnone) as Hsame.
  destruct (CallbackMap.fetch seq m) as [c m']. cbn [fst snd] in *. now subst.
Qed.

Lemma add_fetch_roundtrip_witness :
  let cb := {| promise := 4; start := 20 |} in
  let m := CallbackMap.add 1 {| promise := 3; start := 10 |} true CallbackMap.new in
  CallbackMap.fetch 2 (CallbackMap.add 2 cb false m) = (Some cb, m).
Proof.
  intros cb m.
  assert (Hsync : ~ In 2 (JsMap.keys (CallbackMap.callbacks m))) by (simpl; tauto).
  assert (Hasync : ~ In 2 (JsMap.keys (CallbackMap.asyncCallbacks m)))
    by (simpl; intros [H|[]]; discriminate).
  exact (proj1 (add_fetch_roundtrip m 2 cb false Hsync Hasync)).
Defined.

(** ** [service], errors and exits of the server process *)

(** X4: [service()] rejects only with the stored [lastError], and then
    changes nothing; in every other case it returns the [servicePromise], which
    it creates by [startService] exactly when there was neither a promise nor
    an error.  The rejection [Could not create TS service] is never produced. *)
Theorem service_outcome (host : Host) (s : Client) :
  (forall err,
      fst (service host s) = RejectedWith err ->
      servicePromise s = None /\ lastError s = Some err /\ snd (service host s) = s)
  /\ (fst (service host s) = OnServicePromise ->
      servicePromise (snd (service host s)) = Some ServicePromise
      /\ (servicePromise s = None ->
          lastError s = None /\ snd (service host s) = startService host s)
      /\ (servicePromise s <> None -> snd (service host s) = s)).
Proof.
  unfold service. destruct (servicePromise s) as [[]|] eqn:Hp.
  - split; [discriminate|]. intros _. cbn [fst snd]. rewrite Hp.
    split; [reflexivity|]. split; [discriminate | reflexivity].
  - destruct (lastError s) as [e|] eqn:He.
    + split; [|discriminate]. intros err [= ->]. auto.
    + rewrite startService_state. cbn [servicePromise fst snd].
      split; [discriminate|]. intros _. split; [reflexivity|]. split; [auto|].
      intros H. now contradiction H.
Qed.

Lemma handle_onError_state (host : Host) (err : Value) (s : Client) :
  handle_onError host err s
  = {| servicePromise := None;
       lastError := Some err;
       lastStart := lastStart s;
       numberRestarts := numberRestarts s;
       isRestarting := isRestarting s;
       cancellationPipeName := cancellationPipeName s;
       requestQueue := requestQueue s;
       callbacks := CallbackMap.new;
       _apiVersion := API.defaultVersion;
       promises := promises s;
       reactions := reactions s;
       effects :=
         effects s
         ++ [LogError "TSServer errored with error." err; LogTelemetry "tsserver.error"]
         ++ fst (CallbackMap.destroy (VError ServiceDied) (callbacks s)) |}.
Proof.
  destruct s as [sp le ls nr ir cpn rq cbs av pr re ef].
  unfold handle_onError, serviceExited, CallbackMap.destroy. cbn [negb]. updates.
  now rewrite <- app_assoc.
Qed.

(** X5: after the server process has reported an error, every callback of the
    table has been rejected with [Service died.], the restart counter and the
    queue are as before and no server is started; a request with a callback
    that is sent afterwards waits on a promise that is already rejected with
    that error, and when its continuation runs the request is not written but
    rejected with the error, once, and its registration is gone. *)
Theorem process_error_rejects_later_requests (host : Host) (err : Value) (o : Settlement)
  (item : RequestItem.t) (cb : CallbackItem) (s : Client)
  (Hcb : RequestItem.callbacks item = Some cb) :
  let s0 := handle_onError host err s in
  let s1 := sendRequest host item s0 in
  let s2 := runReaction (List.length (reactions s)) o s1 in
  servicePromise s0 = None
  /\ numberRestarts s0 = numberRestarts s
  /\ requestQueue s0 = requestQueue s
  /\ filter isCallback (effects s0)
     = filter isCallback (effects s)
       ++ map (fun callback => Call_e callback (VError ServiceDied))
            (JsMap.values (CallbackMap.callbacks (callbacks s))
             ++ JsMap.values (CallbackMap.asyncCallbacks (callbacks s)))
  /\ fst (service host s0) = RejectedWith err
  /\ reactions s1
     = reactions s ++ [{| serverRequest := RequestItem.request item;
                          waitsOn := RejectedWith err |}]
  /\ servicePromise s1 = None
  /\ effects s2 = effects s1 ++ [Call_e cb err]
  /\ callbacks s2 = CallbackMap.new
  /\ reactions s2 = reactions s.
Proof.
  cbv zeta. rewrite sendRequest_state, handle_onError_state.
  cbn [servicePromise lastError numberRestarts requestQueue effects reactions callbacks
       startsLazily fst service].
  split; [reflexivity|]. split; [reflexivity|]. split; [reflexivity|].
  split.
  { destruct (destroy_spec (VError ServiceDied) (callbacks s)) as [-> _].
    rewrite !filter_app. cbn [filter isCallback]. rewrite app_nil_l. f_equal.
    induction (JsMap.values (CallbackMap.callbacks (callbacks s))
               ++ JsMap.values (CallbackMap.asyncCallbacks (callbacks s))) as [|c l IH];
      [reflexivity|]. simpl. now rewrite IH. }
  split; [reflexivity|]. split; [reflexivity|]. split; [reflexivity|].
  unfold runReaction. cbn [reactions].
  rewrite nth_error_app2 by lia. rewrite Nat.sub_diag. cbn [nth_error waitsOn serverRequest].
  unfold remove_nth. rewrite firstn_app, Nat.sub_diag, firstn_all, skipn_app.
  replace (S (List.length (reactions s)) - List.length (reactions s))%nat with 1%nat by lia.
  rewrite skipn_all2 by lia. cbn [firstn skipn app]. rewrite !app_nil_r.
  unfold sendRequest_onRejected. cbn [callbacks with_reactions].
  unfold register. rewrite Hcb. fold (seqOf item).
  assert (Hfetch : CallbackMap.fetch (seqOf item)
                     (CallbackMap.add (seqOf item) cb (RequestItem.isAsync item) CallbackMap.new)
                   = (Some cb, CallbackMap.new)).
  { apply fetch_after_add; simpl; tauto. }
  rewrite Hfetch. cbn [effects callbacks reactions emit with_callbacks with_reactions].
  auto.
Qed.

Lemma process_error_rejects_later_requests_witness :
  let item := {| RequestItem.request :=
                   {| Proto.seq := 0; Proto.command := "quickinfo"; Proto.arguments := "a" |};
                 RequestItem.callbacks := Some {| promise := 0; start := 5 |};
                 RequestItem.isAsync := false |} in
  let err := VError (External "EPIPE") in
  let s1 := sendRequest host291 item (handle_onError host291 err (new 0)) in
  effects (runReaction 0 Fulfilled s1) = effects s1 ++ [Call_e {| promise := 0; start := 5 |} err].
Proof.
  intros item err s1.
  destruct (process_error_rejects_later_requests host291 err Fulfilled item
              {| promise := 0; start := 5 |} (new 0) eq_refl)
    as (_ & _ & _ & _ & _ & _ & _ & H & _).
  exact H.
Defined.

Lemma asked_exit_state (host : Host) (code : option Z) (now : Z) (s : Client) :
  isRestarting s = true ->
  exists l,
    handle_onExit host code now s
    = {| servicePromise := None;
         lastError := lastError s;
         lastStart := lastStart s;
         numberRestarts := numberRestarts s;
         isRestarting := false;
         cancellationPipeName := cancellationPipeName s;
         requestQueue := requestQueue s;
         callbacks := CallbackMap.new;
         _apiVersion := API.defaultVersion;
         promises := promises s;
         reactions := reactions s;
         effects :=
           (effects s ++ l)
           ++ fst (CallbackMap.destroy (VError ServiceDied) (callbacks s)) |}
    /\ filter isRestartNotice l = [] /\ filter isCallback l = [].
Proof.
  intros Hasked.
  assert (Hexit : exists l,
             handle_onExit host code now s
             = with_isRestarting false (serviceExited host false now (emit l s))
             /\ filter isRestartNotice l = [] /\ filter isCallback l = []).
  { unfold handle_onExit. destruct code; eexists; cbn [isRestarting emit];
      rewrite Hasked; cbn [negb]; (split; [reflexivity|split; reflexivity]). }
  destruct Hexit as (l & -> & Hl & Hl'). exists l. split; [|auto].
  destruct s as [sp le ls nr ir cpn rq cbs av pr re ef].
  unfold serviceExited, CallbackMap.destroy. cbn [negb]. updates. reflexivity.
Qed.

(** X6: an exit of the server process that the client asked for
    ([isRestarting]) is not counted as a crash and starts nothing: the restart
    counter, the time of the last start, the last error and the queue are
    unchanged, no notice of the restart policy is shown, the flag is cleared,
    and the callbacks of the table are rejected with [Service died.], each as
    often as it is registered. *)
Theorem asked_exit_is_not_counted (host : Host) (code : option Z) (now : Z) (s : Client)
  (Hasked : isRestarting s = true) :
  let s' := handle_onExit host code now s in
  servicePromise s' = None
  /\ isRestarting s' = false
  /\ numberRestarts s' = numberRestarts s
  /\ lastStart s' = lastStart s
  /\ lastError s' = lastError s
  /\ requestQueue s' = requestQueue s
  /\ callbacks s' = CallbackMap.new
  /\ restartNotices s' = restartNotices s
  /\ filter isCallback (effects s')
     = filter isCallback (effects s)
       ++ map (fun callback => Call_e callback (VError ServiceDied))
            (JsMap.values (CallbackMap.callbacks (callbacks s))
             ++ JsMap.values (CallbackMap.asyncCallbacks (callbacks s))).
Proof.
  cbv zeta. destruct (asked_exit_state host code now s Hasked) as (l & -> & Hl & Hl').
  unfold restartNotices.
  cbn [servicePromise isRestarting numberRestarts lastStart lastError requestQueue callbacks
       effects].
  repeat (split; [reflexivity|]).
  destruct (destroy_spec (VError ServiceDied) (callbacks s)) as [-> _].
  rewrite !filter_app, Hl, Hl', filter_restartNotice_rejections, !app_nil_r.
  split; [reflexivity|]. f_equal.
  induction (JsMap.values (CallbackMap.callbacks (callbacks s))
             ++ JsMap.values (CallbackMap.asyncCallbacks (callbacks s))) as [|c l0 IH];
    [reflexivity|]. simpl. now rewrite IH.
Qed.

Lemma asked_exit_is_not_counted_witness :
  let s := restartTsServer_kill (fork_callback host291 None false 5
                                   (ensureServiceStarted host291 (new 0))) in
  numberRestarts (handle_onExit host291 None 50 s) = numberRestarts s.
Proof.
  intros s.
  destruct (asked_exit_is_not_counted host291 None 50 s eq_refl) as (_ & _ & H & _).
  exact H.
Defined.

(** X7: a restart that the exit of the old process follows.  The kill step
    sets [isRestarting] and the start step stores a new [servicePromise]; when
    the exit of the killed process is then reported, [handle.onExit] clears
    that promise again, without counting a crash, so that the next call of
    [service()] starts the server once more. *)
Theorem restart_forgets_new_server (host : Host) (code : option Z) (now : Z) (s : Client) :
  let restarted := restartTsServer_start host (restartTsServer_kill s) in
  let s' := handle_onExit host code now restarted in
  servicePromise restarted = Some ServicePromise
  /\ isRestarting restarted = true
  /\ servicePromise s' = None
  /\ lastError s' = None
  /\ isRestarting s' = false
  /\ numberRestarts s' = numberRestarts s
  /\ fst (service host s') = OnServicePromise
  /\ effects (snd (service host s')) = effects s' ++ startService_calls host.
Proof.
  cbv zeta.
  assert (Hr : isRestarting (restartTsServer_start host (restartTsServer_kill s)) = true).
  { unfold restartTsServer_start. now rewrite startService_state. }
  destruct (asked_exit_state host code now _ Hr) as (l & -> & _).
  unfold restartTsServer_start. rewrite startService_state.
  cbn [servicePromise lastError isRestarting numberRestarts restartTsServer_kill emit
       with_isRestarting resetClientVersion with_apiVersion].
  unfold service. cbn [servicePromise lastError]. rewrite startService_state.
  cbn [servicePromise effects fst snd].
  repeat (split; [reflexivity|]). reflexivity.
Qed.

(** X8: [startService] forgets every callback the client holds, in the table
    and in the queue, without calling it: whatever happens afterwards, no
    callback of a promise made before the start is called again. *)
Theorem startService_abandons_callbacks (host : Host) (s : Client) (p : nat)
  (turns : list (Host * Turn)) (Hmade : (p < promises s)%nat) :
  heldPromises (startService host s) = []
  /\ filter (callsPromise p) (effects (run turns (startService host s)))
     = filter (callsPromise p) (effects s).
Proof.
  assert (Hheld : heldPromises (startService host s) = [])
    by (rewrite startService_state; reflexivity).
  split; [exact Hheld|].
  rewrite abandoned_never_called.
  - rewrite startService_state. cbn [effects]. rewrite filter_app.
    assert (Hnone : filter (callsPromise p) (startService_calls host) = []).
    { unfold startService_calls. now destruct (tsServerPathExists host). }
    rewrite Hnone. apply app_nil_r.
  - split; [rewrite startService_state; exact Hmade | rewrite Hheld; intros []].
Qed.

Lemma startService_abandons_callbacks_witness :
  let s := execute host291 "completions" "b" 11
             (execute host291 "quickinfo" "a" 10 (ensureServiceStarted host291 (new 0))) in
  heldPromises s = [0%nat; 1%nat]
  /\ forall turns,
       filter (callsPromise 1) (effects (run turns (startService host291 s))) = [].
Proof.
  intros s. split; [reflexivity|]. intros turns.
  assert (Hmade : (1 < promises s)%nat) by (vm_compute; lia).
  exact (proj2 (startService_abandons_callbacks host291 s 1 turns Hmade)).
Defined.

(** ** What the drain loop sends *)

Lemma drained_app (queue : list RequestItem.t) :
  queue = fst (drained queue) ++ snd (drained queue).
Proof.
  induction queue as [|item rest IH]; [reflexivity|]. simpl.
  destruct (blocks item); [reflexivity|].
  destruct (drained rest) as [sent left]. simpl in *. now rewrite <- IH.
Qed.

Lemma sendNextRequests_drained (host : Host) (queue : list RequestItem.t) :
  forall s,
    startsLazily s = false ->
    CallbackMap.pendingResponses (callbacks s) = 0 ->
    RequestQueue.queue (requestQueue s) = queue ->
    let s' := sendNextRequests host s in
    requestQueue s'
    = {| RequestQueue.queue := snd (drained queue);
         RequestQueue.sequenceNumber := RequestQueue.sequenceNumber (requestQueue s) |}
    /\ callbacks s' = registerAll (fst (drained queue)) (callbacks s)
    /\ reactions s' = reactions s ++ map (reactionFor s) (fst (drained queue))
    /\ servicePromise s' = servicePromise s
    /\ lastError s' = lastError s
    /\ promises s' = promises s
    /\ filter isCallback (effects s') = filter isCallback (effects s).
Proof.
  induction queue as [|item rest IH]; intros s Hlazy Hzero Hq; cbv zeta;
    rewrite sendNextRequests_unfold.
  - unfold gateOpen, RequestQueue.length. rewrite Hq. cbn [List.length Z.of_nat].
    rewrite andb_false_r. cbn [drained fst snd map registerAll fold_left].
    rewrite app_nil_r. destruct s as [sp le ls nr ir cpn [q n] cbs av pr re ef].
    cbn in Hq. subst q. repeat split; reflexivity.
  - assert (Hopen : gateOpen s = true).
    { unfold gateOpen, RequestQueue.length. rewrite Hq, Hzero. reflexivity. }
    rewrite Hopen, Hq.
    assert (Hhead : sendHead host item rest s
                    = {| servicePromise := servicePromise s;
                         lastError := lastError s;
                         lastStart := lastStart s;
                         numberRestarts := numberRestarts s;
                         isRestarting := isRestarting s;
                         cancellationPipeName := cancellationPipeName s;
                         requestQueue :=
                           {| RequestQueue.queue := rest;
                              RequestQueue.sequenceNumber :=
                                RequestQueue.sequenceNumber (requestQueue s) |};
                         callbacks := register item (callbacks s);
                         _apiVersion := _apiVersion s;
                         promises := promises s;
                         reactions := reactions s ++ [reactionFor s item];
                         effects :=
                           effects s
                           ++ [TraceRequest (RequestItem.request item)
                                 (match RequestItem.callbacks item with
                                  | Some _ => true | None => false end)
                                 (Z.of_nat (List.length rest))] |}).
    { unfold sendHead. rewrite sendRequest_state.
      unfold startsLazily in *.
      cbn [servicePromise lastError lastStart numberRestarts isRestarting
           cancellationPipeName requestQueue callbacks _apiVersion promises reactions
           effects with_requestQueue].
      rewrite Hlazy. cbn [andb]. unfold reactionFor, RequestQueue.length.
      cbn [RequestQueue.queue]. now rewrite app_nil_r. }
    rewrite Hhead. cbn [drained].
    destruct (blocks item) eqn:Hblocks.
    + rewrite sendNextRequests_unfold.
      assert (Hclosed : gateOpen
                          {| servicePromise := servicePromise s;
                             lastError := lastError s;
                             lastStart := lastStart s;
                             numberRestarts := numberRestarts s;
                             isRestarting := isRestarting s;
                             cancellationPipeName := cancellationPipeName s;
                             requestQueue :=
                               {| RequestQueue.queue := rest;
                                  RequestQueue.sequenceNumber :=
                                    RequestQueue.sequenceNumber (requestQueue s) |};
                             callbacks := register item (callbacks s);
                             _apiVersion := _apiVersion s;
                             promises := promises s;
                             reactions := reactions s ++ [reactionFor s item];
                             effects :=
                               effects s
                               ++ [TraceRequest (RequestItem.request item)
                                     (match RequestItem.callbacks item with
                                      | Some _ => true | None => false end)
                                     (Z.of_nat (List.length rest))] |} = false).
      { unfold gateOpen. cbn [callbacks]. rewrite register_counter.
        unfold blocks in Hblocks.
        destruct (RequestItem.callbacks item); [|discriminate].
        destruct (RequestItem.isAsync item); [discriminate|].
        rewrite Hzero. reflexivity. }
      rewrite Hclosed.
      cbn [requestQueue callbacks reactions servicePromise lastError promises effects
           fst snd map registerAll fold_left].
      rewrite filter_app. cbn [filter isCallback]. rewrite app_nil_r.
      repeat split; reflexivity.
    + match goal with
      | |- context [sendNextRequests host ?s1] =>
          specialize (IH s1); cbv zeta in IH;
          destruct IH as (Hq' & Hc' & Hr' & Hs' & He' & Hp' & Hf')
      end.
      * unfold startsLazily in *. exact Hlazy.
      * cbn [callbacks]. rewrite register_counter. unfold blocks in Hblocks.
        destruct (RequestItem.callbacks item); [|exact Hzero].
        destruct (RequestItem.isAsync item); [exact Hzero | discriminate].
      * reflexivity.
      * destruct (drained rest) as [sent left].
        rewrite Hq', Hc', Hr', Hs', He', Hp', Hf'.
        cbn [requestQueue callbacks reactions servicePromise lastError promises effects
             fst snd map registerAll fold_left RequestQueue.sequenceNumber].
        rewrite filter_app. cbn [filter isCallback]. rewrite app_nil_r, <- app_assoc.
        repeat split; reflexivity.
Qed.

Lemma registerAll_counter (items : list RequestItem.t) (m : CallbackMap.t) :
  CallbackMap.pendingResponses (registerAll items m)
  = CallbackMap.pendingResponses m + Z.of_nat (List.length (filter blocks items)).
Proof.
  revert m. induction items as [|item items IH]; intros m; simpl; [lia|].
  unfold registerAll in IH. rewrite IH, register_counter. unfold blocks.
  destruct (RequestItem.callbacks item); [destruct (RequestItem.isAsync item)|];
    simpl negb; cbv iota; simpl List.length; lia.
Qed.

Lemma drained_blocks (queue : list RequestItem.t) :
  (if existsb blocks queue
   then exists init last,
       fst (drained queue) = init ++ [last]
       /\ blocks last = true /\ filter blocks init = []
   else fst (drained queue) = queue /\ snd (drained queue) = []
        /\ filter blocks queue = []).
Proof.
  induction queue as [|item rest IH]; simpl; [auto|].
  destruct (blocks item) eqn:Hb; simpl.
  - exists [], item. auto.
  - destruct (drained rest) as [sent left]. simpl in *.
    destruct (existsb blocks rest).
    + destruct IH as (init & last & -> & Hlast & Hinit).
      exists (item :: init), last. simpl. rewrite Hb. auto.
    + destruct IH as (-> & -> & Hnone). auto.
Qed.

Lemma executeImpl_state (host : Host) (command : string) (args : Payload)
  (isAsync expectsResult : bool) (now : Z) (s : Client) :
  executeImpl host command args isAsync expectsResult now s
  = sendNextRequests host (enqueued command args isAsync expectsResult now s).
Proof.
  unfold executeImpl, enqueued, requestItemFor, RequestQueue.createRequest, RequestQueue.push.
  destruct s as [sp le ls nr ir cpn rq cbs av pr re ef].
  destruct expectsResult; updates; reflexivity.
Qed.

(** X9: what the drain loop sends.  On a client that need not start the
    server and has no synchronous request outstanding, [sendNextRequests] sends
    the entries of the queue in order, up to and including the first one that
    registers a synchronous callback, and leaves the entries behind it queued
    in their order; each entry sent gets one continuation and its
    registration; the counter ends at one if such an entry was queued and at
    zero, with an empty queue, otherwise; no callback is called. *)
Theorem drain_sends_in_order (host : Host) (s : Client)
  (Hstarted : startsLazily s = false)
  (Hzero : CallbackMap.pendingResponses (callbacks s) = 0) :
  let queue := RequestQueue.queue (requestQueue s) in
  let sent := fst (drained queue) in
  let left := snd (drained queue) in
  let s' := sendNextRequests host s in
  queue = sent ++ left
  /\ RequestQueue.queue (requestQueue s') = left
  /\ reactions s' = reactions s ++ map (reactionFor s) sent
  /\ callbacks s' = registerAll sent (callbacks s)
  /\ CallbackMap.pendingResponses (callbacks s') = (if existsb blocks queue then 1 else 0)
  /\ (existsb blocks queue = false -> left = [])
  /\ (forall init last, sent = init ++ [last] -> filter blocks init = [])
  /\ filter isCallback (effects s') = filter isCallback (effects s).
Proof.
  cbv zeta.
  destruct (sendNextRequests_drained host _ s Hstarted Hzero eq_refl)
    as (Hq & Hc & Hr & _ & _ & _ & Hf).
  pose proof (drained_blocks (RequestQueue.queue (requestQueue s))) as Hb.
  split; [apply drained_app|]. split; [now rewrite Hq|]. split; [exact Hr|].
  split; [exact Hc|]. rewrite Hc, registerAll_counter, Hzero.
  destruct (existsb blocks (RequestQueue.queue (requestQueue s))).
  - destruct Hb as (init & last & Hsent & Hlast & Hinit). rewrite Hsent.
    split; [|split; [discriminate|split; [|exact Hf]]].
    + rewrite filter_app, Hinit. simpl. now rewrite Hlast.
    + intros init' last' Heq. apply app_inj_tail in Heq. destruct Heq as [<- _]. exact Hinit.
  - destruct Hb as (Hsent & Hleft & Hnone). rewrite Hsent, Hnone.
    split; [reflexivity|]. split; [auto|]. split; [|exact Hf].
    intros init last Heq. rewrite Heq, filter_app in Hnone.
    now apply app_eq_nil in Hnone.
Qed.

Lemma drain_sends_in_order_witness :
  let async := {| RequestItem.request :=
                    {| Proto.seq := 0; Proto.command := "geterr"; Proto.arguments := "a" |};
                  RequestItem.callbacks := Some {| promise := 0; start := 1 |};
                  RequestItem.isAsync := true |} in
  let sync1 := {| RequestItem.request :=
                    {| Proto.seq := 1; Proto.command := "quickinfo"; Proto.arguments := "b" |};
                  RequestItem.callbacks := Some {| promise := 1; start := 2 |};
                  RequestItem.isAsync := false |} in
  let sync2 := {| RequestItem.request :=
                    {| Proto.seq := 2; Proto.command := "completions"; Proto.arguments := "c" |};
                  RequestItem.callbacks := Some {| promise := 2; start := 3 |};
                  RequestItem.isAsync := false |} in
  let s := with_requestQueue
             {| RequestQueue.queue := [async; sync1; sync2]; RequestQueue.sequenceNumber := 3 |}
             (ensureServiceStarted host291 (new 0)) in
  RequestQueue.queue (requestQueue (sendNextRequests host291 s)) = [sync2].
Proof.
  intros async sync1 sync2 s.
  destruct (drain_sends_in_order host291 s eq_refl eq_refl) as (_ & H & _).
  exact H.
Defined.

(** X10: a request made while a synchronous request is outstanding is only
    queued: it takes the next sequence number and goes to the end of the queue;
    nothing is sent, traced or registered. *)
Theorem execute_while_busy_only_queues (host : Host) (command : string) (args : Payload)
  (isAsync expectsResult : bool) (now : Z) (s : Client)
  (Hbusy : CallbackMap.pendingResponses (callbacks s) <> 0) :
  let s' := executeImpl host command args isAsync expectsResult now s in
  s' = enqueued command args isAsync expectsResult now s
  /\ effects s' = effects s
  /\ reactions s' = reactions s
  /\ callbacks s' = callbacks s
  /\ servicePromise s' = servicePromise s
  /\ RequestQueue.length (requestQueue s') = RequestQueue.length (requestQueue s) + 1.
Proof.
  cbv zeta. rewrite executeImpl_state, sendNextRequests_unfold.
  assert (Hclosed : gateOpen (enqueued command args isAsync expectsResult now s) = false).
  { unfold gateOpen. cbn [enqueued callbacks].
    destruct (Z.eqb_spec (CallbackMap.pendingResponses (callbacks s)) 0); [contradiction|].
    reflexivity. }
  rewrite Hclosed. repeat (split; [reflexivity|]).
  unfold RequestQueue.length. cbn [enqueued requestQueue RequestQueue.queue].
  rewrite length_app. simpl. lia.
Qed.

Lemma execute_while_busy_only_queues_witness :
  let s := execute host291 "quickinfo" "a" 10 (ensureServiceStarted host291 (new 0)) in
  effects (executeAsync host291 "geterr" "b" 11 s) = effects s.
Proof.
  intros s.
  assert (Hbusy : CallbackMap.pendingResponses (callbacks s) <> 0) by (vm_compute; discriminate).
  exact (proj1 (proj2 (execute_while_busy_only_queues host291 "geterr" "b" true true 11 s Hbusy))).
Defined.

(** X11: a request made on a started client with nothing outstanding and
    nothing queued is sent at once, under the next sequence number: the queue
    is empty afterwards, one continuation waits to write the request, its
    callback is registered, and the counter is one exactly when the request is
    synchronous and expects a result. *)
Theorem execute_when_idle_sends_at_once (host : Host) (command : string) (args : Payload)
  (isAsync expectsResult : bool) (now : Z) (s : Client)
  (Hstarted : startsLazily s = false)
  (Hzero : CallbackMap.pendingResponses (callbacks s) = 0)
  (Hempty : RequestQueue.queue (requestQueue s) = []) :
  let item := requestItemFor command args isAsync expectsResult now s in
  let s' := executeImpl host command args isAsync expectsResult now s in
  requestQueue s'
  = {| RequestQueue.queue := [];
       RequestQueue.sequenceNumber := RequestQueue.sequenceNumber (requestQueue s) + 1 |}
  /\ reactions s' = reactions s ++ [reactionFor s item]
  /\ callbacks s' = register item (callbacks s)
  /\ CallbackMap.pendingResponses (callbacks s') = (if blocks item then 1 else 0)
  /\ effects s'
     = effects s ++ [TraceRequest (RequestItem.request item) expectsResult 0].
Proof.
  cbv zeta. rewrite executeImpl_state.
  set (item := requestItemFor command args isAsync expectsResult now s).
  set (s0 := enqueued command args isAsync expectsResult now s).
  assert (Hq0 : RequestQueue.queue (requestQueue s0) = [item]).
  { unfold s0. cbn [enqueued requestQueue RequestQueue.queue]. now rewrite Hempty. }
  assert (Hopen : gateOpen s0 = true).
  { unfold gateOpen, RequestQueue.length. rewrite Hq0. unfold s0. cbn [enqueued callbacks].
    now rewrite Hzero. }
  assert (Hhead : sendHead host item [] s0
                  = {| servicePromise := servicePromise s;
                       lastError := lastError s;
                       lastStart := lastStart s;
                       numberRestarts := numberRestarts s;
                       isRestarting := isRestarting s;
                       cancellationPipeName := cancellationPipeName s;
                       requestQueue :=
                         {| RequestQueue.queue := [];
                            RequestQueue.sequenceNumber :=
                              RequestQueue.sequenceNumber (requestQueue s) + 1 |};
                       callbacks := register item (callbacks s);
                       _apiVersion := _apiVersion s;
                       promises := promises s0;
                       reactions := reactions s ++ [reactionFor s item];
                       effects :=
                         effects s ++ [TraceRequest (RequestItem.request item) expectsResult 0] |}).
  { unfold sendHead. rewrite sendRequest_state. unfold startsLazily in *.
    unfold s0.
    cbn [enqueued servicePromise lastError lastStart numberRestarts isRestarting
         cancellationPipeName requestQueue callbacks _apiVersion promises reactions
         effects with_requestQueue RequestQueue.sequenceNumber].
    rewrite Hstarted. cbn [andb]. unfold RequestQueue.length. cbn [RequestQueue.queue].
    rewrite app_nil_r. unfold reactionFor.
    replace (match RequestItem.callbacks item with Some _ => true | None => false end)
      with expectsResult by (unfold item; cbn; now destruct expectsResult).
    reflexivity. }
  rewrite sendNextRequests_unfold, Hopen, Hq0, Hhead, sendNextRequests_unfold.
  match goal with
  | |- context [gateOpen ?s1] =>
      assert (Hclosed : gateOpen s1 = false)
        by (unfold gateOpen, RequestQueue.length; cbn [requestQueue RequestQueue.queue];
            apply andb_false_r)
  end.
  rewrite Hclosed. cbn [requestQueue reactions callbacks effects].
  repeat (split; [reflexivity|]). split; [|reflexivity].
  rewrite register_counter, Hzero. unfold blocks.
  destruct (RequestItem.callbacks item); [destruct (RequestItem.isAsync item)|]; reflexivity.
Qed.

Lemma execute_when_idle_sends_at_once_witness :
  let s := ensureServiceStarted host291 (new 0) in
  reactions (execute host291 "quickinfo" "a" 10 s)
  = [{| serverRequest :=
          {| Proto.seq := 0; Proto.command := "quickinfo"; Proto.arguments := "a" |};
        waitsOn := OnServicePromise |}].
Proof.
  intros s.
  destruct (execute_when_idle_sends_at_once host291 "quickinfo" "a" false true 10 s
              eq_refl eq_refl eq_refl) as (_ & H & _).
  exact H.
Defined.

Lemma fetch_sync (seq : Z) (m : CallbackMap.t) (cb : CallbackItem) :
  gate_table m ->
  JsMap.get seq (CallbackMap.callbacks m) = Some cb ->
  fst (CallbackMap.fetch seq m) = Some cb
  /\ CallbackMap.pendingResponses (snd (CallbackMap.fetch seq m)) = 0
  /\ CallbackMap.callbacks (snd (CallbackMap.fetch seq m)) = [].
Proof.
  intros [Hcount Hone] Hget.
  assert (Hhas : JsMap.has seq (CallbackMap.callbacks m) = true)
    by (unfold JsMap.has; now rewrite Hget).
  split; [unfold CallbackMap.fetch; cbn [fst]; now rewrite Hget|].
  rewrite fetch_counter, fetch_callbacks, Hhas.
  destruct (CallbackMap.callbacks m) as [|[k c] [|e l]] eqn:Hm; simpl in *;
    [discriminate| |lia].
  destruct (k =? seq); [|discriminate]. simpl. split; [lia | reflexivity].
Qed.

(** X12: the response to the outstanding synchronous request opens the gate:
    its callback is called with the response, once, and in the same turn the
    queue is drained from its head, up to and including the next entry that
    registers a synchronous callback. *)
Theorem response_unblocks_queue (host : Host) (response : Proto.Response) (cb : CallbackItem)
  (s : Client)
  (Hgate : gate_inv s)
  (Hsync : JsMap.get (Proto.request_seq response) (CallbackMap.callbacks (callbacks s))
           = Some cb)
  (Hstarted : startsLazily s = false) :
  let queue := RequestQueue.queue (requestQueue s) in
  let s' := snd (dispatchMessage host (Proto.IsResponse response) s) in
  RequestQueue.queue (requestQueue s') = snd (drained queue)
  /\ reactions s' = reactions s ++ map (reactionFor s) (fst (drained queue))
  /\ (forall item rest, queue = item :: rest -> exists more, fst (drained queue) = item :: more)
  /\ filter isCallback (effects s')
     = filter isCallback (effects s)
       ++ [if Proto.success response
           then Call_c cb (VResponse response) else Call_e cb (VResponse response)].
Proof.
  cbv zeta. destruct (fetch_sync _ _ cb Hgate Hsync) as (Hcb & Hzero & _).
  unfold dispatchMessage.
  destruct (CallbackMap.fetch (Proto.request_seq response) (callbacks s)) as [p table].
  cbn [fst snd] in *. subst p.
  match goal with
  | |- context [sendNextRequests host ?s1] =>
      destruct (sendNextRequests_drained host (RequestQueue.queue (requestQueue s)) s1)
        as (Hq & _ & Hr & _ & _ & _ & Hf); [exact Hstarted | exact Hzero | reflexivity |]
  end.
  rewrite Hq, Hr, Hf. cbn [RequestQueue.queue reactions effects emit with_callbacks].
  split; [reflexivity|]. split; [reflexivity|]. split.
  - intros item rest ->. simpl. destruct (blocks item); [now exists []|].
    destruct (drained rest) as [sent left]. now exists sent.
  - rewrite filter_app. f_equal. now destruct (Proto.success response).
Qed.

Lemma response_unblocks_queue_witness :
  let s := execute host291 "completions" "b" 11
             (execute host291 "quickinfo" "a" 10 (ensureServiceStarted host291 (new 0))) in
  let response := {| Proto.request_seq := 0; Proto.success := true;
                     Proto.body := Some "info"; Proto.message := None |} in
  let s' := snd (dispatchMessage host291 (Proto.IsResponse response) s) in
  List.length (RequestQueue.queue (requestQueue s)) = 1%nat
  /\ RequestQueue.queue (requestQueue s') = []
  /\ List.length (reactions s') = 2%nat.
Proof.
  intros s response s'.
  assert (Hgate : gate_inv s) by (split; vm_compute; [reflexivity | lia]).
  destruct (response_unblocks_queue host291 response {| promise := 0; start := 10 |} s
              Hgate eq_refl eq_refl) as (Hq & Hr & _).
  split; [reflexivity|]. split; [exact Hq|]. fold s' in Hr. rewrite Hr. reflexivity.
Defined.

(** X13: cancelling the synchronous request that is outstanding rejects its
    callback with [Cancelled Request n] and brings the counter to zero, but
    [tryCancelRequest] does not run the drain loop: the queue and the waiting
    continuations are unchanged, so queued requests stay queued, with the gate
    open, until the next request or message. *)
Theorem cancel_in_flight_leaves_queue_waiting (seq : Z) (cb : CallbackItem) (s : Client)
  (Hgate : gate_inv s)
  (Hsync : JsMap.get seq (CallbackMap.callbacks (callbacks s)) = Some cb)
  (Hnotqueued : ~ In seq (queuedSeqs s)) :
  let s' := snd (tryCancelRequest seq s) in
  requestQueue s' = requestQueue s
  /\ reactions s' = reactions s
  /\ CallbackMap.pendingResponses (callbacks s') = 0
  /\ gateOpen s' = (RequestQueue.length (requestQueue s) >? 0)
  /\ effects s'
     = effects s ++ cancelCalls seq s ++ [Call_e cb (VError (CancelledRequest seq))].
Proof.
  cbv zeta. destruct (fetch_sync _ _ cb Hgate Hsync) as (Hcb & Hzero & _).
  rewrite tryCancelRequest_state. cbn [snd]. rewrite Hcb.
  assert (Hfound : fst (RequestQueue.tryCancelPendingRequest seq (requestQueue s)) = false).
  { destruct (fst (RequestQueue.tryCancelPendingRequest seq (requestQueue s))) eqn:H;
      [|reflexivity].
    exfalso. apply Hnotqueued. now apply tryCancelPendingRequest_found. }
  rewrite (tryCancelPendingRequest_not_found _ _ Hfound).
  unfold gateOpen.
  cbn [requestQueue reactions callbacks effects emit with_callbacks with_requestQueue].
  rewrite Hzero, <- app_assoc. repeat split; reflexivity.
Qed.

Lemma cancel_in_flight_leaves_queue_waiting_witness :
  let s := execute host291 "completions" "b" 11
             (execute host291 "quickinfo" "a" 10 (ensureServiceStarted host291 (new 0))) in
  let s' := snd (tryCancelRequest 0 s) in
  gateOpen s' = true /\ reactions s' = reactions s.
Proof.
  intros s s'.
  assert (Hgate : gate_inv s) by (split; vm_compute; [reflexivity | lia]).
  assert (Hnotqueued : ~ In 0 (queuedSeqs s)) by (vm_compute; intros [H|[]]; discriminate).
  destruct (cancel_in_flight_leaves_queue_waiting 0 {| promise := 0; start := 10 |} s
              Hgate eq_refl Hnotqueued) as (_ & Hr & _ & Hopen & _).
  split; [exact Hopen | exact Hr].
Defined.

(** X14: when the drain loop runs on a client that has to start the server,
    the first entry it sends starts it, and [startService] installs an empty
    queue and an empty table: the other queued requests are dropped without
    being sent, the registration of the first is lost, and no promise made
    before is settled by anything that happens later. *)
Theorem lazy_start_drops_queue (host : Host) (item : RequestItem.t) (rest : list RequestItem.t)
  (s : Client) (p : nat) (turns : list (Host * Turn))
  (Hlazy : startsLazily s = true)
  (Hzero : CallbackMap.pendingResponses (callbacks s) = 0)
  (Hq : RequestQueue.queue (requestQueue s) = item :: rest)
  (Hmade : (p < promises s)%nat) :
  let s' := sendNextRequests host s in
  requestQueue s' = RequestQueue.new
  /\ callbacks s' = CallbackMap.new
  /\ servicePromise s' = Some ServicePromise
  /\ reactions s'
     = reactions s ++ [{| serverRequest := RequestItem.request item;
                          waitsOn := OnServicePromise |}]
  /\ filter (callsPromise p) (effects (run turns s')) = filter (callsPromise p) (effects s).
Proof.
  cbv zeta.
  assert (Hopen : gateOpen s = true).
  { unfold gateOpen, RequestQueue.length. now rewrite Hq, Hzero. }
  assert (Hhead : sendHead host item rest s
                  = {| servicePromise := Some ServicePromise;
                       lastError := lastError s;
                       lastStart := lastStart s;
                       numberRestarts := numberRestarts s;
                       isRestarting := isRestarting s;
                       cancellationPipeName :=
                         (if API.gte (pickedVersion host) API.v222
                          then Some (tempFile host) else cancellationPipeName s);
                       requestQueue := RequestQueue.new;
                       callbacks := CallbackMap.new;
                       _apiVersion := pickedVersion host;
                       promises := promises s;
                       reactions :=
                         reactions s ++ [{| serverRequest := RequestItem.request item;
                                            waitsOn := OnServicePromise |}];
                       effects :=
                         effects s
                         ++ [TraceRequest (RequestItem.request item)
                               (match RequestItem.callbacks item with
                                | Some _ => true | None => false end)
                               (Z.of_nat (List.length rest))]
                         ++ startService_calls host |}).
  { unfold sendHead. rewrite sendRequest_state. unfold startsLazily in *.
    cbn [servicePromise lastError lastStart numberRestarts isRestarting
         cancellationPipeName requestQueue callbacks _apiVersion promises reactions
         effects with_requestQueue].
    rewrite Hlazy. cbn [andb]. unfold RequestQueue.length. cbn [RequestQueue.queue].
    destruct (servicePromise s); [discriminate|].
    destruct (lastError s); [discriminate|]. reflexivity. }
  rewrite sendNextRequests_unfold, Hopen, Hq, Hhead, sendNextRequests_unfold.
  match goal with
  | |- context [gateOpen ?s1] =>
      assert (Hclosed : gateOpen s1 = false) by reflexivity; rewrite Hclosed;
      assert (Hab : abandoned p s1) by (split; [exact Hmade | intros []])
  end.
  repeat (split; [reflexivity|]).
  rewrite (abandoned_never_called p _ turns Hab). cbn [effects].
  rewrite !filter_app. cbn [filter callsPromise].
  assert (Hnone : filter (callsPromise p) (startService_calls host) = []).
  { unfold startService_calls. now destruct (tsServerPathExists host). }
  rewrite Hnone. now rewrite !app_nil_r.
Qed.

Lemma lazy_start_drops_queue_witness :
  let first := {| RequestItem.request :=
                    {| Proto.seq := 5; Proto.command := "quickinfo"; Proto.arguments := "a" |};
                  RequestItem.callbacks := Some {| promise := 0; start := 1 |};
                  RequestItem.isAsync := false |} in
  let second := {| RequestItem.request :=
                     {| Proto.seq := 6; Proto.command := "completions";
                        Proto.arguments := "b" |};
                   RequestItem.callbacks := Some {| promise := 1; start := 2 |};
                   RequestItem.isAsync := false |} in
  let s := with_promises 2
             (with_requestQueue
                {| RequestQueue.queue := [first; second]; RequestQueue.sequenceNumber := 7 |}
                (new 0)) in
  requestQueue (sendNextRequests host291 s) = RequestQueue.new
  /\ forall turns,
       filter (callsPromise 1) (effects (run turns (sendNextRequests host291 s))) = [].
Proof.
  intros first second s.
  assert (Hmade : (1 < promises s)%nat) by (vm_compute; lia).
  split.
  - exact (proj1 (lazy_start_drops_queue host291 first [second] s 1 [] eq_refl eq_refl eq_refl
                    Hmade)).
  - intros turns.
    destruct (lazy_start_drops_queue host291 first [second] s 1 turns eq_refl eq_refl eq_refl
                Hmade) as (_ & _ & _ & _ & H).
    exact H.
Defined.

(** ** No callback is called twice *)

Lemma callCount_app (p : nat) (l1 l2 : list Effect) :
  callCount p (l1 ++ l2) = (callCount p l1 + callCount p l2)%nat.
Proof. unfold callCount. now rewrite filter_app, length_app. Qed.

Lemma holdCount_app (p : nat) (l1 l2 : list nat) :
  holdCount p (l1 ++ l2) = (holdCount p l1 + holdCount p l2)%nat.
Proof. unfold holdCount. now rewrite filter_app, length_app. Qed.

Lemma callCount_quiet (p : nat) (l : list Effect) :
  forallb (fun e => negb (isCallback e)) l = true -> callCount p l = 0%nat.
Proof.
  intros Hq. unfold callCount. rewrite filter_false; [reflexivity|].
  intros e He. rewrite forallb_forall in Hq. specialize (Hq e He).
  destruct (callsPromise p e) eqn:Hc; [|reflexivity].
  apply callsPromise_isCallback in Hc. rewrite Hc in Hq. discriminate.
Qed.

Lemma holdCount_delete (p : nat) (k : Z) (m : JsMap.t CallbackItem) :
  (holdCount p (map promise (JsMap.values (snd (JsMap.delete k m))))
   + match JsMap.get k m with
     | Some v => if Nat.eqb (promise v) p then 1 else 0
     | None => 0
     end
   <= holdCount p (map promise (JsMap.values m)))%nat.
Proof.
  unfold holdCount, JsMap.values. cbn [JsMap.delete snd].
  induction m as [|[k' v'] m IH]; [simpl; lia|].
  cbn [JsMap.get filter map fst snd].
  assert (Hle : (List.length (filter (fun q => Nat.eqb q p)
                                (map promise (map snd (filter (fun e => negb (fst e =? k)%Z) m))))
                 <= List.length (filter (fun q => Nat.eqb q p) (map promise (map snd m))))%nat).
  { destruct (JsMap.get k m); lia. }
  destruct (k' =? k); cbn [negb map snd filter].
  - destruct (Nat.eqb (promise v') p); simpl; lia.
  - destruct (Nat.eqb (promise v') p); simpl; lia.
Qed.

Lemma holdCount_delete_le (p : nat) (k : Z) (m : JsMap.t CallbackItem) :
  (holdCount p (map promise (JsMap.values (snd (JsMap.delete k m))))
   <= holdCount p (map promise (JsMap.values m)))%nat.
Proof. pose proof (holdCount_delete p k m). lia. Qed.

Lemma holdCount_fetch (p : nat) (seq : Z) (m : CallbackMap.t) :
  (holdCount p (tablePromises (snd (CallbackMap.fetch seq m)))
   + match fst (CallbackMap.fetch seq m) with
     | Some v => if Nat.eqb (promise v) p then 1 else 0
     | None => 0
     end
   <= holdCount p (tablePromises m))%nat.
Proof.
  unfold tablePromises. rewrite !holdCount_app, fetch_callbacks, fetch_asyncCallbacks.
  unfold CallbackMap.fetch, JsMap.has. cbn [fst].
  pose proof (holdCount_delete p seq (CallbackMap.callbacks m)) as Hs.
  pose proof (holdCount_delete p seq (CallbackMap.asyncCallbacks m)) as Ha.
  destruct (JsMap.get seq (CallbackMap.callbacks m)); [lia|].
  destruct (JsMap.get seq (CallbackMap.asyncCallbacks m)); lia.
Qed.

Lemma holdCount_register (p : nat) (item : RequestItem.t) (m : CallbackMap.t) :
  JsMap.has (seqOf item) (CallbackMap.callbacks m) = false ->
  JsMap.has (seqOf item) (CallbackMap.asyncCallbacks m) = false ->
  holdCount p (tablePromises (register item m))
  = (holdCount p (tablePromises m) + holdCount p (itemPromises item))%nat.
Proof.
  intros Hs Ha. unfold register, itemPromises.
  destruct (RequestItem.callbacks item) as [cb|];
    [|change (holdCount p []) with 0%nat; lia].
  unfold CallbackMap.add, tablePromises, JsMap.set.
  destruct (RequestItem.isAsync item);
    cbn [CallbackMap.callbacks CallbackMap.asyncCallbacks]; rewrite ?Hs, ?Ha;
    unfold JsMap.values; rewrite !map_app, !holdCount_app; simpl; lia.
Qed.

Lemma holdCount_destroy (p : nat) (e : Value) (m : CallbackMap.t) :
  callCount p (fst (CallbackMap.destroy e m)) = holdCount p (tablePromises m).
Proof.
  destruct (destroy_spec e m) as [-> _]. unfold tablePromises. rewrite <- map_app.
  unfold callCount, holdCount.
  induction (JsMap.values (CallbackMap.callbacks m)
             ++ JsMap.values (CallbackMap.asyncCallbacks m)) as [|c l IH]; [reflexivity|].
  simpl. destruct (Nat.eqb (promise c) p); simpl; now rewrite IH.
Qed.

Lemma holdCount_cancel (p : nat) (seq : Z) (q : RequestQueue.t) :
  (holdCount p (flat_map itemPromises
                  (RequestQueue.queue (snd (RequestQueue.tryCancelPendingRequest seq q))))
   <= holdCount p (flat_map itemPromises (RequestQueue.queue q)))%nat.
Proof.
  unfold RequestQueue.tryCancelPendingRequest.
  destruct (RequestQueue.splice_seq seq (RequestQueue.queue q)) as [l|] eqn:Hsplice;
    [|cbn [snd]; lia].
  apply splice_seq_inv in Hsplice.
  destruct Hsplice as (before & item & after & -> & _ & _ & ->).
  cbn [snd RequestQueue.queue]. rewrite !flat_map_app. cbn [flat_map].
  rewrite !holdCount_app. lia.
Qed.

Lemma seq_ok_head_fresh (item : RequestItem.t) (rest : list RequestItem.t)
  (q : RequestQueue.t) (m : CallbackMap.t) :
  RequestQueue.queue q = item :: rest ->
  seq_ok q m ->
  JsMap.has (seqOf item) (CallbackMap.callbacks m) = false
  /\ JsMap.has (seqOf item) (CallbackMap.asyncCallbacks m) = false.
Proof.
  unfold seq_ok. intros -> (_ & _ & Hflight & _). cbn [map] in Hflight.
  split; apply JsMap_has_false; intros Hin;
    [destruct (Hflight _ (or_introl Hin)) as [_ H]
    | destruct (Hflight _ (or_intror Hin)) as [_ H]];
    specialize (H (seqOf item) (or_introl eq_refl)); lia.
Qed.

Lemma conserves_refl (s : Client) : conserves s s.
Proof. split; [lia|]. intros p. lia. Qed.

Lemma conserves_trans (s1 s2 s3 : Client) :
  conserves s1 s2 -> conserves s2 s3 -> conserves s1 s3.
Proof.
  intros [Hp1 Hw1] [Hp2 Hw2]. split; [lia|]. intros p.
  specialize (Hw1 p). specialize (Hw2 p).
  destruct (Nat.leb_spec (promises s1) p), (Nat.ltb_spec p (promises s2)),
    (Nat.leb_spec (promises s2) p), (Nat.ltb_spec p (promises s3));
    cbn [andb] in *; lia.
Qed.

Lemma once_step_refl (s : Client) : once_step s s.
Proof. intros Hinv. split; [exact Hinv | apply conserves_refl]. Qed.

Lemma once_step_trans (s1 s2 s3 : Client) :
  once_step s1 s2 -> once_step s2 s3 -> once_step s1 s3.
Proof.
  intros H12 H23 Hinv. destruct (H12 Hinv) as [Hinv2 Hc12].
  destruct (H23 Hinv2) as [Hinv3 Hc23]. split; [exact Hinv3|].
  now apply conserves_trans with (s2 := s2).
Qed.

(** A step that makes no promise: what it calls and what it holds afterwards
    was held before. *)
Lemma conserves_step (s s' : Client) (l : list Effect) :
  promises s' = promises s ->
  effects s' = effects s ++ l ->
  (forall p, (callCount p l + holdCount p (heldPromises s')
              <= holdCount p (heldPromises s))%nat) ->
  conserves s s'.
Proof.
  intros Hp He Hh. split; [lia|]. intros p. unfold weight.
  rewrite He, callCount_app. specialize (Hh p). lia.
Qed.

Lemma once_step_same (s s' : Client) (l : list Effect) :
  promises s' = promises s ->
  callbacks s' = callbacks s ->
  requestQueue s' = requestQueue s ->
  effects s' = effects s ++ l ->
  forallb (fun e => negb (isCallback e)) l = true ->
  once_step s s'.
Proof.
  intros Hp Hc Hq He Hl Hinv. split.
  - unfold seq_inv in *. now rewrite Hc, Hq.
  - apply (conserves_step s s' l Hp He). intros p.
    rewrite (callCount_quiet p l Hl). unfold heldPromises. rewrite Hc, Hq. lia.
Qed.

Lemma once_step_startService (host : Host) (s : Client) : once_step s (startService host s).
Proof.
  intros _. split; [apply seq_inv_startService|].
  apply (conserves_step _ _ (startService_calls host)); rewrite ?startService_state;
    [reflexivity | reflexivity |].
  intros p. rewrite (callCount_quiet p _ (drain_quiet _ (startService_calls_drain host))).
  cbn. lia.
Qed.

Lemma once_step_sendHead (host : Host) (item : RequestItem.t) (rest : list RequestItem.t)
  (s : Client) :
  RequestQueue.queue (requestQueue s) = item :: rest ->
  once_step s (sendHead host item rest s).
Proof.
  intros Hq Hinv. split; [now apply seq_inv_sendHead|].
  destruct (seq_ok_head_fresh item rest _ _ Hq Hinv) as [Hs Ha].
  unfold sendHead. rewrite sendRequest_state.
  eapply conserves_step; cbn [promises effects]; [reflexivity | reflexivity |].
  intros p. rewrite callCount_quiet.
  - unfold heldPromises. cbn [callbacks requestQueue with_requestQueue]. rewrite Hq.
    destruct (startsLazily _); [cbn; lia|].
    cbn [RequestQueue.queue flat_map]. rewrite !holdCount_app.
    rewrite (holdCount_register p item (callbacks s) Hs Ha). lia.
  - rewrite forallb_app. apply andb_true_intro. split; [reflexivity|].
    destruct (startsLazily _); [apply drain_quiet, startService_calls_drain | reflexivity].
Qed.

Lemma once_step_sendNextRequests (host : Host) (s : Client) :
  once_step s (sendNextRequests host s).
Proof.
  apply (sendNextRequests_ind host (once_step s)); [|apply once_step_refl].
  intros s' item rest _ Hq Hstep. eapply once_step_trans; [exact Hstep|].
  now apply once_step_sendHead.
Qed.

Lemma once_step_executeImpl (host : Host) (command : string) (args : Payload)
  (isAsync expectsResult : bool) (now : Z) (s : Client) :
  once_step s (executeImpl host command args isAsync expectsResult now s).
Proof.
  rewrite executeImpl_state.
  eapply once_step_trans; [|apply once_step_sendNextRequests].
  intros Hinv. split.
  - exact (seq_ok_enqueue command args
             (if expectsResult then Some {| promise := promises s; start := now |} else None)
             isAsync _ _ Hinv).
  - split; [cbn [enqueued promises]; destruct expectsResult; lia|].
    intros p. unfold weight, heldPromises.
    cbn [enqueued effects callbacks requestQueue RequestQueue.queue promises].
    rewrite flat_map_app, !holdCount_app. cbn [flat_map]. rewrite app_nil_r.
    unfold itemPromises, requestItemFor. cbn [RequestItem.callbacks].
    destruct expectsResult.
    + cbn [promise holdCount filter]. unfold holdCount. cbn [filter].
      destruct (Nat.eqb_spec (promises s) p) as [<-|Hne].
      * rewrite Nat.leb_refl. destruct (Nat.ltb_spec (promises s) (S (promises s))); [|lia].
        simpl. lia.
      * simpl. lia.
    + cbn. lia.
Qed.

Lemma once_step_fetch (seq : Z) (l : list Effect) (s : Client) :
  (forall p, (callCount p l
              <= match fst (CallbackMap.fetch seq (callbacks s)) with
                 | Some v => if Nat.eqb (promise v) p then 1 else 0
                 | None => 0
                 end)%nat) ->
  once_step s (emit l (with_callbacks (snd (CallbackMap.fetch seq (callbacks s))) s)).
Proof.
  intros Hl Hinv. split.
  - unfold seq_inv. cbn [requestQueue callbacks emit with_callbacks]. now apply seq_ok_fetch.
  - apply (conserves_step _ _ l); [reflexivity | reflexivity |].
    intros p. unfold heldPromises. cbn [callbacks requestQueue emit with_callbacks].
    rewrite !holdCount_app. specialize (Hl p).
    pose proof (holdCount_fetch p seq (callbacks s)). lia.
Qed.

Lemma once_step_tryCancelRequest (seq : Z) (s : Client) :
  once_step s (snd (tryCancelRequest seq s)).
Proof.
  rewrite tryCancelRequest_state. cbn [snd].
  apply once_step_trans
    with (s2 := emit (cancelCalls seq s)
                  (with_requestQueue
                     (snd (RequestQueue.tryCancelPendingRequest seq (requestQueue s))) s)).
  - intros Hinv. split.
    + unfold seq_inv. cbn [requestQueue callbacks emit with_requestQueue].
      now apply seq_ok_cancel.
    + apply (conserves_step _ _ (cancelCalls seq s)); [reflexivity | reflexivity |].
      intros p. rewrite callCount_quiet.
      * unfold heldPromises. cbn [callbacks requestQueue emit with_requestQueue].
        rewrite !holdCount_app.
        pose proof (holdCount_cancel p seq (requestQueue s)). lia.
      * unfold cancelCalls.
        destruct (fst (RequestQueue.tryCancelPendingRequest seq (requestQueue s)));
          [|destruct (sideChannel s)]; reflexivity.
  - match goal with
    | |- once_step ?s0 (emit ?l (with_callbacks (snd (CallbackMap.fetch seq ?m)) _)) =>
        change m with (callbacks s0); apply (once_step_fetch seq l s0)
    end.
    intros p. cbn [callbacks emit with_requestQueue].
    destruct (fst (CallbackMap.fetch seq (callbacks s))) as [v|]; [|cbn; lia].
    unfold callCount. cbn [filter callsPromise].
    destruct (Nat.eqb (promise v) p); simpl; lia.
Qed.

Lemma once_step_fetched (seq : Z) (p : option CallbackItem) (table : CallbackMap.t)
  (l : list Effect) (s : Client) :
  CallbackMap.fetch seq (callbacks s) = (p, table) ->
  (forall q, (callCount q l
              <= match p with
                 | Some v => if Nat.eqb (promise v) q then 1 else 0
                 | None => 0
                 end)%nat) ->
  once_step s (emit l (with_callbacks table s)).
Proof.
  intros Hfetch Hl.
  assert (Htable : table = snd (CallbackMap.fetch seq (callbacks s))) by now rewrite Hfetch.
  assert (Hp : p = fst (CallbackMap.fetch seq (callbacks s))) by now rewrite Hfetch.
  rewrite Htable. apply once_step_fetch. now rewrite <- Hp.
Qed.

Lemma callCount_one (cb : CallbackItem) (l : list Effect) (e : Effect) (q : nat) :
  forallb (fun e => negb (isCallback e)) l = true ->
  (forall p, callsPromise p e = Nat.eqb (promise cb) p) ->
  (callCount q (l ++ [e]) <= if Nat.eqb (promise cb) q then 1 else 0)%nat.
Proof.
  intros Hl He. rewrite callCount_app, (callCount_quiet q l Hl).
  unfold callCount. cbn [filter]. rewrite He.
  destruct (Nat.eqb (promise cb) q); simpl; lia.
Qed.

Lemma once_step_dispatchEvent (ev : Proto.Event) (s : Client) :
  once_step s (dispatchEvent ev s).
Proof.
  destruct ev as [seq|name has_body]; unfold dispatchEvent.
  - destruct (CallbackMap.fetch seq (callbacks s)) as [[p|] table] eqn:Hfetch.
    + apply (once_step_fetched seq (Some p) table _ s Hfetch). intros q.
      now apply (callCount_one p [TraceRequestCompleted seq (start p)]).
    + rewrite <- (emit_nil (with_callbacks table s)).
      apply (once_step_fetched seq None table [] s Hfetch). intros q. cbn. lia.
  - now apply (once_step_same _ _ [RouteEvent (Proto.Named name has_body)]).
Qed.

Lemma once_step_dispatchMessage (host : Host) (msg : Proto.Message) (s : Client) :
  once_step s (snd (dispatchMessage host msg s)).
Proof.
  unfold dispatchMessage. destruct msg as [response|ev|type]; cbn [snd].
  - destruct (CallbackMap.fetch (Proto.request_seq response) (callbacks s))
      as [[p|] table] eqn:Hfetch; cbn [snd];
      (eapply once_step_trans; [|apply once_step_sendNextRequests]).
    + apply (once_step_fetched _ (Some p) table _ s Hfetch). intros q.
      apply (callCount_one p [TraceResponse response (start p)]); [reflexivity|].
      intros p0. now destruct (Proto.success response).
    + rewrite <- (emit_nil (with_callbacks table s)).
      apply (once_step_fetched _ None table [] s Hfetch). intros q. cbn. lia.
  - eapply once_step_trans; [|apply once_step_sendNextRequests].
    eapply once_step_trans; [|apply once_step_dispatchEvent].
    now apply (once_step_same _ _ [TraceEvent ev]).
  - apply once_step_sendNextRequests.
Qed.

Lemma once_step_destroyed (s : Client) :
  once_step s
    (with_callbacks CallbackMap.new
       (emit (fst (CallbackMap.destroy (VError ServiceDied) (callbacks s)))
          (with_servicePromise None s))).
Proof.
  intros Hinv. split.
  - unfold seq_inv. cbn [requestQueue callbacks with_callbacks emit with_servicePromise].
    now apply seq_ok_no_callbacks with (m := callbacks s).
  - eapply conserves_step; [reflexivity | reflexivity |].
    intros p. rewrite holdCount_destroy. unfold heldPromises.
    cbn [requestQueue callbacks with_callbacks emit with_servicePromise].
    rewrite !holdCount_app. cbn. lia.
Qed.

Lemma once_step_serviceExited (host : Host) (restart : bool) (now : Z) (s : Client) :
  once_step s (serviceExited host restart now s).
Proof.
  unfold serviceExited.
  change (callbacks (with_servicePromise None s)) with (callbacks s).
  destruct (CallbackMap.destroy (VError ServiceDied) (callbacks s)) as [calls table] eqn:Hd.
  assert (Hcalls : calls = fst (CallbackMap.destroy (VError ServiceDied) (callbacks s)))
    by now rewrite Hd.
  rewrite Hcalls.
  eapply once_step_trans; [apply once_step_destroyed|].
  destruct restart; cbn [negb].
  - repeat destruct_if.
    + now eapply (once_step_same _ _ [ShowErrorMessage "serverDiedAfterStart";
                                      LogTelemetry "serviceExited"]).
    + eapply once_step_trans; [|apply once_step_startService].
      now eapply (once_step_same _ _ [ShowWarningMessage "serverDied"]).
    + eapply once_step_trans; [|apply once_step_startService].
      eapply (once_step_same _ _ []); try reflexivity. cbn [effects with_numberRestarts].
      now rewrite app_nil_r.
    + eapply once_step_trans; [|apply once_step_startService].
      eapply (once_step_same _ _ []); try reflexivity. cbn [effects with_numberRestarts].
      now rewrite app_nil_r.
  - eapply (once_step_same _ _ []); try reflexivity.
    cbn [effects resetClientVersion with_apiVersion]. now rewrite app_nil_r.
Qed.

Lemma once_step_serviceStarted (host : Host) (resendModels : bool) (s : Client) :
  once_step s (serviceStarted host resendModels s).
Proof.
  unfold serviceStarted, setCompilerOptionsForInferredProjects,
    executeWithoutWaitingForResponse.
  pose proof (once_step_executeImpl host "configure" "hostInfo: vscode" false false 0 s) as H1.
  pose proof (once_step_executeImpl host "compilerOptionsForInferredProjects" "options"
                false false 0 (executeImpl host "configure" "hostInfo: vscode" false false 0 s))
    as H2.
  pose proof (once_step_trans _ _ _ H1 H2) as H3.
  destruct (negb (API.gte _ API.v206)), resendModels; try assumption.
  - eapply once_step_trans; [exact H1|].
    now apply (once_step_same _ _ [Fire "onResendModelsRequested"]).
  - eapply once_step_trans; [exact H3|].
    now apply (once_step_same _ _ [Fire "onResendModelsRequested"]).
Qed.

Lemma once_step_fork_callback (host : Host) (err : option Value) (resendModels : bool)
  (now : Z) (s : Client) :
  once_step s (fork_callback host err resendModels now s).
Proof.
  unfold fork_callback. destruct err as [err|].
  - now apply (once_step_same _ _ [LogError "Starting TSServer failed with error." err;
                                   ShowErrorMessage "serverCouldNotBeStarted";
                                   LogTelemetry "error"]).
  - eapply once_step_trans; [|apply once_step_serviceStarted].
    eapply (once_step_same _ _ [LogInfo "Started TSServer"; Fire "onTsServerStarted"]);
      try reflexivity.
    cbn [effects emit with_lastStart]. now rewrite <- app_assoc.
Qed.

Lemma once_step_sendRequest_onRejected (rq : Proto.Request) (err : Value) (s : Client) :
  once_step s (sendRequest_onRejected rq err s).
Proof.
  unfold sendRequest_onRejected.
  destruct (CallbackMap.fetch (Proto.seq rq) (callbacks s)) as [[p|] table] eqn:Hfetch.
  - apply (once_step_fetched _ (Some p) table _ s Hfetch). intros q.
    now apply (callCount_one p []).
  - rewrite <- (emit_nil (with_callbacks table s)).
    apply (once_step_fetched _ None table [] s Hfetch). intros q. cbn. lia.
Qed.

Lemma once_step_runReaction (i : nat) (o : Settlement) (s : Client) :
  once_step s (runReaction i o s).
Proof.
  unfold runReaction. destruct (nth_error (reactions s) i) as [r|]; [|apply once_step_refl].
  apply once_step_trans with (s2 := with_reactions (remove_nth i (reactions s)) s).
  - eapply (once_step_same _ _ []); try reflexivity.
    cbn [effects with_reactions]. now rewrite app_nil_r.
  - destruct (waitsOn r), o; try apply once_step_sendRequest_onRejected.
    now apply (once_step_same _ _ [ChildWrite (serverRequest r)]).
Qed.

Lemma once_step_turn (host : Host) (t : Turn) (s : Client) : once_step s (turn host t s).
Proof.
  destruct t; cbn [turn].
  - apply once_step_executeImpl.
  - apply once_step_executeImpl.
  - apply once_step_executeImpl.
  - apply once_step_tryCancelRequest.
  - unfold ensureServiceStarted. destruct (servicePromise s);
      [apply once_step_refl | apply once_step_startService].
  - unfold restartTsServer, restartTsServer_start. destruct (servicePromise s);
      [apply once_step_refl | apply once_step_startService].
  - unfold restartTsServer_kill.
    eapply (once_step_same _ _ [LogInfo "Killing TS Server"; ChildKill]); try reflexivity.
    cbn [effects emit with_isRestarting resetClientVersion with_apiVersion].
    now rewrite <- app_assoc.
  - apply once_step_startService.
  - apply once_step_fork_callback.
  - unfold handle_onError. eapply once_step_trans; [|apply once_step_serviceExited].
    now apply (once_step_same _ _ [LogError "TSServer errored with error." err;
                                   LogTelemetry "tsserver.error"]).
  - unfold handle_onExit.
    set (s0 := match code with
               | Some _ => emit [LogError "TSServer exited with code" VUndefined;
                                LogTelemetry "tsserver.exitWithCode"] s
               | None => emit [LogInfo "TSServer exited"] s
               end).
    apply once_step_trans with (s2 := s0).
    + subst s0. destruct code.
      * now apply (once_step_same _ _ [LogError "TSServer exited with code" VUndefined;
                                       LogTelemetry "tsserver.exitWithCode"]).
      * now apply (once_step_same _ _ [LogInfo "TSServer exited"]).
    + eapply once_step_trans; [apply once_step_serviceExited|].
      eapply (once_step_same _ _ []); try reflexivity.
      cbn [effects with_isRestarting]. now rewrite app_nil_r.
  - unfold Reader_deliver, reader_onMessage.
    pose proof (once_step_dispatchMessage host msg s) as H.
    destruct (dispatchMessage host msg s) as [[|err] s']; cbn [snd] in H; [exact H|].
    eapply once_step_trans; [exact H|].
    now apply (once_step_same _ _ [LogError "ReaderError" (VError err)]).
  - apply once_step_runReaction.
Qed.

Lemma once_step_run (turns : list (Host * Turn)) (s : Client) : once_step s (run turns s).
Proof.
  revert s. induction turns as [|[host t] turns IH]; intros s; [apply once_step_refl|].
  simpl. eapply once_step_trans; [apply once_step_turn | apply IH].
Qed.

Lemma once_inv_conserves (s s' : Client) : once_inv s -> conserves s s' -> once_inv s'.
Proof.
  intros Hinv [Hp Hw] p. specialize (Hinv p). specialize (Hw p).
  destruct (Nat.ltb_spec p (promises s)), (Nat.leb_spec (promises s) p),
    (Nat.ltb_spec p (promises s')); cbn [andb] in *; lia.
Qed.

Lemma reachable_once_inv (s : Client) : reachable s -> once_inv s.
Proof.
  intros (now & turns & ->).
  destruct (once_step_run turns (new now) seq_ok_new) as [_ Hc].
  apply (once_inv_conserves (new now)); [|exact Hc].
  intros p. cbn. lia.
Qed.

(** X15: in every state the client can reach, the callback of a promise has
    been called at most once; a callback that is still held, in the table or
    in the queue, has not been called and is held in one place only; and no
    callback exists for a promise that has not been made. *)
Theorem callback_called_at_most_once (s : Client) (p : nat) (Hreach : reachable s) :
  (callCount p (effects s) <= 1)%nat
  /\ (In p (heldPromises s) -> callCount p (effects s) = 0%nat)
  /\ (holdCount p (heldPromises s) <= 1)%nat
  /\ ((promises s <= p)%nat -> callCount p (effects s) = 0%nat /\ ~ In p (heldPromises s)).
Proof.
  pose proof (reachable_once_inv s Hreach p) as Hw. unfold weight in Hw.
  assert (Hin : In p (heldPromises s) -> (1 <= holdCount p (heldPromises s))%nat).
  { intros H. unfold holdCount.
    assert (Hf : In p (filter (fun q => Nat.eqb q p) (heldPromises s)))
      by (apply filter_In; split; [exact H | apply Nat.eqb_refl]).
    destruct (filter (fun q => Nat.eqb q p) (heldPromises s)); [destruct Hf | simpl; lia]. }
  destruct (Nat.ltb_spec p (promises s)).
  - split; [lia|]. split; [intros H0; specialize (Hin H0); lia|]. split; [lia|]. lia.
  - split; [lia|]. split; [lia|]. split; [lia|]. intros _. split; [lia|].
    intros H0. specialize (Hin H0). lia.
Qed.

Lemma callback_called_at_most_once_witness :
  let s := run [(host291, EnsureServiceStarted);
                (host291, Execute "quickinfo" "a" 10);
                (host291, ReaderMessage
                            (Proto.IsResponse
                               {| Proto.request_seq := 0; Proto.success := true;
                                  Proto.body := Some "info"; Proto.message := None |}));
                (host291, ChildError (VError (External "EPIPE")))] (new 0) in
  (callCount 0 (effects s) <= 1)%nat.
Proof.
  intros s.
  assert (Hreach : reachable s) by (exists 0; eexists; reflexivity).
  exact (proj1 (callback_called_at_most_once s 0%nat Hreach)).
Defined.

(** ** Events, and a start that fails *)

(** X16: a [requestCompleted] event for an asynchronous request resolves its
    promise with [undefined], once, and removes its registration; the
    synchronous map and the counter are unchanged, so while a synchronous
    request is outstanding the event sends nothing. *)
Theorem requestCompleted_resolves_async (host : Host) (seq : Z) (cb : CallbackItem)
  (s : Client)
  (Hsync : JsMap.get seq (CallbackMap.callbacks (callbacks s)) = None)
  (Hasync : JsMap.get seq (CallbackMap.asyncCallbacks (callbacks s)) = Some cb) :
  let ev := Proto.RequestCompleted seq in
  let s1 := dispatchEvent ev s in
  let s' := snd (dispatchMessage host (Proto.IsEvent ev) s) in
  effects s1 = effects s ++ [TraceRequestCompleted seq (start cb); Call_c cb VUndefined]
  /\ CallbackMap.callbacks (callbacks s1) = CallbackMap.callbacks (callbacks s)
  /\ CallbackMap.pendingResponses (callbacks s1) = CallbackMap.pendingResponses (callbacks s)
  /\ JsMap.get seq (CallbackMap.asyncCallbacks (callbacks s1)) = None
  /\ fst (dispatchMessage host (Proto.IsEvent ev) s) = Returned
  /\ filter isCallback (effects s')
     = filter isCallback (effects s) ++ [Call_c cb VUndefined]
  /\ (CallbackMap.pendingResponses (callbacks s) <> 0 ->
      effects s'
      = effects s ++ [TraceEvent ev; TraceRequestCompleted seq (start cb); Call_c cb VUndefined]
      /\ requestQueue s' = requestQueue s
      /\ reactions s' = reactions s).
Proof.
  cbv zeta.
  assert (Hhas : JsMap.has seq (CallbackMap.callbacks (callbacks s)) = false)
    by (unfold JsMap.has; now rewrite Hsync).
  assert (Hfetch : fst (CallbackMap.fetch seq (callbacks s)) = Some cb)
    by (unfold CallbackMap.fetch; cbn [fst]; now rewrite Hsync).
  assert (Hevent : forall l,
             dispatchEvent (Proto.RequestCompleted seq) (emit l s)
             = emit [TraceRequestCompleted seq (start cb); Call_c cb VUndefined]
                 (with_callbacks (snd (CallbackMap.fetch seq (callbacks s))) (emit l s))).
  { intros l. unfold dispatchEvent. cbn [callbacks emit].
    destruct (CallbackMap.fetch seq (callbacks s)) as [p table]. cbn [fst snd] in *.
    now subst p. }
  pose proof (Hevent []) as Hev0. rewrite emit_nil in Hev0. rewrite Hev0.
  cbn [effects callbacks emit with_callbacks].
  split; [reflexivity|].
  split; [rewrite fetch_callbacks; exact (JsMap_delete_absent _ _ Hhas)|].
  split; [rewrite fetch_counter; now rewrite Hhas|].
  split; [rewrite fetch_asyncCallbacks, Hhas; apply JsMap_get_delete_same|].
  unfold dispatchMessage. rewrite Hevent. cbn [fst snd].
  split; [reflexivity|]. split.
  - rewrite sendNextRequests_filter by (intros e He; now rewrite (drain_no_callback e He)).
    cbn [effects emit with_callbacks]. rewrite !filter_app. cbn [filter isCallback].
    now rewrite app_nil_r.
  - intros Hbusy. rewrite sendNextRequests_unfold.
    match goal with
    | |- context [gateOpen ?s1] =>
        assert (Hclosed : gateOpen s1 = false)
    end.
    { unfold gateOpen. cbn [callbacks emit with_callbacks].
      rewrite fetch_counter, Hhas.
      destruct (Z.eqb_spec (CallbackMap.pendingResponses (callbacks s)) 0);
        [contradiction | reflexivity]. }
    rewrite Hclosed. cbn [effects requestQueue reactions emit with_callbacks].
    rewrite <- app_assoc. repeat split; reflexivity.
Qed.

Lemma requestCompleted_resolves_async_witness :
  let s := executeAsync host291 "geterr" "files" 10 (ensureServiceStarted host291 (new 0)) in
  let cb := {| promise := 0; start := 10 |} in
  effects (dispatchEvent (Proto.RequestCompleted 0) s)
  = effects s ++ [TraceRequestCompleted 0 10; Call_c cb VUndefined].
Proof.
  intros s cb.
  exact (proj1 (requestCompleted_resolves_async host291 0 cb s eq_refl eq_refl)).
Defined.



(** ** [parseErrorText] *)

Lemma substr_app (p r : string) : JsString.substr (String.length p) (p ++ r) = r.
Proof. induction p as [|c p IH]; [now destruct r | exact IH]. Qed.

Lemma startsWith_app (p r : string) : JsString.startsWith (p ++ r) p = true.
Proof.
  unfold JsString.startsWith. induction p as [|c p IH]; simpl; [now destruct r|].
  destruct (Ascii.ascii_dec c c); [exact IH | contradiction].
Qed.

Lemma startsWith_inv (s p : string) :
  JsString.startsWith s p = true -> s = (p ++ JsString.substr (String.length p) s)%string.
Proof.
  unfold JsString.startsWith. revert s. induction p as [|c p IH]; intros s.
  - now destruct s.
  - destruct s as [|a s]; simpl; [intros [=]|].
    destruct (Ascii.ascii_dec c a) as [->|]; [|intros [=]].
    intros H. now rewrite <- (IH s H).
Qed.

Lemma indexOf_bounds (s : string) (c : Ascii.ascii) :
  -1 <= JsString.indexOf s c < Z.of_nat (String.length s)
  /\ (JsString.indexOf s c < 0 -> JsString.indexOf s c = -1).
Proof.
  induction s as [|a s IH]; simpl; [lia|].
  destruct (Ascii.eqb a c); [lia|].
  destruct (Z.ltb_spec (JsString.indexOf s c) 0); lia.
Qed.

Lemma indexOf_found (s : string) (c : Ascii.ascii) :
  0 <= JsString.indexOf s c ->
  s = (JsString.substring 0 (Z.to_nat (JsString.indexOf s c)) s
       ++ String c (JsString.substr (Z.to_nat (JsString.indexOf s c + 1)) s))%string
  /\ JsString.includes (JsString.substring 0 (Z.to_nat (JsString.indexOf s c)) s) c = false.
Proof.
  unfold JsString.substring. induction s as [|a s IH]; simpl; [lia|].
  destruct (Ascii.eqb_spec a c) as [->|Hne].
  - intros _. simpl. auto.
  - destruct (Z.ltb_spec (JsString.indexOf s c) 0) as [Hlt|Hge]; [lia|].
    intros _. specialize (IH Hge). destruct IH as [Heq Hno].
    replace (Z.to_nat (JsString.indexOf s c + 1))
      with (S (Z.to_nat (JsString.indexOf s c))) by lia.
    replace (Z.to_nat (JsString.indexOf s c + 1 + 1))
      with (S (S (Z.to_nat (JsString.indexOf s c)))) by lia.
    rewrite Nat.sub_0_r in *. cbn [JsString.substr JsString.take] in *.
    replace (Z.to_nat (JsString.indexOf s c + 1))
      with (S (Z.to_nat (JsString.indexOf s c))) in Heq by lia.
    split.
    + simpl. f_equal. exact Heq.
    + simpl. destruct (Ascii.eqb_spec a c); [contradiction|]. exact Hno.
Qed.

Lemma indexOf_app (m st : string) (c : Ascii.ascii) :
  JsString.includes m c = false ->
  JsString.indexOf (m ++ String c st) c = Z.of_nat (String.length m).
Proof.
  induction m as [|a m IH]; simpl; intros Hno.
  - now rewrite Ascii.eqb_refl.
  - apply orb_false_elim in Hno. destruct Hno as [Ha Hm]. rewrite Ha, (IH Hm).
    destruct (Z.ltb_spec (Z.of_nat (String.length m)) 0); lia.
Qed.

Lemma take_app (m r : string) : JsString.take (String.length m) (m ++ r) = m.
Proof. induction m as [|a m IH]; simpl; [now destruct r | now rewrite IH]. Qed.

Lemma substr_app_cons (m st : string) (c : Ascii.ascii) :
  JsString.substr (S (String.length m)) (m ++ String c st) = st.
Proof. induction m as [|a m IH]; simpl; [now destruct st | exact IH]. Qed.

(** X18: [parseErrorText] always records the command and, for a non-empty
    error text, the text itself.  It records a [message] and a [stack] exactly
    when the text is the prefix [Error processing request. ] followed by a
    message without newline, a newline and the stack; a [message] is never
    recorded without a [stack]. *)
Theorem parseErrorText_splits_message_and_stack (errorText : option string)
  (command message stack : string) :
  let properties := parseErrorText errorText command in
  ObjectMap.get "command" properties = Some command
  /\ ObjectMap.get "errorText" properties
     = match errorText with
       | Some text => if truthy text then Some text else None
       | None => None
       end
  /\ (ObjectMap.get "message" properties = Some message
      /\ ObjectMap.get "stack" properties = Some stack
      <-> errorText = Some (errorPrefix ++ message ++ String newline stack)%string
          /\ JsString.includes message newline = false)
  /\ (ObjectMap.get "message" properties = None
      <-> ObjectMap.get "stack" properties = None).
Proof.
  cbv zeta. unfold parseErrorText.
  destruct errorText as [text|].
  2:{ cbn -[errorPrefix String.append]. split; [reflexivity|]. split; [reflexivity|]. split; [|tauto].
      split; [intros [H _]; discriminate | intros [H _]; discriminate]. }
  destruct (truthy text) eqn:Htruthy; cbn [negb].
  2:{ cbn -[errorPrefix String.append]. split; [reflexivity|]. split; [reflexivity|]. split; [|tauto].
      split; [intros [H _]; discriminate|].
      intros [[= ->] _]. discriminate Htruthy. }
  destruct (JsString.startsWith text errorPrefix) eqn:Hprefix.
  2:{ cbn -[errorPrefix String.append]. split; [reflexivity|]. split; [reflexivity|]. split; [|tauto].
      split; [intros [H _]; discriminate|].
      intros [[= ->] _]. exfalso.
      exact (eq_true_false_abs _
               (startsWith_app errorPrefix (message ++ String newline stack)) Hprefix). }
  pose proof (startsWith_inv _ _ Hprefix) as Htext.
  set (rest := JsString.substr (String.length errorPrefix) text) in *.
  destruct (Z.geb_spec (JsString.indexOf rest newline) 0) as [Hge|Hlt].
  - destruct (indexOf_found rest newline Hge) as [Hrest Hno].
    cbn -[errorPrefix String.append]. split; [reflexivity|]. split; [reflexivity|]. split; [|split; discriminate].
    split.
    + intros [[= <-] [= <-]]. split; [|exact Hno].
      rewrite Htext at 1. f_equal. f_equal. exact Hrest.
    + intros [[= Heq] Hm].
      assert (Hr : rest = (message ++ String newline stack)%string).
      { unfold rest. rewrite Heq.
        exact (substr_app errorPrefix (message ++ String newline stack)). }
      rewrite Hr, (indexOf_app _ _ _ Hm).
      unfold JsString.substring. rewrite Nat.sub_0_r, Nat2Z.id. cbn [JsString.substr].
      rewrite take_app.
      replace (Z.to_nat (Z.of_nat (String.length message) + 1))
        with (S (String.length message)) by lia.
      now rewrite substr_app_cons.
  - cbn -[errorPrefix String.append]. split; [reflexivity|]. split; [reflexivity|]. split; [|tauto].
    split; [intros [H _]; discriminate|].
    intros [[= Heq] Hm]. exfalso.
    assert (Hr : rest = (message ++ String newline stack)%string).
    { unfold rest. rewrite Heq.
      exact (substr_app errorPrefix (message ++ String newline stack)). }
    rewrite Hr, (indexOf_app _ _ _ Hm) in Hlt. lia.
Qed.

(** ** [getWorkspaceRootForResource] *)

Lemma find_first_sorted {A : Type} (R : A -> A -> Prop) (f : A -> bool) (l : list A) (x : A) :
  StronglySorted R l ->
  find f l = Some x ->
  In x l /\ f x = true /\ forall y, In y l -> f y = true -> x = y \/ R x y.
Proof.
  induction 1 as [|a l Hs IH Hall]; simpl; [discriminate|].
  destruct (f a) eqn:Hfa.
  - intros [= ->]. split; [now left|]. split; [exact Hfa|].
    intros y [->|Hy] _; [now left|]. right. rewrite Forall_forall in Hall. now apply Hall.
  - intros Hfind. destruct (IH Hfind) as (Hin & Hfx & Hfirst).
    split; [now right|]. split; [exact Hfx|].
    intros y [<-|Hy] Hfy; [congruence|]. now apply Hfirst.
Qed.

Lemma find_none {A : Type} (f : A -> bool) (l : list A) :
  find f l = None -> forall y, In y l -> f y = false.
Proof.
  induction l as [|a l IH]; simpl; [intros _ y []|].
  destruct (f a) eqn:Hfa; [discriminate|].
  intros Hfind y [<-|Hy]; [exact Hfa | now apply IH].
Qed.

(** X19: for a [file] or [untitled] resource and a non-empty list of
    workspace folders, [getWorkspaceRootForResource] returns one of the
    folders: the shortest folder that contains the resource if one does, and
    the shortest folder of all otherwise.  This holds for every sort that
    rearranges the folders by non-decreasing length of their path. *)
Theorem workspace_root_is_shortest_enclosing (sort : list string -> list string)
  (sort_permutes : forall l x, In x (sort l) <-> In x l)
  (sort_sorts : forall l, StronglySorted shorter (sort l))
  (sep : string) (roots : list string) (resource : Uri)
  (Hscheme : scheme resource = fileSchemes.file \/ scheme resource = fileSchemes.untitled)
  (Hroots : roots <> []) :
  exists root,
    getWorkspaceRootForResource sort sep (Some roots) resource = Some root
    /\ In root roots
    /\ (forall r, In r roots -> encloses sep resource r = true ->
                  encloses sep resource root = true /\ shorter root r)
    /\ ((forall r, In r roots -> encloses sep resource r = false) ->
        forall r, In r roots -> shorter root r).
Proof.
  unfold getWorkspaceRootForResource.
  destruct roots as [|r0 roots0] eqn:Hr; [contradiction|]. rewrite <- Hr in *.
  assert (Hlen : (List.length roots =? 0)%nat = false) by (rewrite Hr; reflexivity).
  rewrite Hlen.
  assert (Hs : (scheme resource =? fileSchemes.file)%string
               || (scheme resource =? fileSchemes.untitled)%string = true).
  { destruct Hscheme as [-> | ->]; reflexivity. }
  rewrite Hs. cbv zeta. fold (encloses sep resource).
  destruct (find (encloses sep resource) (sort roots)) as [root|] eqn:Hfind.
  - destruct (find_first_sorted shorter _ _ _ (sort_sorts roots) Hfind)
      as (Hin & Hroot & Hfirst).
    exists root. split; [reflexivity|]. split; [now apply sort_permutes|]. split.
    + intros r Hr' Henc. split; [exact Hroot|].
      destruct (Hfirst r (proj2 (sort_permutes roots r) Hr') Henc) as [<-|H];
        [unfold shorter; lia | exact H].
    + intros Hnone. rewrite (Hnone root (proj1 (sort_permutes roots root) Hin)) in Hroot.
      discriminate.
  - pose proof (find_none _ _ Hfind) as Hnone.
    pose proof (sort_sorts roots) as Hsorted.
    destruct (sort roots) as [|root rest] eqn:Hsort.
    + exfalso. assert (Hin : In r0 (sort roots))
        by (apply sort_permutes; rewrite Hr; now left).
      rewrite Hsort in Hin. destruct Hin.
    + exists root. split; [reflexivity|].
      assert (Hin : In root roots) by (apply sort_permutes; rewrite Hsort; now left).
      split; [exact Hin|]. split.
      * intros r Hr' Henc. exfalso.
        assert (Hsr : In r (root :: rest)) by (rewrite <- Hsort; now apply sort_permutes).
        rewrite (Hnone r Hsr) in Henc. discriminate.
      * intros _ r Hr'.
        assert (Hsr : In r (root :: rest)) by (rewrite <- Hsort; now apply sort_permutes).
        inversion Hsorted as [|? ? _ Hall]; subst. rewrite Forall_forall in Hall.
        destruct Hsr as [<-|Hsr]; [unfold shorter; lia | now apply Hall].
Qed.

Lemma insertByLength_In (x y : string) (l : list string) :
  In y (insertByLength x l) <-> y = x \/ In y l.
Proof.
  induction l as [|a l IH]; simpl; [intuition congruence|].
  destruct (String.length x <=? String.length a)%nat; simpl; [intuition congruence|].
  rewrite IH. intuition congruence.
Qed.

Lemma sortByLength_In (l : list string) (x : string) : In x (sortByLength l) <-> In x l.
Proof.
  induction l as [|a l IH]; simpl; [tauto|].
  rewrite insertByLength_In, IH. intuition congruence.
Qed.

Lemma insertByLength_sorted (x : string) (l : list string) :
  StronglySorted shorter l -> StronglySorted shorter (insertByLength x l).
Proof.
  induction 1 as [|a l Hs IH Hall]; simpl; [repeat constructor|].
  rewrite Forall_forall in Hall.
  destruct (Nat.leb_spec (String.length x) (String.length a)) as [Hle|Hgt].
  - constructor; [now constructor; [|apply Forall_forall]|].
    apply Forall_forall. intros y [<-|Hy]; [exact Hle|].
    specialize (Hall y Hy). unfold shorter in *. lia.
  - constructor; [exact IH|]. apply Forall_forall. intros y Hy.
    apply insertByLength_In in Hy. destruct Hy as [->|Hy]; [unfold shorter; lia | now apply Hall].
Qed.

Lemma sortByLength_sorted (l : list string) : StronglySorted shorter (sortByLength l).
Proof.
  induction l as [|a l IH]; simpl; [constructor | now apply insertByLength_sorted].
Qed.

Lemma workspace_root_is_shortest_enclosing_witness :
  let resource := {| scheme := "file"; fsPath := "/work/app/server/main.ts" |} in
  exists root,
    getWorkspaceRootForResource sortByLength "/"
      (Some ["/work/app/server"; "/work/app"; "/opt"]) resource = Some root
    /\ encloses "/" resource root = true
    /\ shorter root "/work/app".
Proof.
  intros resource.
  destruct (workspace_root_is_shortest_enclosing sortByLength sortByLength_In
              sortByLength_sorted "/" ["/work/app/server"; "/work/app"; "/opt"] resource
              (or_introl eq_refl) ltac:(discriminate))
    as (root & Hroot & _ & Henc & _).
  exists root. split; [exact Hroot|].
  apply (Henc "/work/app"); [simpl; auto | reflexivity].
Defined.

(** ** Starting once, and counting restarts *)

(** X20: [ensureServiceStarted] starts the server at most once: afterwards
    there is a [servicePromise], a second call changes nothing, and
    [service()] returns that promise without starting again; a client that had
    a promise is left as it was. *)
Theorem ensureServiceStarted_starts_once (host host' : Host) (s : Client) :
  let s' := ensureServiceStarted host s in
  servicePromise s' = Some ServicePromise
  /\ ensureServiceStarted host' s' = s'
  /\ fst (service host' s') = OnServicePromise
  /\ snd (service host' s') = s'
  /\ (servicePromise s <> None -> s' = s)
  /\ (servicePromise s = None ->
      effects s' = effects s ++ startService_calls host
      /\ lastError s' = None
      /\ requestQueue s' = RequestQueue.new
      /\ callbacks s' = CallbackMap.new).
Proof.
  cbv zeta. unfold ensureServiceStarted, service.
  destruct (servicePromise s) as [[]|] eqn:Hp.
  - rewrite Hp. cbn [fst snd].
    split; [reflexivity|]. split; [reflexivity|]. split; [reflexivity|].
    split; [reflexivity|]. split; [reflexivity | discriminate].
  - rewrite startService_state.
    cbn [servicePromise effects lastError requestQueue callbacks fst snd].
    split; [reflexivity|]. split; [reflexivity|]. split; [reflexivity|].
    split; [reflexivity|]. split; [intros H; now contradiction H|].
    intros _. repeat split; reflexivity.
Qed.

Lemma serviceExited_counter (host : Host) (restart : bool) (now : Z) (s : Client) :
  0 <= numberRestarts s <= 5 ->
  0 <= numberRestarts (serviceExited host restart now s) <= 5.
Proof.
  intros Hn. destruct s as [sp le ls nr ir cpn rq cbs av pr re ef].
  unfold serviceExited, CallbackMap.destroy. cbn [numberRestarts] in Hn.
  destruct restart; cbn [negb]; updates; [|exact Hn].
  destruct (Z.gtb_spec (nr + 1) 5).
  - repeat destruct_if; rewrite ?startService_state; cbn [numberRestarts]; lia.
  - rewrite startService_state. cbn [numberRestarts]. lia.
Qed.

Lemma turn_counter (host : Host) (t : Turn) (s : Client) :
  0 <= numberRestarts s <= 5 -> 0 <= numberRestarts (turn host t s) <= 5.
Proof.
  intros Hn.
  assert (Hexec : forall command args isAsync expectsResult now,
             numberRestarts (executeImpl host command args isAsync expectsResult now s)
             = numberRestarts s).
  { intros. apply (executeImpl_supervision host command args isAsync expectsResult now s). }
  destruct t; cbn [turn].
  - unfold execute. now rewrite Hexec.
  - unfold executeAsync. now rewrite Hexec.
  - unfold executeWithoutWaitingForResponse. now rewrite Hexec.
  - rewrite tryCancelRequest_state. exact Hn.
  - unfold ensureServiceStarted. destruct (servicePromise s); [exact Hn|].
    now rewrite startService_state.
  - unfold restartTsServer, restartTsServer_start. destruct (servicePromise s); [exact Hn|].
    now rewrite startService_state.
  - exact Hn.
  - unfold restartTsServer_start. now rewrite startService_state.
  - unfold fork_callback. destruct err as [err|]; [exact Hn|].
    match goal with
    | |- context [serviceStarted host resendModels ?s0] =>
        destruct (serviceStarted_supervision host resendModels s0) as (_ & -> & _)
    end.
    exact Hn.
  - unfold handle_onError. now apply serviceExited_counter.
  - unfold handle_onExit. cbn [numberRestarts with_isRestarting].
    apply serviceExited_counter. now destruct code.
  - unfold Reader_deliver, reader_onMessage, dispatchMessage.
    assert (Hdrain : forall s0, numberRestarts (sendNextRequests host s0) = numberRestarts s0).
    { intros s0. apply (sendNextRequests_supervision host s0). }
    destruct msg as [response|ev|type].
    + destruct (CallbackMap.fetch (Proto.request_seq response) (callbacks s)) as [[p|] table];
        rewrite Hdrain; exact Hn.
    + rewrite Hdrain. destruct ev as [seq|name has_body]; unfold dispatchEvent.
      * cbn [callbacks emit].
        destruct (CallbackMap.fetch seq (callbacks s)) as [[p|] table]; exact Hn.
      * exact Hn.
    + cbn [reader_onError numberRestarts emit]. now rewrite Hdrain.
  - unfold runReaction. destruct (nth_error (reactions s) i) as [r|]; [|exact Hn].
    unfold sendRequest_onRejected, sendRequest_onFulfilled.
    cbn [callbacks with_reactions].
    destruct (waitsOn r), o;
      try (destruct (CallbackMap.fetch (Proto.seq (serverRequest r)) (callbacks s))
             as [[p|] table]);
      exact Hn.
Qed.

(** X21: in every state the client can reach, the restart counter is between
    0 and 5. *)
Theorem restart_counter_bounded (s : Client) (Hreach : reachable s) :
  0 <= numberRestarts s <= 5.
Proof.
  destruct Hreach as (now & turns & ->).
  assert (Hrun : forall turns s0,
             0 <= numberRestarts s0 <= 5 -> 0 <= numberRestarts (run turns s0) <= 5).
  { clear turns. induction turns as [|[host t] turns IH]; intros s0 Hn; [exact Hn|].
    simpl. apply IH. now apply turn_counter. }
  apply Hrun. cbn. lia.
Qed.

Lemma restart_counter_bounded_witness :
  let sessions := [(100, 900); (1000, 1900); (2000, 2900);
                   (3000, 3900); (4000, 4900); (5000, 5900)] in
  0 <= numberRestarts
         (run (map (fun session => (host291, ChildExit (Some 1) (snd session))) sessions)
            (new 0)) <= 5.
Proof.
  intros sessions. apply restart_counter_bounded. exists 0. eexists. reflexivity.
Defined.

(** ** [normalizedPath] *)

Lemma replaceAll_length (c b : Ascii.ascii) (s : string) :
  String.length (replaceAll c b s) = String.length s.
Proof. induction s as [|a s IH]; simpl; [reflexivity | now rewrite IH]. Qed.

Lemma replaceAll_removes (c b : Ascii.ascii) (s : string) :
  c <> b -> JsString.includes (replaceAll c b s) c = false.
Proof.
  intros Hne. induction s as [|a s IH]; simpl; [reflexivity|]. rewrite IH, orb_false_r.
  destruct (Ascii.eqb_spec a c) as [->|Ha].
  - apply Ascii.eqb_neq. congruence.
  - now apply Ascii.eqb_neq.
Qed.

Lemma replaceAll_absent (c b : Ascii.ascii) (s : string) :
  JsString.includes s c = false -> replaceAll c b s = s.
Proof.
  induction s as [|a s IH]; simpl; [reflexivity|]. intros H.
  apply orb_false_elim in H. destruct H as [Ha Hs]. now rewrite Ha, (IH Hs).
Qed.

Lemma replaceAll_same (c : Ascii.ascii) (s : string) : replaceAll c c s = s.
Proof.
  induction s as [|a s IH]; simpl; [reflexivity|]. rewrite IH.
  now destruct (Ascii.eqb_spec a c) as [->|].
Qed.

(** X22: for a resource with the scheme [file], [normalizedPath] does not
    depend on the version of the server: it returns nothing for an empty path
    and otherwise the path with every path separator replaced by [/], which
    has the same length, holds no backslash when the separator is the
    backslash, is the path itself when the separator is [/] or does not occur,
    and is its own normal form. *)
Theorem normalizedPath_of_a_file (inMemoryUri : string -> Uri -> string)
  (pathSeparator : PathSep) (resource : Uri) (s : Client)
  (Hfile : scheme resource = fileSchemes.file) :
  let result := normalizedPath inMemoryUri pathSeparator resource s in
  (fsPath resource = "" -> result = None)
  /\ (fsPath resource <> "" ->
      exists path,
        result = Some path
        /\ String.length path = String.length (fsPath resource)
        /\ (pathSeparator = Backslash ->
            JsString.includes path (sepChar Backslash) = false)
        /\ (pathSeparator = Slash
            \/ JsString.includes (fsPath resource) (sepChar pathSeparator) = false ->
            path = fsPath resource)
        /\ normalizedPath inMemoryUri pathSeparator
             {| scheme := fileSchemes.file; fsPath := path |} s = Some path)
  /\ (forall s', normalizedPath inMemoryUri pathSeparator resource s' = result).
Proof.
  cbv zeta.
  assert (Hnorm : forall path s0,
             normalizedPath inMemoryUri pathSeparator
               {| scheme := fileSchemes.file; fsPath := path |} s0
             = if negb (truthy path) then None
               else Some (replaceAll (sepChar pathSeparator) (Ascii.ascii_of_nat 47) path)).
  { intros path s0. unfold normalizedPath. cbn [scheme fsPath].
    replace ((fileSchemes.file =? walkThroughSnippet)%string) with false by reflexivity.
    replace ((fileSchemes.file =? fileSchemes.untitled)%string) with false by reflexivity.
    replace ((fileSchemes.file =? fileSchemes.file)%string) with true by reflexivity.
    now rewrite andb_false_r. }
  destruct resource as [sch path]. cbn [scheme fsPath] in *. subst sch.
  split; [|split].
  - intros ->. now rewrite Hnorm.
  - intros Hne. rewrite Hnorm.
    assert (Htruthy : truthy path = true).
    { unfold truthy. destruct (String.eqb_spec path ""); [contradiction | reflexivity]. }
    rewrite Htruthy. cbn [negb]. eexists. split; [reflexivity|].
    split; [apply replaceAll_length|]. split; [|split].
    + intros ->. apply replaceAll_removes. discriminate.
    + intros [-> | Habsent]; [apply replaceAll_same | now apply replaceAll_absent].
    + rewrite Hnorm.
      assert (Hlen : String.length
                       (replaceAll (sepChar pathSeparator) (Ascii.ascii_of_nat 47) path)
                     <> 0%nat).
      { rewrite replaceAll_length. destruct path; [contradiction | discriminate]. }
      unfold truthy.
      destruct (String.eqb_spec
                  (replaceAll (sepChar pathSeparator) (Ascii.ascii_of_nat 47) path) "")
        as [Heq|_]; [rewrite Heq in Hlen; now contradiction Hlen|].
      cbn [negb]. f_equal.
      destruct pathSeparator; [now rewrite !replaceAll_same|].
      apply replaceAll_absent, replaceAll_removes. discriminate.
  - intros s'. now rewrite !Hnorm.
Qed.

Lemma normalizedPath_of_a_file_witness :
  normalizedPath (fun prefix resource => fsPath resource) Backslash
    {| scheme := "file"; fsPath := "C:\work\app\main.ts" |} (new 0)
  = Some "C:/work/app/main.ts".
Proof.
  destruct (normalizedPath_of_a_file (fun prefix resource => fsPath resource) Backslash
              {| scheme := "file"; fsPath := "C:\work\app\main.ts" |} (new 0) eq_refl)
    as (_ & _ & Hsame).
  rewrite <- (Hsame (new 1)). reflexivity.
Defined.
